(** * plotly_formatter: the [PlotlyFormatter] class

    A shallow embedding of [src/plotly_formatter/formatter.py] and the
    properties of its constructor and of [standardize].

    The Python program works on mutable dictionaries that are passed by
    reference, on binary64 floats and on unbounded integers.  The embedding
    keeps all three: dictionaries live in a heap indexed by locations, floats
    are [spec_float] values at precision 53, integers are [Z].

    The figure that [standardize] styles belongs to the plotting library,
    which is no part of the program: the library is a parameter of the
    embedding, the class [Library] below. *)

From Stdlib Require Import ZArith Ascii String Floats.SpecFloat.
From stdpp Require Import gmap strings list fin_maps.

#[local] Set Warnings "-clear-no-such-hyp".

Local Open Scope Z_scope.
Local Open Scope string_scope.

(** ** Binary64 floats, as Python's [float] *)

Module F64.

Definition prec : Z := 53.
Definition emax : Z := 1024.

(** [x * y] on floats: the IEEE product, rounded to nearest even. *)
Definition mul (x y : spec_float) : spec_float := SFmul prec emax x y.

Definition div (x y : spec_float) : spec_float := SFdiv prec emax x y.

(** The float nearest to an integer ([float(n)]); infinite when [n] is out
    of the range of binary64. *)
Definition of_Z (z : Z) : spec_float := binary_normalize prec emax z 0 false.

(** Rounding toward zero, as [int(x)] does on a finite float. *)
Definition trunc (x : spec_float) : Z :=
  match x with
  | S754_finite s m e => cond_Zopp s (Z.shiftl (Z.pos m) e)
  | _ => 0
  end.

(** Rounding toward minus infinity, as [math.floor(x)]. *)
Definition floor (x : spec_float) : Z :=
  match x with
  | S754_finite s m e => Z.shiftl (cond_Zopp s (Z.pos m)) e
  | _ => 0
  end.

Definition is_negative (x : spec_float) : bool :=
  match x with
  | S754_finite s _ _ => s
  | _ => false
  end.

(** The literals of the source: [0.95], [0.9] and [0.5]. *)
Definition lit_0_95 : spec_float := S754_finite false 8556839292003942 (-53).
Definition lit_0_9 : spec_float := S754_finite false 8106479329266893 (-53).
Definition lit_0_5 : spec_float := S754_finite false 4503599627370496 (-53).

End F64.

Arguments F64.mul : simpl never.
Arguments F64.of_Z : simpl never.
Arguments F64.trunc : simpl never.
Arguments F64.floor : simpl never.

Global Instance spec_float_eq_dec : EqDecision spec_float.
Proof. solve_decision. Defined.

(** ** Python values, dictionaries and the heap

    The values of the embedding are [None], the booleans, the integers, the
    floats, the strings and the dictionaries.  A string is a sequence of
    code points below 256.  Objects of other classes (fractions, decimals,
    arrays) are outside the embedding. *)

Definition loc := positive.

Inductive value :=
  | VNone
  | VBool (b : bool)
  | VInt (z : Z)
  | VFloat (f : spec_float)
  | VStr (s : string)
  | VRef (l : loc).

Global Instance value_eq_dec : EqDecision value.
Proof. solve_decision. Defined.

(** A [dict] with string keys; the heap maps each location to the dictionary
    stored there, and [VRef l] is the reference to the dictionary at [l].  A
    reference to a location where nothing is stored stands for no value of
    the program; the operations below raise [TypeError] on it. *)
Abbreviation dict := (gmap string value).
Abbreviation heap := (gmap loc dict).

Inductive exn := AttributeError | KeyError | TypeError | ValueError | OverflowError.

(** An operation that touches no dictionary returns a value or raises. *)
Inductive result (A : Type) :=
  | Val (a : A)
  | Err (e : exn).
Arguments Val {A} a.
Arguments Err {A} e.

Global Instance result_ret : MRet result := λ A a, Val a.
Global Instance result_bind : MBind result := λ A B k r,
  match r with
  | Val a => k a
  | Err e => Err e
  end.

(** A computation on the heap either returns or raises; in both cases the
    heap it leaves behind is part of the outcome. *)
Inductive outcome (A : Type) :=
  | Ok (a : A) (h : heap)
  | Raise (e : exn) (h : heap).
Arguments Ok {A} a h.
Arguments Raise {A} e h.

Definition M (A : Type) : Type := heap → outcome A.

Global Instance M_ret : MRet M := λ A a h, Ok a h.
Global Instance M_bind : MBind M := λ A B k m h,
  match m h with
  | Ok a h' => k a h'
  | Raise e h' => Raise e h'
  end.

Definition raise {A} (e : exn) : M A := λ h, Raise e h.

Definition lift {A} (r : result A) : M A := λ h,
  match r with
  | Val a => Ok a h
  | Err e => Raise e h
  end.

Definition raised {A} (o : outcome A) : option exn :=
  match o with
  | Ok _ _ => None
  | Raise e _ => Some e
  end.

(** ** The built-in operations the class uses *)

Module Py.

(** A dictionary display [{...}]: a new object at an unused location. *)
Definition new_dict (d : dict) : M value := λ h,
  let l := fresh (dom h) in Ok (VRef l) (<[l := d]> h).

(** [o[key]] *)
Definition getitem (o : value) (key : string) : M value := λ h,
  match o with
  | VRef l =>
      match h !! l with
      | Some d =>
          match d !! key with
          | Some v => Ok v h
          | None => Raise KeyError h
          end
      | None => Raise TypeError h
      end
  | _ => Raise TypeError h
  end.

(** [o[key] = v] *)
Definition setitem (o : value) (key : string) (v : value) : M unit := λ h,
  match o with
  | VRef l =>
      match h !! l with
      | Some d => Ok () (<[l := <[key := v]> d]> h)
      | None => Raise TypeError h
      end
  | _ => Raise TypeError h
  end.

(** [float(n)] for an integer operand of a mixed product. *)
Definition float_of_int (z : Z) : result spec_float :=
  match F64.of_Z z with
  | S754_infinity _ => Err OverflowError
  | f => Val f
  end.

Definition Z_of_bool (b : bool) : Z := if b then 1 else 0.

Fixpoint repeat_string (n : nat) (s : string) : string :=
  match n with
  | O => ""
  | S n' => s +:+ repeat_string n' s
  end.

(** [x * y] on the values of the embedding; a dictionary has no product. *)
Definition mul (x y : value) : result value :=
  match x, y with
  | VInt a, VInt b => Val (VInt (a * b))
  | VInt a, VBool b => Val (VInt (a * Z_of_bool b))
  | VBool a, VInt b => Val (VInt (Z_of_bool a * b))
  | VBool a, VBool b => Val (VInt (Z_of_bool a * Z_of_bool b))
  | VFloat a, VFloat b => Val (VFloat (F64.mul a b))
  | VInt a, VFloat b => fa ← float_of_int a; Val (VFloat (F64.mul fa b))
  | VBool a, VFloat b => fa ← float_of_int (Z_of_bool a); Val (VFloat (F64.mul fa b))
  | VFloat a, VInt b => fb ← float_of_int b; Val (VFloat (F64.mul a fb))
  | VFloat a, VBool b => fb ← float_of_int (Z_of_bool b); Val (VFloat (F64.mul a fb))
  | VStr s, VInt n | VInt n, VStr s => Val (VStr (repeat_string (Z.to_nat n) s))
  | VStr s, VBool b | VBool b, VStr s =>
      Val (VStr (repeat_string (Z.to_nat (Z_of_bool b)) s))
  | _, _ => Err TypeError
  end.

(** Decimal integer literals as [int] reads them from a string: blanks
    around, an optional sign, digits with single underscores between them,
    and no more digits than the interpreter converts.  Among the code
    points below 256 the blanks are the tab, the line feed, the vertical
    tab, the form feed, the carriage return and the space, the next-line
    control (133) and the no-break space (160); the decimal digits are
    those of ASCII. *)
Definition is_blank (c : ascii) : bool :=
  let n := nat_of_ascii c in
  ((9 <=? n) && (n <=? 13) || (n =? 32) || (n =? 133) || (n =? 160))%nat.

Definition digit_of (c : ascii) : option Z :=
  let n := nat_of_ascii c in
  if ((48 <=? n) && (n <=? 57))%nat then Some (Z.of_nat n - 48) else None.

Fixpoint drop_blanks (s : string) : string :=
  match s with
  | String c s' => if is_blank c then drop_blanks s' else s
  | EmptyString => s
  end.

(** [digits acc after_digit s]: the digits of [s] appended to [acc];
    [after_digit] tells whether the previous character was a digit, which
    is where an underscore or the end of the literal may stand. *)
Fixpoint digits (acc : Z) (after_digit : bool) (s : string) : option Z :=
  match s with
  | EmptyString => if after_digit then Some acc else None
  | String c s' =>
      match digit_of c with
      | Some d => digits (10 * acc + d) true s'
      | None =>
          if after_digit then
            if Ascii.eqb c "_" then
              match s' with
              | String c' _ => if digit_of c' is Some _ then digits acc false s' else None
              | EmptyString => None
              end
            else if is_blank c then
              match drop_blanks s' with EmptyString => Some acc | _ => None end
            else None
          else None
      end
  end.

(** The limit of the interpreter on the digits of a decimal literal
    ([sys.int_info.default_max_str_digits]); leading zeros count. *)
Definition max_str_digits : Z := 4300.

Fixpoint count_digits (s : string) : Z :=
  match s with
  | String c s' => ((if digit_of c is Some _ then 1 else 0) + count_digits s')%Z
  | EmptyString => 0%Z
  end.

Definition int_of_string (s : string) : option Z :=
  if (max_str_digits <? count_digits s)%Z then None
  else
    match drop_blanks s with
    | String "-" s' => Z.opp <$> digits 0 false s'
    | String "+" s' => digits 0 false s'
    | s' => digits 0 false s'
    end.

(** [int(x)] *)
Definition int (x : value) : result value :=
  match x with
  | VInt z => Val (VInt z)
  | VBool b => Val (VInt (Z_of_bool b))
  | VFloat (S754_infinity _) => Err OverflowError
  | VFloat S754_nan => Err ValueError
  | VFloat f => Val (VInt (F64.trunc f))
  | VStr s =>
      match int_of_string s with
      | Some z => Val (VInt z)
      | None => Err ValueError
      end
  | VNone | VRef _ => Err TypeError
  end.

End Py.

(** ** The figure

    The figure belongs to the plotting library.  [standardize] uses four of
    its capabilities: updating every vertical axis, updating every horizontal
    axis, updating the layout, and walking over the annotations of the layout
    to assign a property of each.  A figure is modelled by what these calls
    reach: each axis, the layout and each annotation is a bag of properties,
    named as the calls name them.

    What becomes of a value handed to the library is the library's business.
    It checks the value and raises an error when it rejects it (a font size
    below 1, say); it converts it (the name of a template becomes the
    template registered under that name); an update merges a dictionary into
    the property that is there and keeps the entries the dictionary does not
    name, where an item assignment replaces the property.  So the library is
    a parameter: the class [Library] says what a figure keeps of a property
    and gives the two ways of setting one.  Both look at the value in the
    heap of the call, a dictionary being taken by its contents at that time,
    and neither writes to the heap. *)

(** The parts of a figure that [standardize] sets properties of. *)
Inductive part := y_axis | x_axis | the_layout | an_annotation.

Class Library := {
  (** What a figure keeps of a property. *)
  stored : Type;
  (** [obj.update(key=v)]: the property [key] after the update, from the
      value handed over and from what the property was (nothing, when it
      was not set); an error when the library rejects the value. *)
  updated : part → string → heap → value → option stored → result stored;
  (** [obj[key] = v]: the property [key] after the assignment. *)
  assigned : part → string → heap → value → result stored
}.

Abbreviation props := (gmap string stored).

Record layout `{Library} := Layout {
  layout_props : props;
  layout_annotations : option (list props)
}.

Record figure `{Library} := Figure {
  fig_yaxes : list props;
  fig_xaxes : list props;
  fig_layout : layout
}.

Arguments Layout {_} _ _.
Arguments Figure {_} _ _ _.

Module Fig.

Section Fig.

Context `{Library}.

(** [obj.update] with keyword arguments, on one part of the figure: the
    properties are set one after the other, in the order of the arguments. *)
Fixpoint update (o : part) (kwargs : list (string * value)) (h : heap) (p : props)
    : result props :=
  match kwargs with
  | [] => mret p
  | (k, v) :: rest =>
      s ← updated o k h v (p !! k);
      update o rest h (<[k := s]> p)
  end.

(** The same update on every part of a kind, in their order. *)
Fixpoint update_each (o : part) (kwargs : list (string * value)) (h : heap)
    (ps : list props) : result (list props) :=
  match ps with
  | [] => mret []
  | p :: rest =>
      p' ← update o kwargs h p;
      rest' ← update_each o kwargs h rest;
      mret (p' :: rest')
  end.

Definition update_yaxes (fig : figure) (kwargs : list (string * value)) : M figure := λ h,
  lift (yaxes ← update_each y_axis kwargs h (fig_yaxes fig);
        mret (Figure yaxes (fig_xaxes fig) (fig_layout fig))) h.

Definition update_xaxes (fig : figure) (kwargs : list (string * value)) : M figure := λ h,
  lift (xaxes ← update_each x_axis kwargs h (fig_xaxes fig);
        mret (Figure (fig_yaxes fig) xaxes (fig_layout fig))) h.

Definition update_layout (fig : figure) (kwargs : list (string * value)) : M figure := λ h,
  let lay := fig_layout fig in
  lift (p ← update the_layout kwargs h (layout_props lay);
        mret (Figure (fig_yaxes fig) (fig_xaxes fig)
                (Layout p (layout_annotations lay)))) h.

(** [annotation[key] = v] *)
Definition annotation_setitem (a : props) (key : string) (v : value) : M props := λ h,
  lift (s ← assigned an_annotation key h v; mret (<[key := s]> a)) h.

End Fig.

End Fig.

(** ** The class *)

Module PlotlyFormatter.

(** An instance: its attributes by name. *)
Abbreviation obj := (gmap string value).

Definition getattr (self : obj) (name : string) : M value :=
  match self !! name with
  | Some v => mret v
  | None => raise AttributeError
  end.

Definition default_font : dict :=
  {[ "family" := VStr "Arial"; "color" := VStr "black" ]}.

Definition default_title_font : dict :=
  <["size" := VInt 24]> default_font.

(** The [defaults] display of [__init__], in the order of its entries; its
    five font dictionaries are created anew by each call. *)
Definition defaults : M (list (string * value)) :=
  title_font ← Py.new_dict default_title_font;
  subtitle_font ← Py.new_dict default_font;
  axis_title_font ← Py.new_dict default_font;
  tick_font ← Py.new_dict default_font;
  legend_font ← Py.new_dict default_font;
  mret [ ("title_font", title_font);
         ("subtitle_font", subtitle_font);
         ("subtitle_ratio", VFloat F64.lit_0_95);
         ("axis_title_font", axis_title_font);
         ("axis_title_ratio", VFloat F64.lit_0_9);
         ("tick_font", tick_font);
         ("tick_font_ratio", VFloat F64.lit_0_9);
         ("legend_font", legend_font);
         ("legend_font_ratio", VFloat F64.lit_0_9);
         ("showgrid", VBool true);
         ("gridcolor", VStr "LightGray");
         ("gridwidth", VInt 1);
         ("template", VStr "simple_white");
         ("title_x", VFloat F64.lit_0_5);
         ("width", VInt 3200);
         ("height", VInt 800) ].

(** [for key, value in defaults.items(): setattr(self, key, kwargs.get(key, value))] *)
Definition set_attrs (kwargs : gmap string value) (defs : list (string * value))
    (self : obj) : obj :=
  foldl (λ self kv, <[kv.1 := default kv.2 (kwargs !! kv.1)]> self) self defs.

(** [self.<target>["size"] = int(self.<base>["size"] * self.<ratio>)]: the
    right-hand side is evaluated first, then the target, then the store. *)
Definition derive_size (self : obj) (target base ratio : string) : M unit :=
  b ← getattr self base;
  s ← Py.getitem b "size";
  r ← getattr self ratio;
  p ← lift (Py.mul s r);
  n ← lift (Py.int p);
  t ← getattr self target;
  Py.setitem t "size" n.

Definition __init__ (kwargs : gmap string value) : M obj :=
  defs ← defaults;
  let self := set_attrs kwargs defs ∅ in
  derive_size self "subtitle_font" "title_font" "subtitle_ratio";;
  derive_size self "axis_title_font" "title_font" "axis_title_ratio";;
  derive_size self "tick_font" "axis_title_font" "tick_font_ratio";;
  derive_size self "legend_font" "title_font" "legend_font_ratio";;
  mret self.

Section Standardize.

Context `{Library}.

(** [for annotation in annotations: annotation['font'] = self.subtitle_font] *)
Fixpoint set_annotation_fonts (self : obj) (annotations : list props) : M (list props) :=
  match annotations with
  | [] => mret []
  | a :: rest =>
      f ← getattr self "subtitle_font";
      a' ← Fig.annotation_setitem a "font" f;
      rest' ← set_annotation_fonts self rest;
      mret (a' :: rest')
  end.

Definition standardize (self : obj) (fig : figure) : M figure :=
  (* y axes *)
  title_font ← getattr self "axis_title_font";
  tickfont ← getattr self "tick_font";
  showgrid ← getattr self "showgrid";
  gridcolor ← getattr self "gridcolor";
  gridwidth ← getattr self "gridwidth";
  fig ← Fig.update_yaxes fig
    [ ("title_font", title_font); ("tickfont", tickfont); ("showgrid", showgrid);
      ("gridcolor", gridcolor); ("gridwidth", gridwidth) ];
  (* x axes *)
  title_font ← getattr self "axis_title_font";
  tickfont ← getattr self "tick_font";
  showgrid ← getattr self "showgrid";
  gridcolor ← getattr self "gridcolor";
  gridwidth ← getattr self "gridwidth";
  fig ← Fig.update_xaxes fig
    [ ("title_font", title_font); ("tickfont", tickfont); ("showgrid", showgrid);
      ("gridcolor", gridcolor); ("gridwidth", gridwidth) ];
  (* layout; [title_x] is not passed on *)
  title_font ← getattr self "title_font";
  legend_font ← getattr self "legend_font";
  template ← getattr self "template";
  height ← getattr self "height";
  width ← getattr self "width";
  fig ← Fig.update_layout fig
    [ ("title_font", title_font); ("legend_font", legend_font); ("template", template);
      ("height", height); ("width", width) ];
  (* annotations *)
  match layout_annotations (fig_layout fig) with
  | Some annotations =>
      annotations' ← set_annotation_fonts self annotations;
      mret (Figure (fig_yaxes fig) (fig_xaxes fig)
              (Layout (layout_props (fig_layout fig)) (Some annotations')))
  | None => mret fig
  end.

End Standardize.

(** Observations on an instance: the dictionary behind a font attribute
    and the value of [self.<name>["size"]]. *)
Definition font (self : obj) (h : heap) (name : string) : option dict :=
  match self !! name with
  | Some (VRef l) => h !! l
  | _ => None
  end.

Definition font_size (self : obj) (h : heap) (name : string) : option value :=
  d ← font self h name; d !! "size".

End PlotlyFormatter.

(** * Vocabulary of the statements *)

Import PlotlyFormatter.

(** ** Options and defaults *)

(** The keys the constructor recognizes, in the order of [defaults]. *)
Definition recognized : list string :=
  [ "title_font"; "subtitle_font"; "subtitle_ratio"; "axis_title_font";
    "axis_title_ratio"; "tick_font"; "tick_font_ratio"; "legend_font";
    "legend_font_ratio"; "showgrid"; "gridcolor"; "gridwidth"; "template";
    "title_x"; "width"; "height" ].

(** The font options whose size the constructor derives, and all the font
    options. *)
Definition derived_fonts : list string :=
  [ "subtitle_font"; "axis_title_font"; "tick_font"; "legend_font" ].

Definition fonts : list string := "title_font" :: derived_fonts.

Definition ratios : list string :=
  [ "subtitle_ratio"; "axis_title_ratio"; "tick_font_ratio"; "legend_font_ratio" ].

(** The entries of [defaults] once its five dictionaries are created. *)
Definition entries (title_font subtitle_font axis_title_font tick_font legend_font : value)
    : list (string * value) :=
  [ ("title_font", title_font);
    ("subtitle_font", subtitle_font);
    ("subtitle_ratio", VFloat F64.lit_0_95);
    ("axis_title_font", axis_title_font);
    ("axis_title_ratio", VFloat F64.lit_0_9);
    ("tick_font", tick_font);
    ("tick_font_ratio", VFloat F64.lit_0_9);
    ("legend_font", legend_font);
    ("legend_font_ratio", VFloat F64.lit_0_9);
    ("showgrid", VBool true);
    ("gridcolor", VStr "LightGray");
    ("gridwidth", VInt 1);
    ("template", VStr "simple_white");
    ("title_x", VFloat F64.lit_0_5);
    ("width", VInt 3200);
    ("height", VInt 800) ].

(** The heap after [defaults]: five new dictionaries next to what was there. *)
Definition with_defaults (lt ls la lk ll : loc) (h : heap) : heap :=
  <[ll := default_font]> (<[lk := default_font]> (<[la := default_font]>
    (<[ls := default_font]> (<[lt := default_title_font]> h)))).

(** ** Size assignments *)

(** The value the constructor stores for a base size [s] and a ratio [r]:
    [int(s * r)]. *)
Definition derived (s r : value) : result value :=
  p ← Py.mul s r; Py.int p.

(** One size assignment of [__init__], as a relation between the heap
    before and the heap after. *)
Definition derives (self : obj) (target base ratio : string) (h h' : heap) : Prop :=
  ∃ lb db s r n lt dt,
    self !! base = Some (VRef lb) ∧ h !! lb = Some db ∧ db !! "size" = Some s ∧
    self !! ratio = Some r ∧ derived s r = Val (VInt n) ∧
    self !! target = Some (VRef lt) ∧ h !! lt = Some dt ∧
    h' = <[lt := <["size" := VInt n]> dt]> h.

(** The four size assignments, which run once the attributes are set. *)
Definition derive_sizes (self : obj) : M unit :=
  derive_size self "subtitle_font" "title_font" "subtitle_ratio";;
  derive_size self "axis_title_font" "title_font" "axis_title_ratio";;
  derive_size self "tick_font" "axis_title_font" "tick_font_ratio";;
  derive_size self "legend_font" "title_font" "legend_font_ratio".

(** The same four, as a table: target font, base font, ratio. *)
Definition derivations : list (string * string * string) :=
  [ ("subtitle_font", "title_font", "subtitle_ratio");
    ("axis_title_font", "title_font", "axis_title_ratio");
    ("tick_font", "axis_title_font", "tick_font_ratio");
    ("legend_font", "title_font", "legend_font_ratio") ].

(** [d'] is [d] with an integer written to its [size] entry. *)
Definition resized (d d' : dict) : Prop := ∃ n : Z, d' = <["size" := VInt n]> d.

Definition kept_or_resized (d d' : dict) : Prop := d' = d ∨ resized d d'.

(** No two font attributes of the instance refer to the same dictionary. *)
Definition unshared (self : obj) : Prop :=
  ∃ lt ls la lk ll,
    self !! "title_font" = Some (VRef lt) ∧
    self !! "subtitle_font" = Some (VRef ls) ∧
    self !! "axis_title_font" = Some (VRef la) ∧
    self !! "tick_font" = Some (VRef lk) ∧
    self !! "legend_font" = Some (VRef ll) ∧
    NoDup [lt; ls; la; lk; ll].

(** [h2] is [h1], except perhaps that the [size] entry at [l] is [v]. *)
Definition differs_in_size (l : loc) (v : value) (h1 h2 : heap) : Prop :=
  h2 = h1 ∨ ∃ d1, h1 !! l = Some d1 ∧ h2 = <[l := <["size" := v]> d1]> h1.

(** ** Outcomes *)

(** The instance and the heap of an outcome. *)
Definition self_of (o : outcome obj) : obj :=
  match o with Ok self _ => self | Raise _ _ => ∅ end.

Definition heap_of (o : outcome obj) : heap :=
  match o with Ok _ h | Raise _ h => h end.

(** The figure an outcome of [standardize] returns. *)
Definition figure_of `{Library} (o : outcome figure) : option figure :=
  match o with Ok fig _ => Some fig | Raise _ _ => None end.

(** The five font sizes of a constructed instance, title font first. *)
Definition sizes_after (o : outcome obj) : option (list (option value)) :=
  match o with
  | Ok self h => Some (font_size self h <$> fonts)
  | Raise _ _ => None
  end.

(** ** [standardize], in pieces *)

(** The arguments of the two axis updates and those of the layout update,
    as [standardize] reads them off the instance; none when an attribute is
    missing. *)
Definition axis_args (self : obj) : option (list (string * value)) :=
  title_font ← self !! "axis_title_font";
  tickfont ← self !! "tick_font";
  showgrid ← self !! "showgrid";
  gridcolor ← self !! "gridcolor";
  gridwidth ← self !! "gridwidth";
  Some [ ("title_font", title_font); ("tickfont", tickfont); ("showgrid", showgrid);
         ("gridcolor", gridcolor); ("gridwidth", gridwidth) ].

Definition layout_args (self : obj) : option (list (string * value)) :=
  title_font ← self !! "title_font";
  legend_font ← self !! "legend_font";
  template ← self !! "template";
  height ← self !! "height";
  width ← self !! "width";
  Some [ ("title_font", title_font); ("legend_font", legend_font); ("template", template);
         ("height", height); ("width", width) ].

Definition set_font `{Library} (s : stored) (a : props) : props := <["font" := s]> a.

(** The last step of [standardize]. *)
Definition annotate `{Library} (self : obj) (fig : figure) : M figure :=
  match layout_annotations (fig_layout fig) with
  | Some annotations =>
      annotations' ← set_annotation_fonts self annotations;
      mret (Figure (fig_yaxes fig) (fig_xaxes fig)
              (Layout (layout_props (fig_layout fig)) (Some annotations')))
  | None => mret fig
  end.

(** [fig'] is [fig] after the three update calls with the arguments [axes]
    and [lay]. *)
Definition restyled `{Library} (axes lay : list (string * value)) (h : heap)
    (fig : figure) : result figure :=
  yaxes ← Fig.update_each y_axis axes h (fig_yaxes fig);
  xaxes ← Fig.update_each x_axis axes h (fig_xaxes fig);
  p ← Fig.update the_layout lay h (layout_props (fig_layout fig));
  mret (Figure yaxes xaxes (Layout p (layout_annotations (fig_layout fig)))).

(** [p'] is [p] styled with [args]: every property the arguments name is
    in [p'] what the library makes of it, from the value of the argument
    and from what the property is in [p]. *)
Definition styled `{Library} (o : part) (h : heap) (args : list (string * value))
    (p p' : props) : Prop :=
  ∀ k v, (k, v) ∈ args → ∃ s, updated o k h v (p !! k) = Val s ∧ p' !! k = Some s.

(** A library whose updates can be repeated: an update that has made [s] of
    a property makes [s] of it again.  So it is when an update merges what
    it is handed into what is there, or replaces it. *)
Definition idempotent_updates `{Library} : Prop :=
  ∀ o k h v old s, updated o k h v old = Val s → updated o k h v (Some s) = Val s.

(** ** A library for the examples

    A small library in the manner of the plotting library.  A font is kept
    by its entries, of which it knows [size], a number not below 1,
    [family], a string that is not empty, and [color], a string; the font
    of an update is merged into the font that is there, an assigned font
    replaces it.  A template is kept as the template registered under the
    name given.  The grid width is a number not below 0, height and width
    are numbers not below 10. *)

Module Sample.

Inductive kept :=
  | Leaf (v : value)
  | Font (d : dict)
  | Template (name : string).

Definition at_least (z : Z) (v : value) : bool :=
  match v with
  | VInt n => (z <=? n)%Z
  | VFloat f => SFleb (F64.of_Z z) f
  | _ => false
  end.

Definition font_entry (kv : string * value) : bool :=
  if decide (kv.1 = "size") then at_least 1 kv.2
  else if decide (kv.1 = "family") then
    match kv.2 with VStr s => negb (bool_decide (s = "")) | _ => false end
  else if decide (kv.1 = "color") then
    match kv.2 with VStr _ => true | _ => false end
  else false.

Definition font_of (h : heap) (v : value) : result dict :=
  match v with
  | VRef l =>
      match h !! l with
      | Some d => if forallb font_entry (map_to_list d) then Val d else Err ValueError
      | None => Err ValueError
      end
  | _ => Err ValueError
  end.

Definition templates : list string :=
  [ "ggplot2"; "seaborn"; "simple_white"; "plotly"; "plotly_white"; "plotly_dark";
    "presentation"; "xgridoff"; "ygridoff"; "gridon"; "none" ].

Definition leaf_of (key : string) (v : value) : result kept :=
  if decide (key = "template") then
    match v with
    | VStr name => if bool_decide (name ∈ templates) then Val (Template name) else Err ValueError
    | _ => Err ValueError
    end
  else if decide (key = "showgrid") then
    match v with VBool _ => Val (Leaf v) | _ => Err ValueError end
  else if decide (key = "gridcolor") then
    match v with VStr _ => Val (Leaf v) | _ => Err ValueError end
  else if decide (key = "gridwidth") then
    if at_least 0 v then Val (Leaf v) else Err ValueError
  else if decide (key = "height" ∨ key = "width") then
    if at_least 10 v then Val (Leaf v) else Err ValueError
  else Err ValueError.

Definition is_font (key : string) : Prop :=
  key = "title_font" ∨ key = "tickfont" ∨ key = "legend_font" ∨ key = "font".

Definition font_there (old : option kept) : dict :=
  match old with
  | Some (Font d) => d
  | _ => ∅
  end.

Definition update (o : part) (key : string) (h : heap) (v : value) (old : option kept)
    : result kept :=
  if decide (is_font key) then d ← font_of h v; Val (Font (d ∪ font_there old))
  else leaf_of key v.

Definition assign (o : part) (key : string) (h : heap) (v : value) : result kept :=
  if decide (is_font key) then d ← font_of h v; Val (Font d)
  else leaf_of key v.

Definition library : Library :=
  {| stored := kept; updated := update; assigned := assign |}.

End Sample.

(** ** Concrete inputs *)

(** The instance built from no options, on an empty heap. *)
Definition default_instance : outcome obj := Eval vm_compute in __init__ ∅ ∅.

Definition default_self : obj := self_of default_instance.

Definition default_heap : heap := heap_of default_instance.

(** A negative half, for a ratio below zero. *)
Definition minus_half : spec_float := SFopp F64.lit_0_5.

(** A title font of size 25 at location 1. *)
Definition heap_title_25 : heap :=
  {[ 1%positive := {[ "size" := VInt 25; "family" := VStr "Arial"; "color" := VStr "black" ]} ]}.

(** A title font given as [{size: 30}], at location 1. *)
Definition heap_title_30 : heap := {[ 1%positive := {[ "size" := VInt 30 ]} ]}.

(** A font without size at location 1. *)
Definition heap_plain_font : heap :=
  {[ 1%positive := {[ "family" := VStr "Courier"; "color" := VStr "black" ]} ]}.

(** A font with a size of its own, at location 1. *)
Definition supplied_font : dict :=
  {[ "size" := VInt 99; "family" := VStr "Courier" ]}.

Definition heap_supplied_font : heap := {[ 1%positive := supplied_font ]}.

(** A figure of the sample library with one axis each way, the vertical
    one with an italic title, and two annotations, one of them with a font
    of its own. *)
Definition sample_annotations : list (gmap string Sample.kept) :=
  [ {[ "text" := Sample.Leaf (VStr "first") ]};
    {[ "text" := Sample.Leaf (VStr "second");
       "font" := Sample.Font {[ "size" := VInt 9; "style" := VStr "italic" ]} ]} ].

Definition sample_figure : @figure Sample.library :=
  Figure (H := Sample.library)
    [ {[ "showgrid" := Sample.Leaf (VBool false);
         "title_font" := Sample.Font {[ "style" := VStr "italic" ]} ]} ]
    [ ∅ ]
    (Layout (H := Sample.library)
       {[ "width" := Sample.Leaf (VInt 640); "title_x" := Sample.Leaf (VFloat F64.lit_0_9) ]}
       (Some sample_annotations)).

(** The title font of the vertical axis of the sample figure once the
    default axis-title font is merged into it: the italic style is still
    there. *)
Definition italic_axis_title : dict :=
  {[ "size" := VInt 21; "family" := VStr "Arial"; "color" := VStr "black";
     "style" := VStr "italic" ]}.

(** The default subtitle font. *)
Definition default_subtitle : dict :=
  {[ "size" := VInt 22; "family" := VStr "Arial"; "color" := VStr "black" ]}.

(** A figure without annotations. *)
Definition bare_figure : @figure Sample.library :=
  Figure (H := Sample.library) [ ∅ ] [ ∅ ] (Layout (H := Sample.library) ∅ (Some [])).

(** ** Attributes by use *)

(** The attributes [standardize] passes to the axis updates and to the
    layout update, and all the attributes it reads. *)
Definition axis_attrs : list string :=
  [ "axis_title_font"; "tick_font"; "showgrid"; "gridcolor"; "gridwidth" ].

Definition layout_attrs : list string :=
  [ "title_font"; "legend_font"; "template"; "height"; "width" ].

Definition style_attrs : list string :=
  (axis_attrs ++ layout_attrs ++ [ "subtitle_font" ])%list.

(** The properties an axis update and the layout update set. *)
Definition axis_keys : list string :=
  [ "title_font"; "tickfont"; "showgrid"; "gridcolor"; "gridwidth" ].

Definition layout_keys : list string :=
  [ "title_font"; "legend_font"; "template"; "height"; "width" ].

(** Ratios no size can be derived from: [None], an infinite float, a NaN. *)
Definition bad_ratio (r : value) : Prop :=
  match r with
  | VNone | VFloat (S754_infinity _) | VFloat S754_nan => True
  | _ => False
  end.

(** Every dictionary of [h] is still in [h'], as it was or with an integer
    written to its [size] entry. *)
Definition evolved (h h' : heap) : Prop :=
  ∀ l d, h !! l = Some d → ∃ d', h' !! l = Some d' ∧ kept_or_resized d d'.

(** A subtitle font supplied with a legend font that is no dictionary. *)
Definition kwargs_bad_legend : gmap string value :=
  {[ "subtitle_font" := VRef 1%positive; "legend_font" := VNone ]}.

(** The error a supplied title font leads to: [TypeError] when it is no
    dictionary, [KeyError] when it is a dictionary without [size]. *)
Definition title_error (h : heap) (v : value) : option exn :=
  match v with
  | VRef l =>
      match h !! l with
      | Some d => if d !! "size" is Some _ then None else Some KeyError
      | None => None
      end
  | _ => Some TypeError
  end.

(** A title font whose size is the float 24.5, at location 1. *)
Definition heap_title_float : heap :=
  {[ 1%positive := {[ "size" := VFloat (F64.div (F64.of_Z 49) (F64.of_Z 2)) ]} ]}.

(** ** Reading the options *)

(** The dictionary a font option stands for: the one supplied, or the
    default of that option; none when what is supplied is no dictionary. *)
Definition font_option (kwargs : gmap string value) (h : heap) (k : string) (dflt : dict)
    : option dict :=
  match kwargs !! k with
  | Some (VRef l) => h !! l
  | Some _ => None
  | None => Some dflt
  end.

(** Every reference among the options refers to a dictionary of the heap. *)
Definition options_in (kwargs : gmap string value) (h : heap) : Prop :=
  ∀ k l, kwargs !! k = Some (VRef l) → is_Some (h !! l).

(** The ratio an option stands for: the one supplied, or the default of
    that option. *)
Definition ratio_option (kwargs : gmap string value) (k : string) (dflt : spec_float)
    : value :=
  default (VFloat dflt) (kwargs !! k).

(** Numbers: integers, booleans and floats. *)
Definition number (v : value) : Prop :=
  match v with
  | VInt _ | VBool _ | VFloat _ => True
  | _ => False
  end.

(** The ratios that are supplied and the size of a title font that is
    supplied are numbers. *)
Definition sizes_are_numbers (kwargs : gmap string value) (h : heap) : Prop :=
  (∀ k v, k ∈ ratios → kwargs !! k = Some v → number v) ∧
  (∀ l d s, kwargs !! "title_font" = Some (VRef l) → h !! l = Some d →
            d !! "size" = Some s → number s).

(** The four sizes can be derived from the options: every font option is
    absent or a dictionary, the title font has a size, and the four values
    [int(size * ratio)] are defined, the tick size from the axis-title
    size. *)
Definition derivable (kwargs : gmap string value) (h : heap) : Prop :=
  ∃ dt s n1 n2 n3 n4,
    font_option kwargs h "title_font" default_title_font = Some dt ∧
    (∀ k, k ∈ derived_fonts → is_Some (font_option kwargs h k default_font)) ∧
    dt !! "size" = Some s ∧
    derived s (ratio_option kwargs "subtitle_ratio" F64.lit_0_95) = Val (VInt n1) ∧
    derived s (ratio_option kwargs "axis_title_ratio" F64.lit_0_9) = Val (VInt n2) ∧
    derived (VInt n2) (ratio_option kwargs "tick_font_ratio" F64.lit_0_9) = Val (VInt n3) ∧
    derived s (ratio_option kwargs "legend_font_ratio" F64.lit_0_9) = Val (VInt n4).

(** No dictionary is supplied for two font options. *)
Definition fonts_apart (kwargs : gmap string value) : Prop :=
  ∀ k1 k2 l, k1 ∈ fonts → k2 ∈ fonts → k1 ≠ k2 →
             kwargs !! k1 = Some (VRef l) → kwargs !! k2 ≠ Some (VRef l).

(** Two fonts supplied with sizes of their own and a ratio after them. *)
Definition heap_two_fonts : heap :=
  {[ 1%positive := {[ "size" := VInt 40; "family" := VStr "Times" ]};
     2%positive := {[ "size" := VInt 7; "color" := VStr "navy" ]} ]}.

Definition kwargs_two_fonts : gmap string value :=
  {[ "title_font" := VRef 1%positive; "tick_font" := VRef 2%positive;
     "tick_font_ratio" := VFloat F64.lit_0_5 ]}.

(** * Properties *)


(** ** Running computations *)

Lemma bind_Ok {A B} (m : M A) (k : A → M B) h b h' :
  (m ≫= k) h = Ok b h' ↔ ∃ a h1, m h = Ok a h1 ∧ k a h1 = Ok b h'.
Proof.
  unfold mbind, M_bind. split.
  - destruct (m h) as [a h1|e h1]; [eauto | discriminate].
  - intros (a & h1 & -> & Hk). exact Hk.
Qed.

Lemma lift_Ok {A} (r : result A) h a h' :
  lift r h = Ok a h' ↔ r = Val a ∧ h' = h.
Proof.
  unfold lift. destruct r; split; try discriminate.
  - by intros [= -> ->].
  - by intros [[= ->] ->].
  - by intros [? _].
Qed.

Lemma getattr_Ok (self : obj) name h v h' :
  getattr self name h = Ok v h' ↔ self !! name = Some v ∧ h' = h.
Proof.
  unfold getattr, mret, M_ret, raise. destruct (self !! name); split; try discriminate.
  - by intros [= -> ->].
  - by intros [[= ->] ->].
  - by intros [? _].
Qed.

Lemma getattr_run (self : obj) name v h :
  self !! name = Some v → getattr self name h = Ok v h.
Proof. intros. by apply getattr_Ok. Qed.

Lemma getitem_Ok o key h v h' :
  Py.getitem o key h = Ok v h' ↔
  ∃ l d, o = VRef l ∧ h !! l = Some d ∧ d !! key = Some v ∧ h' = h.
Proof.
  unfold Py.getitem. split.
  - destruct o; try discriminate.
    destruct (h !! l) as [d|] eqn:Hl; [|discriminate].
    destruct (d !! key) eqn:Hk; [|discriminate].
    intros [= -> ->]. eauto 10.
  - intros (l & d & -> & -> & -> & ->). done.
Qed.

Lemma setitem_Ok o key v h h' :
  Py.setitem o key v h = Ok () h' ↔
  ∃ l d, o = VRef l ∧ h !! l = Some d ∧ h' = <[l := <[key := v]> d]> h.
Proof.
  unfold Py.setitem. split.
  - destruct o; try discriminate.
    destruct (h !! l) as [d|] eqn:Hl; [|discriminate].
    intros [= <-]. eauto.
  - intros (l & d & -> & -> & ->). done.
Qed.

(** An outcome that raises nothing is a returned instance on a heap. *)
Lemma Ok_self_heap (o : outcome obj) : raised o = None → o = Ok (self_of o) (heap_of o).
Proof. by destruct o. Qed.

Lemma derived_fonts_fonts k : k ∈ derived_fonts → k ∈ fonts.
Proof. intros H. unfold fonts. apply elem_of_cons. by right. Qed.

Lemma fonts_recognized k : k ∈ fonts → k ∈ recognized.
Proof.
  intros H%list_elem_of_In. apply list_elem_of_In.
  simpl in *. tauto.
Qed.

Lemma derived_fonts_recognized k : k ∈ derived_fonts → k ∈ recognized.
Proof. intros H. by apply fonts_recognized, derived_fonts_fonts. Qed.

(** ** Products and their truncation *)

(** The float literals are the decimal fractions they stand for, correctly
    rounded. *)
Lemma literals_rounded :
  F64.lit_0_95 = F64.div (F64.of_Z 95) (F64.of_Z 100) ∧
  F64.lit_0_9 = F64.div (F64.of_Z 9) (F64.of_Z 10) ∧
  F64.lit_0_5 = F64.div (F64.of_Z 1) (F64.of_Z 2).
Proof. vm_compute. repeat split; reflexivity. Qed.


Lemma int_Val p v : Py.int p = Val v → ∃ n, v = VInt n.
Proof.
  destruct p as [| | |f|s|]; simpl; try discriminate.
  - intros [= <-]; eauto.
  - intros [= <-]; eauto.
  - destruct f; try discriminate; intros [= <-]; eauto.
  - destruct (Py.int_of_string s); [intros [= <-]; eauto | discriminate].
Qed.

Lemma derived_Val s r v : derived s r = Val v → ∃ n, v = VInt n.
Proof.
  unfold derived, mbind, result_bind.
  destruct (Py.mul s r); [apply int_Val | discriminate].
Qed.

(** For an integer size and a float ratio the stored value is the product
    of [float(s)] and [r], rounded toward zero. *)
Lemma derived_int_float s r v :
  derived (VInt s) (VFloat r) = Val v →
  v = VInt (F64.trunc (F64.mul (F64.of_Z s) r)).
Proof.
  unfold derived, Py.mul, Py.float_of_int, mbind, result_bind.
  destruct (F64.of_Z s) as [b|b| |b m e] eqn:Hs; try discriminate;
    unfold Py.int;
    match goal with |- context [F64.mul ?x r] => generalize (F64.mul x r) end;
    intros [] ?; simplify_eq; reflexivity.
Qed.

(** Truncation and floor agree unless the product is negative. *)
Lemma trunc_floor x : F64.is_negative x = false → F64.trunc x = F64.floor x.
Proof. by destruct x as [| | |[] m e]. Qed.


Lemma bind_run {A B} (m : M A) (k : A → M B) h a h1 :
  m h = Ok a h1 → (m ≫= k) h = k a h1.
Proof. unfold mbind, M_bind. by intros ->. Qed.

Lemma derived_inv s r v :
  derived s r = Val v ↔ ∃ p, Py.mul s r = Val p ∧ Py.int p = Val v.
Proof.
  unfold derived, mbind, result_bind. split.
  - destruct (Py.mul s r); [eauto | discriminate].
  - by intros (p & -> & ->).
Qed.

(** ** The constructor *)


Lemma derive_size_Ok self target base ratio h h' :
  derive_size self target base ratio h = Ok () h' ↔
  derives self target base ratio h h'.
Proof.
  unfold derive_size, derives. split.
  - intros H.
    apply bind_Ok in H as (b & ? & [Hb ->]%getattr_Ok & H).
    apply bind_Ok in H as (s & ? & (lb & db & -> & Hlb & Hs & ->)%getitem_Ok & H).
    apply bind_Ok in H as (r & ? & [Hr ->]%getattr_Ok & H).
    apply bind_Ok in H as (p & ? & [Hp ->]%lift_Ok & H).
    apply bind_Ok in H as (n & ? & [Hn ->]%lift_Ok & H).
    apply bind_Ok in H as (t & ? & [Ht ->]%getattr_Ok & H).
    apply setitem_Ok in H as (lt & dt & -> & Hlt & ->).
    destruct (int_Val _ _ Hn) as [z ->].
    exists lb, db, s, r, z, lt, dt. repeat split; try done.
    apply derived_inv. eauto.
  - intros (lb & db & s & r & n & lt & dt & Hb & Hlb & Hs & Hr & Hd & Ht & Hlt & ->).
    apply derived_inv in Hd as (p & Hp & Hn).
    erewrite bind_run by by apply getattr_run.
    erewrite bind_run by (apply getitem_Ok; eauto 10).
    erewrite bind_run by by apply getattr_run.
    erewrite bind_run by by apply lift_Ok.
    erewrite bind_run by by apply lift_Ok.
    erewrite bind_run by by apply getattr_run.
    apply setitem_Ok; eauto.
Qed.



Lemma entries_keys tf sf af kf lf : (entries tf sf af kf lf).*1 = recognized.
Proof. reflexivity. Qed.

Lemma recognized_NoDup : NoDup recognized.
Proof. by apply (bool_decide_unpack _). Qed.

Lemma new_dict_Ok d h :
  ∃ l, h !! l = None ∧ Py.new_dict d h = Ok (VRef l) (<[l := d]> h).
Proof.
  exists (fresh (dom h)). split; [|done].
  apply not_elem_of_dom, is_fresh.
Qed.


Lemma defaults_Ok h :
  ∃ lt ls la lk ll,
    NoDup [lt; ls; la; lk; ll] ∧
    Forall (λ l, h !! l = None) [lt; ls; la; lk; ll] ∧
    defaults h =
      Ok (entries (VRef lt) (VRef ls) (VRef la) (VRef lk) (VRef ll))
         (with_defaults lt ls la lk ll h).
Proof.
  unfold defaults, with_defaults.
  destruct (new_dict_Ok default_title_font h) as (lt & Ht & Et).
  destruct (new_dict_Ok default_font (<[lt := default_title_font]> h)) as (ls & Hs & Es).
  destruct (new_dict_Ok default_font (<[ls := default_font]> (<[lt := default_title_font]> h)))
    as (la & Ha & Ea).
  destruct (new_dict_Ok default_font
              (<[la := default_font]> (<[ls := default_font]> (<[lt := default_title_font]> h))))
    as (lk & Hk & Ek).
  destruct (new_dict_Ok default_font
              (<[lk := default_font]> (<[la := default_font]> (<[ls := default_font]>
                 (<[lt := default_title_font]> h)))))
    as (ll & Hl & El).
  exists lt, ls, la, lk, ll.
  repeat (match goal with H : <[_ := _]> _ !! _ = None |- _ =>
            apply lookup_insert_None in H as [H ?] end).
  split; [|split].
  - repeat (apply NoDup_cons; split; [set_solver|]). apply NoDup_nil_2.
  - repeat (apply Forall_cons; split; [done|]). apply Forall_nil_2.
  - rewrite (bind_run _ _ _ _ _ Et), (bind_run _ _ _ _ _ Es), (bind_run _ _ _ _ _ Ea),
      (bind_run _ _ _ _ _ Ek), (bind_run _ _ _ _ _ El). reflexivity.
Qed.

(** ** Resolving the options *)

Lemma set_attrs_lookup kwargs defs (self : obj) k :
  NoDup defs.*1 →
  set_attrs kwargs defs self !! k =
    match (list_to_map defs : gmap string value) !! k with
    | Some v => Some (default v (kwargs !! k))
    | None => self !! k
    end.
Proof.
  unfold set_attrs. revert self.
  induction defs as [|[k0 v0] defs IH]; intros self Hnd; simpl.
  - by rewrite lookup_empty.
  - apply NoDup_cons in Hnd as [Hk0 Hnd]. rewrite IH by done.
    destruct (decide (k = k0)) as [->|Hne].
    + rewrite lookup_insert_eq.
      rewrite (not_elem_of_list_to_map_1 defs k0 Hk0). by rewrite lookup_insert_eq.
    + rewrite !(lookup_insert_ne _ k0 k) by done. reflexivity.
Qed.

(** A key that [defaults] does not list is never looked up. *)
Lemma set_attrs_unrecognized kwargs defs self k v :
  k ∉ defs.*1 →
  set_attrs (<[k := v]> kwargs) defs self = set_attrs kwargs defs self.
Proof.
  unfold set_attrs. revert self.
  induction defs as [|[k0 v0] defs IH]; intros self Hk; simpl; [done|].
  apply not_elem_of_cons in Hk as [Hne Hk].
  rewrite lookup_insert_ne by done. by apply IH.
Qed.

Lemma set_attrs_dom kwargs defs (self : obj) :
  dom (set_attrs kwargs defs self) = list_to_set defs.*1 ∪ dom self.
Proof.
  unfold set_attrs. revert self.
  induction defs as [|[k0 v0] defs IH]; intros self; simpl; [set_solver|].
  rewrite IH, dom_insert_L. set_solver.
Qed.

(** ** Construction, step by step *)

Lemma init_Ok kwargs h self h' :
  __init__ kwargs h = Ok self h' ↔
  ∃ defs h0 h1 h2 h3,
    defaults h = Ok defs h0 ∧ self = set_attrs kwargs defs ∅ ∧
    derives self "subtitle_font" "title_font" "subtitle_ratio" h0 h1 ∧
    derives self "axis_title_font" "title_font" "axis_title_ratio" h1 h2 ∧
    derives self "tick_font" "axis_title_font" "tick_font_ratio" h2 h3 ∧
    derives self "legend_font" "title_font" "legend_font_ratio" h3 h'.
Proof.
  unfold __init__. split.
  - intros H.
    apply bind_Ok in H as (defs & h0 & Hd & H).
    apply bind_Ok in H as ([] & h1 & H1%derive_size_Ok & H).
    apply bind_Ok in H as ([] & h2 & H2%derive_size_Ok & H).
    apply bind_Ok in H as ([] & h3 & H3%derive_size_Ok & H).
    apply bind_Ok in H as ([] & h4 & H4%derive_size_Ok & H).
    injection H as <- <-. exists defs, h0, h1, h2, h3. done.
  - intros (defs & h0 & h1 & h2 & h3 & Hd & -> & H1 & H2 & H3 & H4).
    rewrite (bind_run _ _ _ _ _ Hd).
    apply derive_size_Ok in H1, H2, H3, H4.
    rewrite (bind_run _ _ _ _ _ H1), (bind_run _ _ _ _ _ H2),
      (bind_run _ _ _ _ _ H3), (bind_run _ _ _ _ _ H4). reflexivity.
Qed.

(** The attributes of a new instance: the supplied value, or the default. *)
Lemma set_attrs_entries kwargs tf sf af kf lf k v :
  (k, v) ∈ entries tf sf af kf lf →
  set_attrs kwargs (entries tf sf af kf lf) ∅ !! k = Some (default v (kwargs !! k)).
Proof.
  intros Hin. rewrite set_attrs_lookup by (rewrite entries_keys; apply recognized_NoDup).
  erewrite elem_of_list_to_map_1; [done| |done].
  rewrite entries_keys. apply recognized_NoDup.
Qed.

Lemma set_attrs_entries_None kwargs tf sf af kf lf k :
  k ∉ recognized → set_attrs kwargs (entries tf sf af kf lf) ∅ !! k = None.
Proof.
  intros Hk. rewrite set_attrs_lookup by (rewrite entries_keys; apply recognized_NoDup).
  rewrite (not_elem_of_list_to_map_1 (entries tf sf af kf lf) k); [done|].
  by rewrite entries_keys.
Qed.

Lemma NoDup_5 {A} (a b c d e : A) :
  NoDup [a; b; c; d; e] →
  a ≠ b ∧ a ≠ c ∧ a ≠ d ∧ a ≠ e ∧ b ≠ c ∧ b ≠ d ∧ b ≠ e ∧ c ≠ d ∧ c ≠ e ∧ d ≠ e.
Proof.
  rewrite !NoDup_cons, !not_elem_of_cons. naive_solver.
Qed.

Lemma with_defaults_lookup lt ls la lk ll h l d :
  Forall (λ l, h !! l = None) [lt; ls; la; lk; ll] →
  h !! l = Some d → with_defaults lt ls la lk ll h !! l = Some d.
Proof.
  intros Hf Hl. unfold with_defaults.
  rewrite !Forall_cons in Hf. destruct Hf as (? & ? & ? & ? & ? & _).
  rewrite !lookup_insert_ne by congruence. done.
Qed.

Lemma init_inv kwargs h self h' :
  __init__ kwargs h = Ok self h' →
  ∃ lt ls la lk ll h1 h2 h3,
    NoDup [lt; ls; la; lk; ll] ∧
    Forall (λ l, h !! l = None) [lt; ls; la; lk; ll] ∧
    self = set_attrs kwargs (entries (VRef lt) (VRef ls) (VRef la) (VRef lk) (VRef ll)) ∅ ∧
    derives self "subtitle_font" "title_font" "subtitle_ratio"
      (with_defaults lt ls la lk ll h) h1 ∧
    derives self "axis_title_font" "title_font" "axis_title_ratio" h1 h2 ∧
    derives self "tick_font" "axis_title_font" "tick_font_ratio" h2 h3 ∧
    derives self "legend_font" "title_font" "legend_font_ratio" h3 h'.
Proof.
  intros (defs & h0 & h1 & h2 & h3 & Hd & Hself & Hsteps)%init_Ok.
  destruct (defaults_Ok h) as (lt & ls & la & lk & ll & Hnd & Hfresh & Hd').
  rewrite Hd' in Hd. injection Hd as <- <-.
  exists lt, ls, la, lk, ll, h1, h2, h3. done.
Qed.

(** Every recognized attribute is set on a new instance, and nothing else. *)
Lemma init_dom kwargs h self h' :
  __init__ kwargs h = Ok self h' → dom self = list_to_set recognized.
Proof.
  intros (lt & ls & la & lk & ll & h1 & h2 & h3 & _ & _ & -> & _)%init_inv.
  rewrite set_attrs_dom, entries_keys. set_solver.
Qed.

(** ** What a size assignment changes *)



Lemma resized_resized d1 d2 d3 : resized d1 d2 → resized d2 d3 → resized d1 d3.
Proof. intros [n ->] [m ->]. exists m. by rewrite insert_insert_eq. Qed.

Lemma kept_or_resized_trans d1 d2 d3 :
  kept_or_resized d1 d2 → kept_or_resized d2 d3 → kept_or_resized d1 d3.
Proof.
  intros [->|H1] [->|H2]; [by left|by right|by right|].
  right. by eapply resized_resized.
Qed.

Lemma resized_then_kept d1 d2 d3 :
  resized d1 d2 → kept_or_resized d2 d3 → resized d1 d3.
Proof. intros H1 [->|H2]; [done|]. by eapply resized_resized. Qed.

Lemma kept_then_resized d1 d2 d3 :
  kept_or_resized d1 d2 → resized d2 d3 → resized d1 d3.
Proof. intros [->|H1] H2; [done|]. by eapply resized_resized. Qed.

Lemma resized_other_keys d d' key :
  kept_or_resized d d' → key ≠ "size" → d' !! key = d !! key.
Proof. intros [->|[n ->]] Hne; [done|]. by rewrite lookup_insert_ne. Qed.

Lemma dom_with_size (d : dict) : is_Some (d !! "size") → dom d ∪ {["size"]} = dom d.
Proof.
  intros H%elem_of_dom. rewrite (comm_L (∪)).
  apply subseteq_union_1_L. by apply singleton_subseteq_l.
Qed.

Lemma resized_dom d d' : resized d d' → dom d' = dom d ∪ {["size"]}.
Proof. intros [n ->]. rewrite dom_insert_L. set_solver. Qed.

(** A size assignment leaves every dictionary as it is, except that the
    target gets a new integer [size]. *)
Lemma derives_frame self target base ratio h h' l d :
  derives self target base ratio h h' →
  h !! l = Some d →
  ∃ d', h' !! l = Some d' ∧ kept_or_resized d d'.
Proof.
  intros (lb & db & s & r & n & lt & dt & _ & _ & _ & _ & _ & _ & Hlt & ->) Hl.
  destruct (decide (l = lt)) as [->|Hne].
  - rewrite lookup_insert_eq. simplify_eq. eexists; split; [done|]. right. by exists n.
  - rewrite lookup_insert_ne by done. eexists; split; [done|]. by left.
Qed.

Lemma derives_target self target base ratio h h' l d :
  derives self target base ratio h h' →
  self !! target = Some (VRef l) →
  h !! l = Some d →
  ∃ d', h' !! l = Some d' ∧ resized d d'.
Proof.
  intros (lb & db & s & r & n & lt & dt & _ & _ & _ & _ & _ & Ht & Hlt & ->) Ht' Hl.
  simplify_eq. rewrite lookup_insert_eq. eexists; split; [done|]. by exists n.
Qed.

Lemma derives_None self target base ratio h h' l :
  derives self target base ratio h h' → h !! l = None → h' !! l = None.
Proof.
  intros (lb & db & s & r & n & lt & dt & _ & _ & _ & _ & _ & _ & Hlt & ->) Hl.
  rewrite lookup_insert_ne; [done|]. intros ->. congruence.
Qed.



(** Construction changes the caller's dictionaries in their [size] entry
    only, and creates no entry in a dictionary it does not write to. *)
Lemma init_frame kwargs h self h' l d :
  __init__ kwargs h = Ok self h' →
  h !! l = Some d →
  ∃ d', h' !! l = Some d' ∧ kept_or_resized d d'.
Proof.
  intros (lt & ls & la & lk & ll & h1 & h2 & h3 & Hnd & Hfresh & -> & H1 & H2 & H3 & H4)%init_inv Hl.
  eapply with_defaults_lookup in Hl; [|done].
  destruct (derives_frame _ _ _ _ _ _ _ _ H1 Hl) as (d1 & Hl1 & K1).
  destruct (derives_frame _ _ _ _ _ _ _ _ H2 Hl1) as (d2 & Hl2 & K2).
  destruct (derives_frame _ _ _ _ _ _ _ _ H3 Hl2) as (d3 & Hl3 & K3).
  destruct (derives_frame _ _ _ _ _ _ _ _ H4 Hl3) as (d4 & Hl4 & K4).
  exists d4. split; [done|].
  eauto using kept_or_resized_trans.
Qed.

(** A supplied font option is stored as it is given: the attribute is the
    caller's reference. *)
Lemma init_font_attr kwargs h self h' k v :
  __init__ kwargs h = Ok self h' → k ∈ recognized → kwargs !! k = Some v →
  self !! k = Some v.
Proof.
  intros (lt & ls & la & lk & ll & h1 & h2 & h3 & _ & _ & -> & _)%init_inv Hk Hkw.
  rewrite set_attrs_lookup by (rewrite entries_keys; apply recognized_NoDup).
  rewrite <- (entries_keys (VRef lt) (VRef ls) (VRef la) (VRef lk) (VRef ll)) in Hk.
  apply list_elem_of_fmap in Hk as ([k' v'] & -> & Hin).
  erewrite elem_of_list_to_map_1; [by rewrite Hkw| |done].
  rewrite entries_keys. apply recognized_NoDup.
Qed.

(** The dictionary of a derived font, if the caller supplied it, ends up
    with a new integer [size] and is otherwise as supplied. *)
Lemma init_resized kwargs h self h' k l d :
  __init__ kwargs h = Ok self h' →
  k ∈ derived_fonts → kwargs !! k = Some (VRef l) → h !! l = Some d →
  ∃ d', h' !! l = Some d' ∧ resized d d'.
Proof.
  intros Hinit Hk Hkw Hl.
  assert (self !! k = Some (VRef l)) as Hself.
  { eapply init_font_attr; [done| |done]. by apply derived_fonts_recognized. }
  destruct (init_inv _ _ _ _ Hinit)
    as (lt & ls & la & lk & ll & h1 & h2 & h3 & Hnd & Hfresh & _ & H1 & H2 & H3 & H4).
  eapply with_defaults_lookup in Hl; [|done].
  destruct (derives_frame _ _ _ _ _ _ _ _ H1 Hl) as (d1 & Hl1 & K1).
  destruct (derives_frame _ _ _ _ _ _ _ _ H2 Hl1) as (d2 & Hl2 & K2).
  destruct (derives_frame _ _ _ _ _ _ _ _ H3 Hl2) as (d3 & Hl3 & K3).
  destruct (derives_frame _ _ _ _ _ _ _ _ H4 Hl3) as (d4 & Hl4 & K4).
  exists d4. split; [done|].
  unfold derived_fonts in Hk.
  repeat (apply elem_of_cons in Hk as [->|Hk]); [| | | |by apply elem_of_nil in Hk].
  - destruct (derives_target _ _ _ _ _ _ _ _ H1 Hself Hl) as (d1' & ? & R). simplify_eq.
    eauto using resized_then_kept, kept_or_resized_trans.
  - destruct (derives_target _ _ _ _ _ _ _ _ H2 Hself Hl1) as (d2' & ? & R). simplify_eq.
    eauto using resized_then_kept, kept_then_resized, kept_or_resized_trans.
  - destruct (derives_target _ _ _ _ _ _ _ _ H3 Hself Hl2) as (d3' & ? & R). simplify_eq.
    eauto using resized_then_kept, kept_then_resized, kept_or_resized_trans.
  - destruct (derives_target _ _ _ _ _ _ _ _ H4 Hself Hl3) as (d4' & ? & R). simplify_eq.
    eauto using kept_then_resized, kept_or_resized_trans.
Qed.

(** ** Derived sizes when no dictionary is shared *)


Lemma sizes_unshared kwargs h self h' :
  __init__ kwargs h = Ok self h' → unshared self →
  ∃ s r1 r2 r3 r4 n1 n2 n3 n4,
    font_size self h' "title_font" = Some s ∧
    self !! "subtitle_ratio" = Some r1 ∧
    self !! "axis_title_ratio" = Some r2 ∧
    self !! "tick_font_ratio" = Some r3 ∧
    self !! "legend_font_ratio" = Some r4 ∧
    derived s r1 = Val (VInt n1) ∧
    derived s r2 = Val (VInt n2) ∧
    derived (VInt n2) r3 = Val (VInt n3) ∧
    derived s r4 = Val (VInt n4) ∧
    font_size self h' "subtitle_font" = Some (VInt n1) ∧
    font_size self h' "axis_title_font" = Some (VInt n2) ∧
    font_size self h' "tick_font" = Some (VInt n3) ∧
    font_size self h' "legend_font" = Some (VInt n4).
Proof.
  intros Hinit (lt & ls & la & lk & ll & Ht & Hs & Ha & Hk & Hl & Hnd).
  apply NoDup_5 in Hnd as (N1 & N2 & N3 & N4 & N5 & N6 & N7 & N8 & N9 & N10).
  apply init_Ok in Hinit as (defs & h0 & h1 & h2 & h3 & _ & _ & D1 & D2 & D3 & D4).
  destruct D1 as (? & db1 & s1 & r1 & n1 & ? & dt1 & ? & Hb1 & Hs1 & Hr1 & Hd1 & ? & Ht1 & ->).
  destruct D2 as (? & db2 & s2 & r2 & n2 & ? & dt2 & ? & Hb2 & Hs2 & Hr2 & Hd2 & ? & Ht2 & ->).
  destruct D3 as (? & db3 & s3 & r3 & n3 & ? & dt3 & ? & Hb3 & Hs3 & Hr3 & Hd3 & ? & Ht3 & ->).
  destruct D4 as (? & db4 & s4 & r4 & n4 & ? & dt4 & ? & Hb4 & Hs4 & Hr4 & Hd4 & ? & Ht4 & ->).
  simplify_eq.
  rewrite !lookup_insert_ne in Hb2 by done.
  rewrite !lookup_insert_ne in Hb4 by done.
  rewrite lookup_insert_eq in Hb3.
  rewrite !lookup_insert_ne in Ht2 by done.
  rewrite !lookup_insert_ne in Ht3 by done.
  rewrite !lookup_insert_ne in Ht4 by done.
  simplify_eq. rewrite lookup_insert_eq in Hs3. simplify_eq.
  exists s1, r1, r2, r3, r4, n1, n2, n3, n4.
  unfold font_size, font.
  repeat match goal with
         | H : self !! ?k = Some _ |- context [self !! ?k] => rewrite H
         end.
  rewrite !lookup_insert_eq, ?lookup_insert_ne by done.
  rewrite !lookup_insert_eq, ?lookup_insert_ne by done.
  rewrite !lookup_insert_eq, ?lookup_insert_ne by done.
  rewrite Hb1. simpl. rewrite !lookup_insert_eq.
  rewrite ?option_bind_Some. simpl. rewrite ?lookup_insert_eq.
  repeat split; done.
Qed.

(** ** Construction from the defaults *)


Lemma set_attrs_default kwargs tf sf af kf lf k :
  kwargs !! k = None →
  set_attrs kwargs (entries tf sf af kf lf) ∅ !! k =
    (list_to_map (entries tf sf af kf lf) : gmap string value) !! k.
Proof.
  intros Hk. rewrite set_attrs_lookup by (rewrite entries_keys; apply recognized_NoDup).
  rewrite Hk.
  destruct ((list_to_map (entries tf sf af kf lf) : gmap string value) !! k);
    [done|apply lookup_empty].
Qed.

Lemma plain_attrs kwargs tf sf af kf lf :
  (∀ k, k ∈ (fonts ++ ratios)%list → kwargs !! k = None) →
  let self := set_attrs kwargs (entries tf sf af kf lf) ∅ in
  self !! "title_font" = Some tf ∧
  self !! "subtitle_font" = Some sf ∧
  self !! "axis_title_font" = Some af ∧
  self !! "tick_font" = Some kf ∧
  self !! "legend_font" = Some lf ∧
  self !! "subtitle_ratio" = Some (VFloat F64.lit_0_95) ∧
  self !! "axis_title_ratio" = Some (VFloat F64.lit_0_9) ∧
  self !! "tick_font_ratio" = Some (VFloat F64.lit_0_9) ∧
  self !! "legend_font_ratio" = Some (VFloat F64.lit_0_9).
Proof.
  intros Hkw. cbv zeta.
  split_and!; (rewrite set_attrs_default; [reflexivity|]; apply Hkw;
    apply list_elem_of_In; simpl; tauto).
Qed.

(** When the caller supplies neither fonts nor ratios, construction succeeds
    and yields the sizes 24, 22, 21, 18 and 21, on dictionaries of its own:
    what the caller's heap held is still there. *)
Lemma init_plain kwargs h :
  (∀ k, k ∈ (fonts ++ ratios)%list → kwargs !! k = None) →
  ∃ self h',
    __init__ kwargs h = Ok self h' ∧
    font_size self h' "title_font" = Some (VInt 24) ∧
    font_size self h' "subtitle_font" = Some (VInt 22) ∧
    font_size self h' "axis_title_font" = Some (VInt 21) ∧
    font_size self h' "tick_font" = Some (VInt 18) ∧
    font_size self h' "legend_font" = Some (VInt 21) ∧
    (∀ l d, h !! l = Some d → h' !! l = Some d).
Proof.
  intros Hkw.
  destruct (defaults_Ok h) as (lt & ls & la & lk & ll & Hnd & Hfresh & Hd).
  pose proof Hnd as Hnd'.
  apply NoDup_5 in Hnd' as (N1 & N2 & N3 & N4 & N5 & N6 & N7 & N8 & N9 & N10).
  destruct (plain_attrs kwargs (VRef lt) (VRef ls) (VRef la) (VRef lk) (VRef ll) Hkw)
    as (At & As & Aa & Ak & Al & R1 & R2 & R3 & R4).
  remember (set_attrs kwargs (entries (VRef lt) (VRef ls) (VRef la) (VRef lk) (VRef ll)) ∅)
    as self eqn:Hself.
  remember (with_defaults lt ls la lk ll h) as h0 eqn:Hh0.
  set (h1 := <[ls := <["size" := VInt 22]> default_font]> h0).
  set (h2 := <[la := <["size" := VInt 21]> default_font]> h1).
  set (h3 := <[lk := <["size" := VInt 18]> default_font]> h2).
  set (h4 := <[ll := <["size" := VInt 21]> default_font]> h3).
  assert (h0 !! lt = Some default_title_font) as Ht0.
  { rewrite Hh0; unfold with_defaults. rewrite !lookup_insert_ne by done. apply lookup_insert_eq. }
  assert (h0 !! ls = Some default_font) as Hs0.
  { rewrite Hh0; unfold with_defaults. rewrite !lookup_insert_ne by done. apply lookup_insert_eq. }
  assert (h0 !! la = Some default_font) as Ha0.
  { rewrite Hh0; unfold with_defaults. rewrite !lookup_insert_ne by done. apply lookup_insert_eq. }
  assert (h0 !! lk = Some default_font) as Hk0.
  { rewrite Hh0; unfold with_defaults. rewrite !lookup_insert_ne by done. apply lookup_insert_eq. }
  assert (h0 !! ll = Some default_font) as Hl0.
  { rewrite Hh0; unfold with_defaults. apply lookup_insert_eq. }
  assert (h1 !! lt = Some default_title_font) as Ht1
    by (unfold h1; by rewrite lookup_insert_ne).
  assert (h1 !! la = Some default_font) as Ha1
    by (unfold h1; by rewrite lookup_insert_ne).
  assert (h2 !! la = Some (<["size" := VInt 21]> default_font)) as Ha2
    by (unfold h2; by rewrite lookup_insert_eq).
  assert (h2 !! lk = Some default_font) as Hk2
    by (unfold h2, h1; by rewrite !lookup_insert_ne).
  assert (h3 !! lt = Some default_title_font) as Ht3
    by (unfold h3, h2; by rewrite !lookup_insert_ne).
  assert (h3 !! ll = Some default_font) as Hl3
    by (unfold h3, h2, h1; by rewrite !lookup_insert_ne).
  exists self, h4. split; [|split_and!].
  - apply init_Ok. eexists _, h0, h1, h2, h3. split; [exact Hd|]. split; [exact Hself|].
    split_and!.
    + exists lt, default_title_font, (VInt 24), (VFloat F64.lit_0_95), 22, ls, default_font.
      split_and!; done.
    + exists lt, default_title_font, (VInt 24), (VFloat F64.lit_0_9), 21, la, default_font.
      split_and!; done.
    + exists la, (<["size" := VInt 21]> default_font), (VInt 21), (VFloat F64.lit_0_9), 18,
        lk, default_font.
      split_and!; done.
    + exists lt, default_title_font, (VInt 24), (VFloat F64.lit_0_9), 21, ll, default_font.
      split_and!; done.
  - unfold font_size, font. rewrite At. unfold h4, h3, h2, h1.
    rewrite !lookup_insert_ne by done. by rewrite Ht0.
  - unfold font_size, font. rewrite As. unfold h4, h3, h2, h1.
    rewrite !lookup_insert_ne by done. by rewrite lookup_insert_eq.
  - unfold font_size, font. rewrite Aa. unfold h4, h3, h2.
    rewrite !lookup_insert_ne by done. by rewrite lookup_insert_eq.
  - unfold font_size, font. rewrite Ak. unfold h4, h3.
    rewrite !lookup_insert_ne by done. by rewrite lookup_insert_eq.
  - unfold font_size, font. rewrite Al. unfold h4.
    by rewrite lookup_insert_eq.
  - intros l d Hl.
    rewrite !Forall_cons in Hfresh. destruct Hfresh as (F1 & F2 & F3 & F4 & F5 & _).
    unfold h4, h3, h2, h1; rewrite Hh0; unfold with_defaults.
    rewrite !lookup_insert_ne by congruence. done.
Qed.

(** ** What construction depends on *)


Lemma init_unfold kwargs h :
  __init__ kwargs h =
    (defs ← defaults;
     let self := set_attrs kwargs defs ∅ in
     derive_sizes self;; mret self) h.
Proof.
  unfold __init__, derive_sizes, mbind, M_bind.
  destruct (defaults h) as [defs h0|]; [|done].
  repeat match goal with
         | |- context [derive_size ?s ?t ?b ?r ?h] => destruct (derive_size s t b r h) as [[]?|]
         end; reflexivity.
Qed.

(** A size assignment looks at three attributes only. *)
Lemma derive_size_ext (self self' : obj) target base ratio :
  self !! target = self' !! target →
  self !! base = self' !! base →
  self !! ratio = self' !! ratio →
  derive_size self target base ratio = derive_size self' target base ratio.
Proof.
  intros Ht Hb Hr. unfold derive_size, getattr. by rewrite Ht, Hb, Hr.
Qed.

Lemma derive_sizes_ext (self self' : obj) :
  (∀ k, k ∈ (fonts ++ ratios)%list → self !! k = self' !! k) →
  derive_sizes self = derive_sizes self'.
Proof.
  intros H. unfold derive_sizes.
  rewrite (derive_size_ext self self' "subtitle_font" "title_font" "subtitle_ratio"),
    (derive_size_ext self self' "axis_title_font" "title_font" "axis_title_ratio"),
    (derive_size_ext self self' "tick_font" "axis_title_font" "tick_font_ratio"),
    (derive_size_ext self self' "legend_font" "title_font" "legend_font_ratio");
    try reflexivity; apply H; apply list_elem_of_In; simpl; tauto.
Qed.

(** Options that agree on every recognized key give the same outcome. *)
Lemma set_attrs_agree kwargs kwargs' defs self :
  (∀ k, k ∈ defs.*1 → kwargs !! k = kwargs' !! k) →
  set_attrs kwargs defs self = set_attrs kwargs' defs self.
Proof.
  unfold set_attrs. revert self.
  induction defs as [|[k0 v0] defs IH]; intros self H; simpl; [done|].
  rewrite (H k0) by (simpl; left). apply IH. intros k Hk. apply H. simpl. by right.
Qed.

Lemma init_agree kwargs kwargs' h :
  (∀ k, k ∈ recognized → kwargs !! k = kwargs' !! k) →
  __init__ kwargs h = __init__ kwargs' h.
Proof.
  intros H. rewrite !init_unfold.
  destruct (defaults_Ok h) as (lt & ls & la & lk & ll & _ & _ & Hd).
  rewrite !(bind_run _ _ _ _ _ Hd). cbv zeta.
  rewrite (set_attrs_agree kwargs kwargs'); [done|].
  by rewrite entries_keys.
Qed.

(** Where the new dictionaries go depends on which locations are in use,
    not on what is stored there. *)
Lemma defaults_dom h h' :
  dom h = dom h' →
  ∃ lt ls la lk ll,
    NoDup [lt; ls; la; lk; ll] ∧
    Forall (λ l, h !! l = None) [lt; ls; la; lk; ll] ∧
    defaults h =
      Ok (entries (VRef lt) (VRef ls) (VRef la) (VRef lk) (VRef ll))
         (with_defaults lt ls la lk ll h) ∧
    defaults h' =
      Ok (entries (VRef lt) (VRef ls) (VRef la) (VRef lk) (VRef ll))
         (with_defaults lt ls la lk ll h').
Proof.
  intros Hdom.
  destruct (defaults_Ok h) as (lt & ls & la & lk & ll & Hnd & Hfresh & Hd).
  exists lt, ls, la, lk, ll. split_and!; try done.
  revert Hd. unfold defaults, with_defaults, mbind, M_bind, Py.new_dict, mret, M_ret.
  rewrite !dom_insert_L, Hdom. intros [= -> -> -> -> ->].
  reflexivity.
Qed.

(** ** The size a derived font is supplied with *)

Section SuppliedSize.
Variables (l : loc) (v : value).


(** A size assignment that does not read the size at [l] runs alike on
    both heaps, and makes them equal when it writes to [l]. *)
Lemma derives_differs self target base ratio h1 h1' h2 :
  derives self target base ratio h1 h1' →
  differs_in_size l v h1 h2 →
  self !! base ≠ Some (VRef l) ∨ h2 = h1 →
  ∃ h2', derives self target base ratio h2 h2' ∧ differs_in_size l v h1' h2' ∧
         (self !! target = Some (VRef l) ∨ h2 = h1 → h2' = h1').
Proof.
  intros D Hdiff [Hb| ->].
  2: { exists h1'. split; [done|]. split; [by left|done]. }
  destruct Hdiff as [->|(d1 & Hl & ->)].
  { exists h1'. split; [done|]. split; [by left|done]. }
  destruct D as (lb & db & s & r & n & lt & dt & Eb & Hlb & Hs & Er & Hd & Et & Hlt & ->).
  assert (lb ≠ l) as Hlb_ne by (intros ->; done).
  destruct (decide (lt = l)) as [->|Hne].
  - exists (<[l := <["size" := VInt n]> dt]> h1). simplify_eq. split; [|split].
    + exists lb, db, s, r, n, l, (<["size" := v]> dt).
      rewrite lookup_insert_ne by done. rewrite lookup_insert_eq.
      split_and!; try done. by rewrite !insert_insert_eq.
    + by left.
    + done.
  - exists (<[l := <["size" := v]> d1]> (<[lt := <["size" := VInt n]> dt]> h1)).
    split; [|split].
    + exists lb, db, s, r, n, lt, dt.
      rewrite !lookup_insert_ne by done.
      split_and!; try done. by rewrite insert_insert_ne.
    + right. exists d1. by rewrite lookup_insert_ne.
    + intros [?|Heq]; [congruence|].
      apply insert_id. rewrite lookup_insert_ne by done.
      pose proof (lookup_insert_eq h1 l (<["size" := v]> d1)) as E.
      by rewrite Heq in E.
Qed.

Lemma with_defaults_insert lt ls la lk ll (h : heap) d :
  Forall (λ l, h !! l = None) [lt; ls; la; lk; ll] →
  h !! l = Some d →
  with_defaults lt ls la lk ll (<[l := <["size" := v]> d]> h) =
    <[l := <["size" := v]> d]> (with_defaults lt ls la lk ll h).
Proof.
  intros Hf Hl. rewrite !Forall_cons in Hf. destruct Hf as (? & ? & ? & ? & ? & _).
  unfold with_defaults.
  rewrite (insert_insert_ne _ l ll), (insert_insert_ne _ l lk), (insert_insert_ne _ l la),
    (insert_insert_ne _ l ls), (insert_insert_ne _ l lt) by congruence.
  reflexivity.
Qed.

(** The outcome of construction is the same whatever [size] the caller
    left in the dictionary of a derived font, unless that dictionary is
    the title font as well. *)
Lemma init_supplied_size kwargs h self h' k d :
  __init__ kwargs h = Ok self h' →
  k ∈ derived_fonts → kwargs !! k = Some (VRef l) →
  kwargs !! "title_font" ≠ Some (VRef l) →
  h !! l = Some d →
  __init__ kwargs (<[l := <["size" := v]> d]> h) = Ok self h'.
Proof.
  intros Hinit Hk Hkw Htitle Hl.
  assert (self !! k = Some (VRef l)) as Hself.
  { eapply init_font_attr; [done| |done]. by apply derived_fonts_recognized. }
  assert (dom h = dom (<[l := <["size" := v]> d]> h)) as Hdom.
  { rewrite dom_insert_lookup_L; [done|]. by eexists. }
  destruct (defaults_dom _ _ Hdom) as (lt & ls & la & lk & ll & Hnd & Hfresh & Hd & Hd').
  apply init_Ok in Hinit as (defs & h0 & h1 & h2 & h3 & Hd0 & Es & D1 & D2 & D3 & D4).
  rewrite Hd in Hd0. injection Hd0 as <- <-.
  rewrite (with_defaults_insert _ _ _ _ _ _ _ Hfresh Hl) in Hd'.
  assert (self !! "title_font" ≠ Some (VRef l)) as Ht.
  { rewrite Es, (set_attrs_entries _ _ _ _ _ _ "title_font" (VRef lt))
      by (apply list_elem_of_In; simpl; tauto).
    destruct (kwargs !! "title_font") as [x|] eqn:E; simpl; [congruence|].
    intros [= ->]. rewrite !Forall_cons in Hfresh. destruct Hfresh as [? _]. congruence. }
  assert (differs_in_size l v (with_defaults lt ls la lk ll h)
            (<[l := <["size" := v]> d]> (with_defaults lt ls la lk ll h))) as I0.
  { right. exists d. split; [|done]. by apply with_defaults_lookup. }
  destruct (derives_differs _ _ _ _ _ _ _ D1 I0 (or_introl Ht)) as (g1 & E1 & I1 & Q1).
  destruct (derives_differs _ _ _ _ _ _ _ D2 I1 (or_introl Ht)) as (g2 & E2 & I2 & Q2).
  assert (self !! "axis_title_font" ≠ Some (VRef l) ∨ g2 = h2) as Ha.
  { destruct (decide (self !! "axis_title_font" = Some (VRef l))); [right|by left].
    apply Q2. by left. }
  destruct (derives_differs _ _ _ _ _ _ _ D3 I2 Ha) as (g3 & E3 & I3 & Q3).
  destruct (derives_differs _ _ _ _ _ _ _ D4 I3 (or_introl Ht)) as (g4 & E4 & I4 & Q4).
  assert (g4 = h') as ->.
  { unfold derived_fonts in Hk.
    repeat (apply elem_of_cons in Hk as [->|Hk]); [| | | |by apply elem_of_nil in Hk].
    - apply Q4. right. apply Q3. right. apply Q2. right. apply Q1. by left.
    - apply Q4. right. apply Q3. right. apply Q2. by left.
    - apply Q4. right. apply Q3. by left.
    - apply Q4. by left. }
  apply init_Ok. eexists _, _, g1, g2, g3. split; [exact Hd'|]. done.
Qed.

End SuppliedSize.
(** ** The options and what they stand for *)

Lemma font_size_lookup (self : obj) (h : heap) k l d s :
  self !! k = Some (VRef l) → h !! l = Some d → d !! "size" = Some s →
  font_size self h k = Some s.
Proof. intros Hk Hl Hs. unfold font_size, font. rewrite Hk, Hl. done. Qed.

Lemma fonts_members :
  "title_font" ∈ fonts ∧ "subtitle_font" ∈ fonts ∧ "axis_title_font" ∈ fonts ∧
  "tick_font" ∈ fonts ∧ "legend_font" ∈ fonts.
Proof. split_and!; apply list_elem_of_In; simpl; tauto. Qed.

(** The font and ratio attributes of a new instance. *)
Lemma attrs_fonts kwargs tf sf af kf lf :
  let self := set_attrs kwargs (entries tf sf af kf lf) ∅ in
  self !! "title_font" = Some (default tf (kwargs !! "title_font")) ∧
  self !! "subtitle_font" = Some (default sf (kwargs !! "subtitle_font")) ∧
  self !! "axis_title_font" = Some (default af (kwargs !! "axis_title_font")) ∧
  self !! "tick_font" = Some (default kf (kwargs !! "tick_font")) ∧
  self !! "legend_font" = Some (default lf (kwargs !! "legend_font")).
Proof.
  cbv zeta. split_and!; apply set_attrs_entries; apply list_elem_of_In; simpl; tauto.
Qed.

Lemma derives_other self target base ratio h h' l :
  derives self target base ratio h h' →
  self !! target ≠ Some (VRef l) →
  h' !! l = h !! l.
Proof.
  intros (lb & db & s & r & n & lt & dt & _ & _ & _ & _ & _ & Ht & _ & ->) Hne.
  apply lookup_insert_ne. intros ->. done.
Qed.

(** The dictionary a font attribute refers to when the option is absent. *)
Lemma init_default_font kwargs h self h' k :
  __init__ kwargs h = Ok self h' → k ∈ fonts → kwargs !! k = None →
  ∃ l, self !! k = Some (VRef l) ∧ h !! l = None.
Proof.
  intros (lt & ls & la & lk & ll & h1 & h2 & h3 & _ & Hfresh & Es & _)%init_inv Hk Hkw.
  rewrite !Forall_cons in Hfresh. destruct Hfresh as (F1 & F2 & F3 & F4 & F5 & _).
  destruct (attrs_fonts kwargs (VRef lt) (VRef ls) (VRef la) (VRef lk) (VRef ll))
    as (A1 & A2 & A3 & A4 & A5).
  rewrite <- Es in A1, A2, A3, A4, A5. clear Es h1 h2 h3 h'.
  apply list_elem_of_In in Hk. simpl in Hk.
  destruct Hk as [<-|[<-|[<-|[<-|[<-|[]]]]]].
  - exists lt. by rewrite A1, Hkw.
  - exists ls. by rewrite A2, Hkw.
  - exists la. by rewrite A3, Hkw.
  - exists lk. by rewrite A4, Hkw.
  - exists ll. by rewrite A5, Hkw.
Qed.

(** Two different font attributes refer to the same dictionary only if the
    caller supplied it for both, or supplied a reference to nothing. *)
Lemma init_default_font_own kwargs h self h' k k' l :
  __init__ kwargs h = Ok self h' →
  k ∈ fonts → k' ∈ fonts → k' ≠ k →
  kwargs !! k = None →
  (∀ l', kwargs !! k' = Some (VRef l') → is_Some (h !! l')) →
  self !! k = Some (VRef l) → self !! k' ≠ Some (VRef l).
Proof.
  intros (lt & ls & la & lk & ll & h1 & h2 & h3 & Hnd & Hfresh & Es & _)%init_inv
    Hk Hk' Hne Hkw Hwf.
  rewrite !Forall_cons in Hfresh. destruct Hfresh as (F1 & F2 & F3 & F4 & F5 & _).
  apply NoDup_5 in Hnd as (N1 & N2 & N3 & N4 & N5 & N6 & N7 & N8 & N9 & N10).
  destruct (attrs_fonts kwargs (VRef lt) (VRef ls) (VRef la) (VRef lk) (VRef ll))
    as (A1 & A2 & A3 & A4 & A5).
  rewrite <- Es in A1, A2, A3, A4, A5. clear Es h1 h2 h3 h'.
  assert (∀ l0 v, h !! l0 = None →
            default (VRef l0) (kwargs !! k') = VRef l →
            kwargs !! k' = Some v → h !! l = None → False) as Hsupplied.
  { intros l0 v _ E Ev Hl. rewrite Ev in E. simpl in E. subst v.
    destruct (Hwf l Ev) as [? ?]. congruence. }
  apply list_elem_of_In in Hk, Hk'. simpl in Hk, Hk'.
  destruct Hk as [<-|[<-|[<-|[<-|[<-|[]]]]]];
    destruct Hk' as [<-|[<-|[<-|[<-|[<-|[]]]]]]; try done;
    rewrite ?A1, ?A2, ?A3, ?A4, ?A5, ?Hkw; simpl;
    intros [= <-] [= E];
    (destruct (kwargs !! _) as [v|] eqn:Ev in E;
     [eapply Hsupplied; [| |exact Ev|]; [eassumption|by rewrite Ev|eassumption]
     |simpl in E; congruence]).
Qed.

Lemma attrs_ratios kwargs tf sf af kf lf :
  let self := set_attrs kwargs (entries tf sf af kf lf) ∅ in
  self !! "subtitle_ratio"
    = Some (default (VFloat F64.lit_0_95) (kwargs !! "subtitle_ratio")) ∧
  self !! "axis_title_ratio"
    = Some (default (VFloat F64.lit_0_9) (kwargs !! "axis_title_ratio")) ∧
  self !! "tick_font_ratio"
    = Some (default (VFloat F64.lit_0_9) (kwargs !! "tick_font_ratio")) ∧
  self !! "legend_font_ratio"
    = Some (default (VFloat F64.lit_0_9) (kwargs !! "legend_font_ratio")).
Proof.
  cbv zeta. split_and!; apply set_attrs_entries; apply list_elem_of_In; simpl; tauto.
Qed.

(** Where the dictionary of a font option is once the defaults exist. *)
Lemma pick_font kwargs (h h0 : heap) k dflt l0 d :
  font_option kwargs h k dflt = Some d →
  h !! l0 = None →
  (∀ l d', h !! l = Some d' → h0 !! l = Some d') →
  h0 !! l0 = Some dflt →
  ∃ L, default (VRef l0) (kwargs !! k) = VRef L ∧ h0 !! L = Some d ∧
       (kwargs !! k = Some (VRef L) ∧ is_Some (h !! L) ∨ kwargs !! k = None ∧ L = l0).
Proof.
  unfold font_option. intros Hopt Hfresh Hsub H0.
  destruct (kwargs !! k) as [[| | | | |l]|]; try done.
  - exists l. simpl. split_and!; eauto.
  - injection Hopt as <-. exists l0. simpl. split_and!; eauto.
Qed.

Lemma picked_apart kwargs (h : heap) k1 k2 l1 l2 L1 L2 :
  fonts_apart kwargs → k1 ∈ fonts → k2 ∈ fonts → k1 ≠ k2 →
  l1 ≠ l2 → h !! l1 = None → h !! l2 = None →
  (kwargs !! k1 = Some (VRef L1) ∧ is_Some (h !! L1) ∨ kwargs !! k1 = None ∧ L1 = l1) →
  (kwargs !! k2 = Some (VRef L2) ∧ is_Some (h !! L2) ∨ kwargs !! k2 = None ∧ L2 = l2) →
  L1 ≠ L2.
Proof.
  intros Hapart Hk1 Hk2 Hne Hl F1 F2 [[E1 [d1 S1]]|[E1 ->]] [[E2 [d2 S2]]|[E2 ->]].
  - intros ->. by eapply (Hapart k1 k2 L2).
  - intros ->. congruence.
  - intros <-. congruence.
  - done.
Qed.

(** Construction from options that share no dictionary: it returns when
    the four sizes can be derived, and leaves each font as supplied, or as
    its default, with its size. *)
Lemma construction_apart kwargs h dt ds da dk dl s n1 n2 n3 n4 :
  fonts_apart kwargs →
  font_option kwargs h "title_font" default_title_font = Some dt →
  font_option kwargs h "subtitle_font" default_font = Some ds →
  font_option kwargs h "axis_title_font" default_font = Some da →
  font_option kwargs h "tick_font" default_font = Some dk →
  font_option kwargs h "legend_font" default_font = Some dl →
  dt !! "size" = Some s →
  derived s (default (VFloat F64.lit_0_95) (kwargs !! "subtitle_ratio")) = Val (VInt n1) →
  derived s (default (VFloat F64.lit_0_9) (kwargs !! "axis_title_ratio")) = Val (VInt n2) →
  derived (VInt n2) (default (VFloat F64.lit_0_9) (kwargs !! "tick_font_ratio"))
    = Val (VInt n3) →
  derived s (default (VFloat F64.lit_0_9) (kwargs !! "legend_font_ratio")) = Val (VInt n4) →
  ∃ self h',
    __init__ kwargs h = Ok self h' ∧
    font self h' "title_font" = Some dt ∧
    font self h' "subtitle_font" = Some (<["size" := VInt n1]> ds) ∧
    font self h' "axis_title_font" = Some (<["size" := VInt n2]> da) ∧
    font self h' "tick_font" = Some (<["size" := VInt n3]> dk) ∧
    font self h' "legend_font" = Some (<["size" := VInt n4]> dl).
Proof.
  intros Hapart Ot Os Oa Ok' Ol Hs V1 V2 V3 V4.
  destruct (defaults_Ok h) as (lt & ls & la & lk & ll & Hnd & Hfresh & Hd).
  apply NoDup_5 in Hnd as (N1 & N2 & N3 & N4 & N5 & N6 & N7 & N8 & N9 & N10).
  pose proof Hfresh as Hfresh'.
  rewrite !Forall_cons in Hfresh'. destruct Hfresh' as (F1 & F2 & F3 & F4 & F5 & _).
  destruct (attrs_fonts kwargs (VRef lt) (VRef ls) (VRef la) (VRef lk) (VRef ll))
    as (A1 & A2 & A3 & A4 & A5).
  destruct (attrs_ratios kwargs (VRef lt) (VRef ls) (VRef la) (VRef lk) (VRef ll))
    as (R1 & R2 & R3 & R4).
  remember (set_attrs kwargs (entries (VRef lt) (VRef ls) (VRef la) (VRef lk) (VRef ll)) ∅)
    as self eqn:Es.
  remember (with_defaults lt ls la lk ll h) as h0 eqn:Eh0.
  assert (∀ l d', h !! l = Some d' → h0 !! l = Some d') as Hsub.
  { intros l d' Hl. rewrite Eh0. by apply with_defaults_lookup. }
  assert (h0 !! lt = Some default_title_font) as D1.
  { rewrite Eh0; unfold with_defaults. rewrite !lookup_insert_ne by done. apply lookup_insert_eq. }
  assert (h0 !! ls = Some default_font) as D2.
  { rewrite Eh0; unfold with_defaults. rewrite !lookup_insert_ne by done. apply lookup_insert_eq. }
  assert (h0 !! la = Some default_font) as D3.
  { rewrite Eh0; unfold with_defaults. rewrite !lookup_insert_ne by done. apply lookup_insert_eq. }
  assert (h0 !! lk = Some default_font) as D4.
  { rewrite Eh0; unfold with_defaults. rewrite !lookup_insert_ne by done. apply lookup_insert_eq. }
  assert (h0 !! ll = Some default_font) as D5.
  { rewrite Eh0; unfold with_defaults. apply lookup_insert_eq. }
  destruct (pick_font _ _ _ _ _ _ _ Ot F1 Hsub D1) as (Lt & Et & Ht & Ct).
  destruct (pick_font _ _ _ _ _ _ _ Os F2 Hsub D2) as (Ls & Es' & Hs' & Cs).
  destruct (pick_font _ _ _ _ _ _ _ Oa F3 Hsub D3) as (La & Ea & Ha & Ca).
  destruct (pick_font _ _ _ _ _ _ _ Ok' F4 Hsub D4) as (Lk & Ek & Hk & Ck).
  destruct (pick_font _ _ _ _ _ _ _ Ol F5 Hsub D5) as (Ll & El & Hl & Cl).
  rewrite Et in A1. rewrite Es' in A2. rewrite Ea in A3. rewrite Ek in A4. rewrite El in A5.
  destruct fonts_members as (I1 & I2 & I3 & I4 & I5).
  assert (Lt ≠ Ls) as M1
    by (apply (picked_apart kwargs h "title_font" "subtitle_font" lt ls);
        [exact Hapart|assumption|assumption|discriminate
        |assumption..]).
  assert (Lt ≠ La) as M2
    by (apply (picked_apart kwargs h "title_font" "axis_title_font" lt la);
        [exact Hapart|assumption|assumption|discriminate
        |assumption..]).
  assert (Lt ≠ Lk) as M3
    by (apply (picked_apart kwargs h "title_font" "tick_font" lt lk);
        [exact Hapart|assumption|assumption|discriminate
        |assumption..]).
  assert (Lt ≠ Ll) as M4
    by (apply (picked_apart kwargs h "title_font" "legend_font" lt ll);
        [exact Hapart|assumption|assumption|discriminate
        |assumption..]).
  assert (Ls ≠ La) as M5
    by (apply (picked_apart kwargs h "subtitle_font" "axis_title_font" ls la);
        [exact Hapart|assumption|assumption|discriminate
        |assumption..]).
  assert (Ls ≠ Lk) as M6
    by (apply (picked_apart kwargs h "subtitle_font" "tick_font" ls lk);
        [exact Hapart|assumption|assumption|discriminate
        |assumption..]).
  assert (Ls ≠ Ll) as M7
    by (apply (picked_apart kwargs h "subtitle_font" "legend_font" ls ll);
        [exact Hapart|assumption|assumption|discriminate
        |assumption..]).
  assert (La ≠ Lk) as M8
    by (apply (picked_apart kwargs h "axis_title_font" "tick_font" la lk);
        [exact Hapart|assumption|assumption|discriminate
        |assumption..]).
  assert (La ≠ Ll) as M9
    by (apply (picked_apart kwargs h "axis_title_font" "legend_font" la ll);
        [exact Hapart|assumption|assumption|discriminate
        |assumption..]).
  assert (Lk ≠ Ll) as M10
    by (apply (picked_apart kwargs h "tick_font" "legend_font" lk ll);
        [exact Hapart|assumption|assumption|discriminate
        |assumption..]).
  clear Ct Cs Ca Ck Cl Et Es' Ea Ek El Ot Os Oa Ok' Ol Hapart I1 I2 I3 I4 I5.
  set (h1 := <[Ls := <["size" := VInt n1]> ds]> h0).
  set (h2 := <[La := <["size" := VInt n2]> da]> h1).
  set (h3 := <[Lk := <["size" := VInt n3]> dk]> h2).
  set (h4 := <[Ll := <["size" := VInt n4]> dl]> h3).
  assert (h1 !! Lt = Some dt) as Ht1 by (unfold h1; by rewrite lookup_insert_ne).
  assert (h1 !! La = Some da) as Ha1 by (unfold h1; by rewrite lookup_insert_ne).
  assert (h2 !! La = Some (<["size" := VInt n2]> da)) as Ha2
    by (unfold h2; by rewrite lookup_insert_eq).
  assert (h2 !! Lk = Some dk) as Hk2 by (unfold h2, h1; by rewrite !lookup_insert_ne).
  assert (h3 !! Lt = Some dt) as Ht3 by (unfold h3, h2; by rewrite !lookup_insert_ne).
  assert (h3 !! Ll = Some dl) as Hl3 by (unfold h3, h2, h1; by rewrite !lookup_insert_ne).
  exists self, h4. split; [|split_and!].
  - apply init_Ok. eexists _, h0, h1, h2, h3. split; [exact Hd|]. split; [exact Es|].
    split_and!.
    + eexists Lt, dt, s, _, n1, Ls, ds. split_and!; done.
    + eexists Lt, dt, s, _, n2, La, da. split_and!; done.
    + eexists La, (<["size" := VInt n2]> da), (VInt n2), _, n3, Lk, dk.
      split_and!; try done. apply lookup_insert_eq.
    + eexists Lt, dt, s, _, n4, Ll, dl. split_and!; done.
  - unfold font. rewrite A1. unfold h4, h3, h2, h1.
    by rewrite !lookup_insert_ne.
  - unfold font. rewrite A2. unfold h4, h3, h2, h1.
    rewrite !lookup_insert_ne by done. apply lookup_insert_eq.
  - unfold font. rewrite A3. unfold h4, h3, h2.
    rewrite !lookup_insert_ne by done. apply lookup_insert_eq.
  - unfold font. rewrite A4. unfold h4, h3.
    rewrite !lookup_insert_ne by done. apply lookup_insert_eq.
  - unfold font. rewrite A5. unfold h4. apply lookup_insert_eq.
Qed.

(** The five dictionaries of [defaults], where they were created. *)
Lemma with_defaults_fresh lt ls la lk ll (h : heap) :
  NoDup [lt; ls; la; lk; ll] →
  let h0 := with_defaults lt ls la lk ll h in
  h0 !! lt = Some default_title_font ∧ h0 !! ls = Some default_font ∧
  h0 !! la = Some default_font ∧ h0 !! lk = Some default_font ∧
  h0 !! ll = Some default_font.
Proof.
  intros (N1 & N2 & N3 & N4 & N5 & N6 & N7 & N8 & N9 & N10)%NoDup_5. cbv zeta.
  unfold with_defaults. split_and!.
  - rewrite !lookup_insert_ne by done. apply lookup_insert_eq.
  - rewrite !lookup_insert_ne by done. apply lookup_insert_eq.
  - rewrite !lookup_insert_ne by done. apply lookup_insert_eq.
  - rewrite !lookup_insert_ne by done. apply lookup_insert_eq.
  - apply lookup_insert_eq.
Qed.

(** A font attribute is the reference the caller supplied, to one of their
    dictionaries, or the reference to the default of the option. *)
Lemma picked_cases kwargs (h : heap) k l0 L :
  options_in kwargs h →
  default (VRef l0) (kwargs !! k) = VRef L →
  kwargs !! k = Some (VRef L) ∧ is_Some (h !! L) ∨ kwargs !! k = None ∧ L = l0.
Proof.
  intros Hwf HL. destruct (kwargs !! k) as [v|] eqn:Ek; simpl in HL.
  - subst v. left. split; [done|]. by eapply Hwf.
  - injection HL as <-. by right.
Qed.

(** The dictionary it refers to, once the defaults exist, is the one the
    option stands for. *)
Lemma font_picked kwargs (h h0 : heap) k dflt l0 L :
  h !! l0 = None →
  (∀ l d', h !! l = Some d' → h0 !! l = Some d') →
  h0 !! l0 = Some dflt →
  kwargs !! k = Some (VRef L) ∧ is_Some (h !! L) ∨ kwargs !! k = None ∧ L = l0 →
  ∃ d, h0 !! L = Some d ∧ font_option kwargs h k dflt = Some d.
Proof.
  intros Hfresh Hsub H0 [[Ek [d Hd]]|[Ek ->]]; unfold font_option; rewrite Ek.
  - exists d. split; [by apply Hsub|done].
  - exists dflt. done.
Qed.

(** A construction that returns, from options that share no dictionary,
    has derived the four sizes from what the options stand for. *)
Lemma init_derivable kwargs h self h' :
  options_in kwargs h → fonts_apart kwargs →
  __init__ kwargs h = Ok self h' →
  derivable kwargs h.
Proof.
  intros Hwf Hapart
    (lt & ls & la & lk & ll & h1 & h2 & h3 & Hnd & Hfresh & Es & D1 & D2 & D3 & D4)%init_inv.
  destruct (with_defaults_fresh lt ls la lk ll h Hnd) as (W1 & W2 & W3 & W4 & W5).
  apply NoDup_5 in Hnd as (N1 & N2 & N3 & N4 & N5 & N6 & N7 & N8 & N9 & N10).
  pose proof Hfresh as Hfresh'.
  rewrite !Forall_cons in Hfresh'. destruct Hfresh' as (F1 & F2 & F3 & F4 & F5 & _).
  destruct (attrs_fonts kwargs (VRef lt) (VRef ls) (VRef la) (VRef lk) (VRef ll))
    as (A1 & A2 & A3 & A4 & A5).
  destruct (attrs_ratios kwargs (VRef lt) (VRef ls) (VRef la) (VRef lk) (VRef ll))
    as (R1 & R2 & R3 & R4).
  rewrite <- Es in A1, A2, A3, A4, A5, R1, R2, R3, R4. clear Es.
  remember (with_defaults lt ls la lk ll h) as h0 eqn:Eh0.
  assert (∀ l d', h !! l = Some d' → h0 !! l = Some d') as Hsub.
  { intros l d' Hl. rewrite Eh0. by apply with_defaults_lookup. }
  clear Eh0 Hfresh.
  destruct D1 as (Lt & dt & s & r1 & n1 & Ls & ds & Bt1 & Ht & Hs & Er1 & V1 & Ts & Hds & ->).
  destruct D2 as (Lt2 & dt2 & s2 & r2 & n2 & La & da & Bt2 & Ht2 & Hs2 & Er2 & V2 & Ta & Hda & ->).
  destruct D3 as (La3 & da3 & s3 & r3 & n3 & Lk & dk & Ba3 & Ha3 & Hs3 & Er3 & V3 & Tk & Hdk & ->).
  destruct D4 as (Lt4 & dt4 & s4 & r4 & n4 & Ll & dl & Bt4 & Ht4 & Hs4 & Er4 & V4 & Tl & Hdl & _).
  rewrite Bt1 in Bt2, Bt4. injection Bt2 as <-. injection Bt4 as <-.
  rewrite Ta in Ba3. injection Ba3 as <-.
  rewrite R1 in Er1. injection Er1 as <-.
  rewrite R2 in Er2. injection Er2 as <-.
  rewrite R3 in Er3. injection Er3 as <-.
  rewrite R4 in Er4. injection Er4 as <-.
  rewrite A1 in Bt1. injection Bt1 as Bt.
  rewrite A2 in Ts. injection Ts as Ts.
  rewrite A3 in Ta. injection Ta as Ta.
  rewrite A4 in Tk. injection Tk as Tk.
  rewrite A5 in Tl. injection Tl as Tl.
  clear A1 A2 A3 A4 A5 R1 R2 R3 R4.
  pose proof (picked_cases _ _ _ _ _ Hwf Bt) as Ct.
  pose proof (picked_cases _ _ _ _ _ Hwf Ts) as Cs.
  pose proof (picked_cases _ _ _ _ _ Hwf Ta) as Ca.
  pose proof (picked_cases _ _ _ _ _ Hwf Tk) as Ck.
  pose proof (picked_cases _ _ _ _ _ Hwf Tl) as Cl.
  destruct fonts_members as (I1 & I2 & I3 & I4 & I5).
  assert (Lt ≠ Ls) as M1
    by (apply (picked_apart kwargs h "title_font" "subtitle_font" lt ls);
        [exact Hapart|assumption|assumption|discriminate
        |assumption..]).
  assert (Lt ≠ La) as M2
    by (apply (picked_apart kwargs h "title_font" "axis_title_font" lt la);
        [exact Hapart|assumption|assumption|discriminate
        |assumption..]).
  assert (Lt ≠ Lk) as M3
    by (apply (picked_apart kwargs h "title_font" "tick_font" lt lk);
        [exact Hapart|assumption|assumption|discriminate
        |assumption..]).
  assert (Ls ≠ La) as M5
    by (apply (picked_apart kwargs h "subtitle_font" "axis_title_font" ls la);
        [exact Hapart|assumption|assumption|discriminate
        |assumption..]).
  destruct (font_picked _ _ _ _ _ _ _ F1 Hsub W1 Ct) as (dt' & Ht' & Ot).
  destruct (font_picked _ _ _ _ _ _ _ F2 Hsub W2 Cs) as (ds' & _ & Os).
  destruct (font_picked _ _ _ _ _ _ _ F3 Hsub W3 Ca) as (da' & _ & Oa).
  destruct (font_picked _ _ _ _ _ _ _ F4 Hsub W4 Ck) as (dk' & _ & Ok').
  destruct (font_picked _ _ _ _ _ _ _ F5 Hsub W5 Cl) as (dl' & _ & Ol).
  rewrite Ht in Ht'. injection Ht' as <-.
  rewrite lookup_insert_ne in Ht2 by done. rewrite Ht in Ht2. injection Ht2 as <-.
  rewrite !lookup_insert_ne in Ht4 by done. rewrite Ht in Ht4. injection Ht4 as <-.
  rewrite lookup_insert_eq in Ha3. injection Ha3 as <-.
  rewrite lookup_insert_eq in Hs3. injection Hs3 as <-.
  rewrite Hs in Hs2, Hs4. injection Hs2 as <-. injection Hs4 as <-.
  exists dt, s, n1, n2, n3, n4. split_and!; try done.
  intros k Hk. apply list_elem_of_In in Hk. simpl in Hk.
  destruct Hk as [<-|[<-|[<-|[<-|[]]]]]; by eexists.
Qed.

(** The default of a font option that is not supplied: for the title font
    the dictionary of [defaults], untouched; for a derived font that
    dictionary with its size. *)
Lemma init_default_title kwargs h self h' :
  options_in kwargs h →
  __init__ kwargs h = Ok self h' →
  kwargs !! "title_font" = None →
  font self h' "title_font" = Some default_title_font.
Proof.
  intros Hwf Hinit Hkw.
  destruct fonts_members as (I1 & I2 & I3 & I4 & I5).
  pose proof Hinit
    as (lt & ls & la & lk & ll & h1 & h2 & h3 & Hnd & Hfresh & Es & D1 & D2 & D3 & D4)%init_inv.
  destruct (with_defaults_fresh lt ls la lk ll h Hnd) as (W1 & _).
  destruct (attrs_fonts kwargs (VRef lt) (VRef ls) (VRef la) (VRef lk) (VRef ll))
    as (A1 & _).
  rewrite <- Es in A1. clear Es. rewrite Hkw in A1. simpl in A1.
  assert (∀ k', k' ∈ fonts → k' ≠ "title_font" → self !! k' ≠ Some (VRef lt)) as Hown.
  { intros k' Hk' Hne.
    apply (init_default_font_own _ _ _ _ "title_font" k' lt Hinit I1 Hk' Hne Hkw);
      [|exact A1].
    intros l'. apply Hwf. }
  unfold font. rewrite A1.
  rewrite (derives_other _ _ _ _ _ _ _ D4) by (by apply Hown).
  rewrite (derives_other _ _ _ _ _ _ _ D3) by (by apply Hown).
  rewrite (derives_other _ _ _ _ _ _ _ D2) by (by apply Hown).
  rewrite (derives_other _ _ _ _ _ _ _ D1) by (by apply Hown).
  exact W1.
Qed.

Lemma init_default_derived kwargs h self h' k :
  options_in kwargs h →
  __init__ kwargs h = Ok self h' →
  k ∈ derived_fonts → kwargs !! k = None →
  ∃ n : Z, font self h' k = Some (<["size" := VInt n]> default_font).
Proof.
  intros Hwf Hinit Hk Hkw.
  destruct fonts_members as (I1 & I2 & I3 & I4 & I5).
  pose proof Hinit
    as (lt & ls & la & lk & ll & h1 & h2 & h3 & Hnd & Hfresh & Es & D1 & D2 & D3 & D4)%init_inv.
  destruct (with_defaults_fresh lt ls la lk ll h Hnd) as (_ & W2 & W3 & W4 & W5).
  destruct (attrs_fonts kwargs (VRef lt) (VRef ls) (VRef la) (VRef lk) (VRef ll))
    as (_ & A2 & A3 & A4 & A5).
  rewrite <- Es in A2, A3, A4, A5. clear Es.
  assert (∀ k0 l0 k', k0 ∈ fonts → kwargs !! k0 = None → self !! k0 = Some (VRef l0) →
            k' ∈ fonts → k' ≠ k0 → self !! k' ≠ Some (VRef l0)) as Hown.
  { intros k0 l0 k' Hk0 Hkw0 Hself Hk' Hne.
    apply (init_default_font_own _ _ _ _ k0 k' l0 Hinit Hk0 Hk' Hne Hkw0); [|exact Hself].
    intros l'. apply Hwf. }
  unfold font.
  apply list_elem_of_In in Hk. simpl in Hk.
  destruct Hk as [<-|[<-|[<-|[<-|[]]]]].
  - rewrite Hkw in A2. simpl in A2. rewrite A2.
    destruct (derives_target _ _ _ _ _ _ _ _ D1 A2 W2) as (d' & Hd' & n & ->).
    exists n.
    rewrite (derives_other _ _ _ _ _ _ _ D4) by (by apply (Hown "subtitle_font")).
    rewrite (derives_other _ _ _ _ _ _ _ D3) by (by apply (Hown "subtitle_font")).
    rewrite (derives_other _ _ _ _ _ _ _ D2) by (by apply (Hown "subtitle_font")).
    exact Hd'.
  - rewrite Hkw in A3. simpl in A3. rewrite A3.
    rewrite <- (derives_other _ _ _ _ _ _ _ D1) in W3
      by (by apply (Hown "axis_title_font")).
    destruct (derives_target _ _ _ _ _ _ _ _ D2 A3 W3) as (d' & Hd' & n & ->).
    exists n.
    rewrite (derives_other _ _ _ _ _ _ _ D4) by (by apply (Hown "axis_title_font")).
    rewrite (derives_other _ _ _ _ _ _ _ D3) by (by apply (Hown "axis_title_font")).
    exact Hd'.
  - rewrite Hkw in A4. simpl in A4. rewrite A4.
    rewrite <- (derives_other _ _ _ _ _ _ _ D1) in W4 by (by apply (Hown "tick_font")).
    rewrite <- (derives_other _ _ _ _ _ _ _ D2) in W4 by (by apply (Hown "tick_font")).
    destruct (derives_target _ _ _ _ _ _ _ _ D3 A4 W4) as (d' & Hd' & n & ->).
    exists n.
    rewrite (derives_other _ _ _ _ _ _ _ D4) by (by apply (Hown "tick_font")).
    exact Hd'.
  - rewrite Hkw in A5. simpl in A5. rewrite A5.
    rewrite <- (derives_other _ _ _ _ _ _ _ D1) in W5 by (by apply (Hown "legend_font")).
    rewrite <- (derives_other _ _ _ _ _ _ _ D2) in W5 by (by apply (Hown "legend_font")).
    rewrite <- (derives_other _ _ _ _ _ _ _ D3) in W5 by (by apply (Hown "legend_font")).
    destruct (derives_target _ _ _ _ _ _ _ _ D4 A5 W5) as (d' & Hd' & n & ->).
    by exists n.
Qed.
(** ** [standardize] *)

Lemma result_bind_Val {A B} (r : result A) (k : A → result B) b :
  r ≫= k = Val b ↔ ∃ a, r = Val a ∧ k a = Val b.
Proof.
  unfold mbind, result_bind. destruct r as [a|e].
  - split; [by exists a|by intros (? & [= <-] & ?)].
  - split; [done|by intros (? & ? & ?)].
Qed.

(** An outcome that raises nothing has returned. *)
Lemma Ok_returns {A} (o : outcome A) : raised o = None → ∃ a h, o = Ok a h.
Proof. destruct o; [eauto|done]. Qed.

Lemma axis_keys_NoDup : NoDup axis_keys.
Proof. apply (bool_decide_unpack _). vm_compute. exact I. Qed.

Lemma layout_keys_NoDup : NoDup layout_keys.
Proof. apply (bool_decide_unpack _). vm_compute. exact I. Qed.

Lemma axis_args_Some self axes :
  axis_args self = Some axes ↔
  ∃ title_font tickfont showgrid gridcolor gridwidth,
    self !! "axis_title_font" = Some title_font ∧ self !! "tick_font" = Some tickfont ∧
    self !! "showgrid" = Some showgrid ∧ self !! "gridcolor" = Some gridcolor ∧
    self !! "gridwidth" = Some gridwidth ∧
    axes = [ ("title_font", title_font); ("tickfont", tickfont); ("showgrid", showgrid);
             ("gridcolor", gridcolor); ("gridwidth", gridwidth) ].
Proof.
  unfold axis_args. split.
  - destruct (self !! "axis_title_font") as [a|]; [|done].
    destruct (self !! "tick_font") as [b|]; [|done].
    destruct (self !! "showgrid") as [c|]; [|done].
    destruct (self !! "gridcolor") as [d|]; [|done].
    destruct (self !! "gridwidth") as [e|]; [|done].
    simpl. intros [= <-]. by exists a, b, c, d, e.
  - intros (a & b & c & d & e & -> & -> & -> & -> & -> & ->). done.
Qed.

Lemma layout_args_Some self lay :
  layout_args self = Some lay ↔
  ∃ title_font legend_font template height width,
    self !! "title_font" = Some title_font ∧ self !! "legend_font" = Some legend_font ∧
    self !! "template" = Some template ∧ self !! "height" = Some height ∧
    self !! "width" = Some width ∧
    lay = [ ("title_font", title_font); ("legend_font", legend_font); ("template", template);
            ("height", height); ("width", width) ].
Proof.
  unfold layout_args. split.
  - destruct (self !! "title_font") as [a|]; [|done].
    destruct (self !! "legend_font") as [b|]; [|done].
    destruct (self !! "template") as [c|]; [|done].
    destruct (self !! "height") as [d|]; [|done].
    destruct (self !! "width") as [e|]; [|done].
    simpl. intros [= <-]. by exists a, b, c, d, e.
  - intros (a & b & c & d & e & -> & -> & -> & -> & -> & ->). done.
Qed.

Lemma axis_args_keys self axes : axis_args self = Some axes → axes.*1 = axis_keys.
Proof. by intros (a & b & c & d & e & _ & _ & _ & _ & _ & ->)%axis_args_Some. Qed.

Lemma layout_args_keys self lay : layout_args self = Some lay → lay.*1 = layout_keys.
Proof. by intros (a & b & c & d & e & _ & _ & _ & _ & _ & ->)%layout_args_Some. Qed.

Section Updates.

Context `{Library}.

(** What an update makes of a bag of properties: each property it names is
    what the library makes of it, the others are as they were. *)
Lemma update_Val o kwargs h (p p' : props) :
  NoDup kwargs.*1 →
  Fig.update o kwargs h p = Val p' →
  (∀ k v, (k, v) ∈ kwargs →
     ∃ s, updated o k h v (p !! k) = Val s ∧ p' !! k = Some s) ∧
  (∀ k, k ∉ kwargs.*1 → p' !! k = p !! k).
Proof.
  revert p. induction kwargs as [|[k0 v0] rest IH]; intros p Hnd Hup.
  - injection Hup as <-. split; [|done]. intros k v Hin. by apply elem_of_nil in Hin.
  - simpl in Hup. apply result_bind_Val in Hup as (s0 & Hs0 & Hup).
    apply NoDup_cons in Hnd as [Hk0 Hnd]. simpl in Hk0.
    destruct (IH _ Hnd Hup) as [Hset Hrest]. split.
    + intros k v [[= -> ->]|Hin]%elem_of_cons.
      * exists s0. split; [done|].
        rewrite (Hrest _ Hk0). apply lookup_insert_eq.
      * destruct (Hset k v Hin) as (s & Hs & Hp').
        exists s. split; [|done].
        rewrite lookup_insert_ne in Hs; [done|].
        intros <-. apply Hk0. apply list_elem_of_fmap. by exists (k0, v).
    + intros k Hk. apply not_elem_of_cons in Hk as [Hne Hk].
      rewrite (Hrest k Hk). by apply lookup_insert_ne.
Qed.

(** A bag in which every property the update names is one the library
    makes again is left as it is. *)
Lemma update_fixed o kwargs h (p : props) :
  (∀ k v, (k, v) ∈ kwargs → ∃ s, p !! k = Some s ∧ updated o k h v (Some s) = Val s) →
  Fig.update o kwargs h p = Val p.
Proof.
  induction kwargs as [|[k0 v0] rest IH]; intros Hall; [done|].
  simpl. destruct (Hall k0 v0) as (s & Hp & Hs); [by left|].
  rewrite Hp, Hs. simpl. rewrite (insert_id _ _ _ Hp).
  apply IH. intros k v Hin. apply Hall. by right.
Qed.

Lemma update_idem o kwargs h (p p' : props) :
  idempotent_updates → NoDup kwargs.*1 →
  Fig.update o kwargs h p = Val p' → Fig.update o kwargs h p' = Val p'.
Proof.
  intros Hidem Hnd Hup. apply update_fixed. intros k v Hin.
  destruct (update_Val _ _ _ _ _ Hnd Hup) as [Hset _].
  destruct (Hset k v Hin) as (s & Hs & Hp'). exists s. split; [done|].
  by eapply Hidem.
Qed.

Lemma update_each_Val o kwargs h (ps ps' : list props) :
  Fig.update_each o kwargs h ps = Val ps' ↔
  Forall2 (λ p p', Fig.update o kwargs h p = Val p') ps ps'.
Proof.
  revert ps'. induction ps as [|p rest IH]; intros ps'; simpl.
  - split.
    + intros [= <-]. constructor.
    + by intros ->%Forall2_nil_inv_l.
  - split.
    + intros (p' & Hp & (rest' & Hrest & [= <-])%result_bind_Val)%result_bind_Val.
      constructor; [done|]. by apply IH.
    + intros (p' & rest' & Hp & Hrest & ->)%Forall2_cons_inv_l.
      rewrite Hp. simpl. apply IH in Hrest. rewrite Hrest. done.
Qed.

Lemma update_each_idem o kwargs h (ps ps' : list props) :
  idempotent_updates → NoDup kwargs.*1 →
  Fig.update_each o kwargs h ps = Val ps' → Fig.update_each o kwargs h ps' = Val ps'.
Proof.
  intros Hidem Hnd Hup%update_each_Val. apply update_each_Val.
  induction Hup as [|p p' ps ps' Hp _ IH]; constructor; [|done].
  by eapply update_idem.
Qed.

Lemma set_font_idem s (a : props) : set_font s (set_font s a) = set_font s a.
Proof. unfold set_font. by rewrite insert_insert_eq. Qed.

Lemma fmap_idem {A} (f : A → A) (l : list A) :
  (∀ x, f (f x) = f x) → f <$> (f <$> l) = f <$> l.
Proof.
  intros Hf. rewrite <- list_fmap_compose. apply list_fmap_ext. intros _ x _. apply Hf.
Qed.

Lemma set_annotation_fonts_eq self annotations h :
  set_annotation_fonts self annotations h =
    match annotations with
    | [] => Ok [] h
    | _ =>
        match self !! "subtitle_font" with
        | Some f =>
            match assigned an_annotation "font" h f with
            | Val s => Ok (set_font s <$> annotations) h
            | Err e => Raise e h
            end
        | None => Raise AttributeError h
        end
    end.
Proof.
  induction annotations as [|a rest IH]; [done|].
  simpl. unfold mbind at 1, M_bind at 1, getattr.
  destruct (self !! "subtitle_font") as [f|]; [|done].
  simpl. unfold mbind at 1, M_bind at 1, Fig.annotation_setitem.
  destruct (assigned an_annotation "font" h f) as [s|e]; [|done].
  simpl. unfold mbind, M_bind. rewrite IH. destruct rest; done.
Qed.

Lemma annotate_eq self fig h :
  annotate self fig h =
    match layout_annotations (fig_layout fig) with
    | None => Ok fig h
    | Some [] =>
        Ok (Figure (fig_yaxes fig) (fig_xaxes fig)
              (Layout (layout_props (fig_layout fig)) (Some []))) h
    | Some annotations =>
        match self !! "subtitle_font" with
        | Some f =>
            match assigned an_annotation "font" h f with
            | Val s =>
                Ok (Figure (fig_yaxes fig) (fig_xaxes fig)
                      (Layout (layout_props (fig_layout fig))
                         (Some (set_font s <$> annotations)))) h
            | Err e => Raise e h
            end
        | None => Raise AttributeError h
        end
    end.
Proof.
  unfold annotate. destruct (layout_annotations (fig_layout fig)) as [anns|]; [|done].
  unfold mbind, M_bind. rewrite set_annotation_fonts_eq.
  destruct anns; [done|]. destruct (self !! "subtitle_font"); [|done].
  by destruct (assigned _ _ _ _).
Qed.

(** [standardize], step by step: the attributes of the axes are read and
    the axes updated, then the attributes of the layout are read and the
    layout updated, then the annotations are seen to. *)
Lemma standardize_eq self fig h :
  standardize self fig h =
    match axis_args self with
    | None => Raise AttributeError h
    | Some axes =>
        match Fig.update_each y_axis axes h (fig_yaxes fig) with
        | Err e => Raise e h
        | Val yaxes =>
            match Fig.update_each x_axis axes h (fig_xaxes fig) with
            | Err e => Raise e h
            | Val xaxes =>
                match layout_args self with
                | None => Raise AttributeError h
                | Some lay =>
                    match Fig.update the_layout lay h (layout_props (fig_layout fig)) with
                    | Err e => Raise e h
                    | Val p =>
                        annotate self
                          (Figure yaxes xaxes
                             (Layout p (layout_annotations (fig_layout fig)))) h
                    end
                end
            end
        end
    end.
Proof.
  unfold standardize, axis_args, layout_args, getattr,
    Fig.update_yaxes, Fig.update_xaxes, Fig.update_layout.
  unfold mbind, M_bind, mret, M_ret, result_bind, result_ret, lift, raise.
  destruct (self !! "axis_title_font") as [atf|]; [|done].
  destruct (self !! "tick_font") as [tkf|]; [|done].
  destruct (self !! "showgrid") as [sg|]; [|done].
  destruct (self !! "gridcolor") as [gc|]; [|done].
  destruct (self !! "gridwidth") as [gw|]; [|done].
  cbn [option_bind fig_yaxes fig_xaxes fig_layout layout_props layout_annotations].
  destruct (Fig.update_each y_axis _ h (fig_yaxes fig)) as [yaxes|e]; [|done].
  cbn [option_bind fig_yaxes fig_xaxes fig_layout layout_props layout_annotations].
  destruct (Fig.update_each x_axis _ h (fig_xaxes fig)) as [xaxes|e]; [|done].
  cbn [option_bind fig_yaxes fig_xaxes fig_layout layout_props layout_annotations].
  destruct (self !! "title_font") as [tf|]; [|done].
  destruct (self !! "legend_font") as [lf|]; [|done].
  destruct (self !! "template") as [tp|]; [|done].
  destruct (self !! "height") as [hg|]; [|done].
  destruct (self !! "width") as [wd|]; [|done].
  cbn [option_bind fig_yaxes fig_xaxes fig_layout layout_props layout_annotations].
  destruct (Fig.update the_layout _ h _) as [p|e]; [|done].
  reflexivity.
Qed.

(** [standardize] leaves the heap as it is, whether it returns or raises. *)
Lemma standardize_heap_of self fig h :
  match standardize self fig h with Ok _ h' | Raise _ h' => h' = h end.
Proof.
  rewrite standardize_eq.
  destruct (axis_args self) as [axes|]; [|done].
  destruct (Fig.update_each y_axis _ _ _) as [yaxes|]; [|done].
  destruct (Fig.update_each x_axis _ _ _) as [xaxes|]; [|done].
  destruct (layout_args self) as [lay|]; [|done].
  destruct (Fig.update the_layout _ _ _) as [p|]; [|done].
  rewrite annotate_eq. simpl.
  destruct (layout_annotations _) as [[|ann anns]|]; try done.
  destruct (self !! "subtitle_font") as [f|]; [|done].
  by destruct (assigned _ _ _ _).
Qed.

Lemma standardize_heap self fig h fig' h' :
  standardize self fig h = Ok fig' h' → h' = h.
Proof. intros E. pose proof (standardize_heap_of self fig h) as Hh. by rewrite E in Hh. Qed.

(** When [standardize] returns: the three updates went through, and the
    annotations were seen to. *)
Lemma standardize_Ok self fig h fig' h' :
  standardize self fig h = Ok fig' h' ↔
  ∃ axes lay fig1,
    axis_args self = Some axes ∧ layout_args self = Some lay ∧
    restyled axes lay h fig = Val fig1 ∧ annotate self fig1 h = Ok fig' h'.
Proof.
  rewrite standardize_eq. unfold restyled. split.
  - destruct (axis_args self) as [axes|]; [|done].
    destruct (Fig.update_each y_axis _ _ _) as [yaxes|] eqn:Ey; [|done].
    destruct (Fig.update_each x_axis _ _ _) as [xaxes|] eqn:Ex; [|done].
    destruct (layout_args self) as [lay|]; [|done].
    destruct (Fig.update the_layout _ _ _) as [p|] eqn:Ep; [|done].
    intros Ha. eexists axes, lay, _. split_and!; [done|done| |exact Ha].
    rewrite Ey. simpl. rewrite Ex. simpl. rewrite Ep. reflexivity.
  - intros (axes & lay & fig1 & -> & -> & Hre & Ha).
    destruct (Fig.update_each y_axis _ _ _) as [yaxes|]; [|done].
    destruct (Fig.update_each x_axis _ _ _) as [xaxes|]; [|done].
    destruct (Fig.update the_layout _ _ _) as [p|]; [|done].
    simpl in Hre. by injection Hre as <-.
Qed.

Lemma restyled_Val axes lay h fig fig1 :
  restyled axes lay h fig = Val fig1 ↔
  Fig.update_each y_axis axes h (fig_yaxes fig) = Val (fig_yaxes fig1) ∧
  Fig.update_each x_axis axes h (fig_xaxes fig) = Val (fig_xaxes fig1) ∧
  Fig.update the_layout lay h (layout_props (fig_layout fig))
    = Val (layout_props (fig_layout fig1)) ∧
  layout_annotations (fig_layout fig1) = layout_annotations (fig_layout fig).
Proof.
  unfold restyled. split.
  - intros (ys & -> & (xs & -> & (p & -> & [= <-])%result_bind_Val)%result_bind_Val)%result_bind_Val.
    done.
  - intros (-> & -> & -> & Ha). simpl.
    destruct fig1 as [ys xs [p anns]]. simpl in *. by rewrite Ha.
Qed.

(** What [annotate] returns has the axes and the properties of the layout
    it was given. *)
Lemma annotate_Ok self fig h fig' h' :
  annotate self fig h = Ok fig' h' →
  fig_yaxes fig' = fig_yaxes fig ∧ fig_xaxes fig' = fig_xaxes fig ∧
  layout_props (fig_layout fig') = layout_props (fig_layout fig) ∧
  (layout_annotations (fig_layout fig) = None ∧ layout_annotations (fig_layout fig') = None ∨
   layout_annotations (fig_layout fig) = Some [] ∧
     layout_annotations (fig_layout fig') = Some [] ∨
   ∃ annotations f s,
     layout_annotations (fig_layout fig) = Some annotations ∧ annotations ≠ [] ∧
     self !! "subtitle_font" = Some f ∧ assigned an_annotation "font" h f = Val s ∧
     layout_annotations (fig_layout fig') = Some (set_font s <$> annotations)).
Proof.
  rewrite annotate_eq.
  destruct (layout_annotations (fig_layout fig)) as [[|a anns]|] eqn:E.
  - intros [= <- _]. simpl. split_and!; try done. right. by left.
  - destruct (self !! "subtitle_font") as [f|]; [|done].
    destruct (assigned _ _ _ _) as [s|] eqn:Es; [|done].
    intros [= <- _]. simpl. split_and!; try done. right. right.
    by exists (a :: anns), f, s.
  - intros [= <- _]. split_and!; try done. left. by rewrite E.
Qed.

(** A second run changes nothing. *)
Lemma standardize_idem self fig h fig' h' :
  idempotent_updates →
  standardize self fig h = Ok fig' h' → standardize self fig' h' = Ok fig' h'.
Proof.
  intros Hidem Hst. pose proof (standardize_heap _ _ _ _ _ Hst) as ->.
  pose proof Hst as (axes & lay & fig1 & Hax & Hlay & Hre & Han)%standardize_Ok.
  apply restyled_Val in Hre as (Hy & Hx & Hp & Hanns).
  pose proof (annotate_Ok _ _ _ _ _ Han) as (Ey & Ex & Ep & Hcases).
  apply standardize_Ok. exists axes, lay, fig'. split_and!; try done.
  - apply restyled_Val. rewrite Ey, Ex, Ep. split_and!; try done.
    + eapply update_each_idem; [done| |done].
      rewrite (axis_args_keys _ _ Hax). apply axis_keys_NoDup.
    + eapply update_each_idem; [done| |done].
      rewrite (axis_args_keys _ _ Hax). apply axis_keys_NoDup.
    + eapply update_idem; [done| |done].
      rewrite (layout_args_keys _ _ Hlay). apply layout_keys_NoDup.
  - rewrite annotate_eq.
    destruct Hcases as [[_ E]|[[_ E]|(anns & f & s & _ & Hne & Hf & Hs & E)]].
    + rewrite E. by destruct fig' as [? ? [? ?]]; simpl in *; subst.
    + rewrite E. by destruct fig' as [? ? [? ?]]; simpl in *; subst.
    + rewrite E. destruct anns as [|a anns]; [done|]. simpl.
      rewrite Hf, Hs. simpl.
      rewrite set_font_idem, (fmap_idem (set_font s)) by apply set_font_idem.
      by destruct fig' as [? ? [? ?]]; simpl in *; subst.
Qed.

(** [standardize] looks at no attribute outside [style_attrs]. *)
Lemma standardize_reads (self self' : obj) fig h :
  (∀ k, k ∈ style_attrs → self !! k = self' !! k) →
  standardize self fig h = standardize self' fig h.
Proof.
  intros Hk.
  assert (∀ k, In k style_attrs → self !! k = self' !! k) as H'.
  { intros k Hin. by apply Hk, list_elem_of_In. }
  assert (axis_args self = axis_args self') as Hax.
  { unfold axis_args.
    by rewrite !(H' "axis_title_font"), !(H' "tick_font"), !(H' "showgrid"),
      !(H' "gridcolor"), !(H' "gridwidth") by (simpl; tauto). }
  assert (layout_args self = layout_args self') as Hlay.
  { unfold layout_args.
    by rewrite !(H' "title_font"), !(H' "legend_font"), !(H' "template"),
      !(H' "height"), !(H' "width") by (simpl; tauto). }
  rewrite !standardize_eq, Hax, Hlay.
  destruct (axis_args self') as [axes|]; [|done].
  destruct (Fig.update_each y_axis _ _ _) as [yaxes|]; [|done].
  destruct (Fig.update_each x_axis _ _ _) as [xaxes|]; [|done].
  destruct (layout_args self') as [lay|]; [|done].
  destruct (Fig.update the_layout _ _ _) as [p|]; [|done].
  rewrite !annotate_eq. by rewrite (H' "subtitle_font") by (simpl; tauto).
Qed.

(** [standardize] does not look at [title_x]. *)
Lemma standardize_ext (self self' : obj) fig h :
  (∀ k, k ≠ "title_x" → self !! k = self' !! k) →
  standardize self fig h = standardize self' fig h.
Proof.
  intros Hk. apply standardize_reads. intros k Hin. apply Hk. intros ->.
  apply list_elem_of_In in Hin. simpl in Hin.
  repeat (destruct Hin as [Hin|Hin]; [discriminate Hin|]). destruct Hin.
Qed.

End Updates.

(** The updates of the sample library can be repeated. *)
Lemma sample_idempotent : @idempotent_updates Sample.library.
Proof.
  intros o k h v old s. simpl. unfold Sample.update.
  destruct (decide (Sample.is_font k)); [|done].
  intros (d & -> & [= <-])%result_bind_Val. simpl.
  by rewrite (assoc_L (∪)), (idemp_L (∪)).
Qed.

(** * The specification, claim by claim *)



Lemma int_float_trunc f n : Py.int (VFloat f) = Val (VInt n) → n = F64.trunc f.
Proof. destruct f; simpl; try discriminate; by intros [= <-]. Qed.

(** With unshared dictionaries, each derived size is [int] of the product
    of the size of its base font and its ratio, on the finished instance. *)
Lemma sizes_unshared_table kwargs h self h' t b r :
  __init__ kwargs h = Ok self h' → unshared self →
  (t, b, r) ∈ derivations →
  ∃ s ρ n,
    font_size self h' b = Some s ∧ self !! r = Some ρ ∧
    derived s ρ = Val (VInt n) ∧ font_size self h' t = Some (VInt n).
Proof.
  intros Hinit Hun Hin.
  destruct (sizes_unshared _ _ _ _ Hinit Hun)
    as (s & r1 & r2 & r3 & r4 & n1 & n2 & n3 & n4 &
        Hs & R1 & R2 & R3 & R4 & D1 & D2 & D3 & D4 & S1 & S2 & S3 & S4).
  unfold derivations in Hin.
  repeat (apply elem_of_cons in Hin as [[= -> -> ->]|Hin]);
    [| | | |by apply elem_of_nil in Hin]; eauto 10.
Qed.




(** C1, as stated, fails on two inputs.  With a title of size 25 and a
    subtitle ratio of -0.5 the subtitle size is -12, not the floor -13 of
    -12.5.  With one dictionary supplied both as [subtitle_font] and as
    [legend_font] the subtitle size is 21, the value derived for the legend,
    not floor(24 * 0.95) = 22. *)
Lemma C1_floor_and_sharing_counterexample :
  (sizes_after
     (__init__ {[ "title_font" := VRef 1%positive; "subtitle_ratio" := VFloat minus_half ]}
        heap_title_25)
     = Some [ Some (VInt 25); Some (VInt (-12)); Some (VInt 22); Some (VInt 19);
              Some (VInt 22) ]
   ∧ F64.floor (F64.mul (F64.of_Z 25) minus_half) = -13)
  ∧
  (sizes_after
     (__init__ {[ "subtitle_font" := VRef 1%positive; "legend_font" := VRef 1%positive ]} heap_plain_font)
     = Some [ Some (VInt 24); Some (VInt 21); Some (VInt 21); Some (VInt 18);
              Some (VInt 21) ]
   ∧ F64.floor (F64.mul (F64.of_Z 24) F64.lit_0_95) = 22).
Proof. vm_compute. repeat split; reflexivity. Qed.

(** C1 (amended): when no dictionary is shared between the font options,
    the title font has the integer size [s] and the four ratios are floats,
    the derived sizes are: subtitle [trunc(s * r_subtitle)], axis title
    [trunc(s * r_axis)], tick [trunc(axis * r_tick)] on the axis-title size,
    legend [trunc(s * r_legend)] on the title size.  [*] is the binary64
    product of [float(s)] and the ratio; [trunc] rounds toward zero, and is
    the floor whenever the product is not negative. *)
Theorem C1_derived_sizes kwargs h self h' s r1 r2 r3 r4 :
  __init__ kwargs h = Ok self h' →
  unshared self →
  font_size self h' "title_font" = Some (VInt s) →
  self !! "subtitle_ratio" = Some (VFloat r1) →
  self !! "axis_title_ratio" = Some (VFloat r2) →
  self !! "tick_font_ratio" = Some (VFloat r3) →
  self !! "legend_font_ratio" = Some (VFloat r4) →
  let p1 := F64.mul (F64.of_Z s) r1 in
  let p2 := F64.mul (F64.of_Z s) r2 in
  let p3 := F64.mul (F64.of_Z (F64.trunc p2)) r3 in
  let p4 := F64.mul (F64.of_Z s) r4 in
  (font_size self h' "subtitle_font" = Some (VInt (F64.trunc p1)) ∧
   font_size self h' "axis_title_font" = Some (VInt (F64.trunc p2)) ∧
   font_size self h' "tick_font" = Some (VInt (F64.trunc p3)) ∧
   font_size self h' "legend_font" = Some (VInt (F64.trunc p4))) ∧
  (F64.is_negative p1 = false → F64.trunc p1 = F64.floor p1) ∧
  (F64.is_negative p2 = false → F64.trunc p2 = F64.floor p2) ∧
  (F64.is_negative p3 = false → F64.trunc p3 = F64.floor p3) ∧
  (F64.is_negative p4 = false → F64.trunc p4 = F64.floor p4).
Proof.
  intros Hinit Hun Hs R1 R2 R3 R4 p1 p2 p3 p4.
  destruct (sizes_unshared _ _ _ _ Hinit Hun)
    as (s' & r1' & r2' & r3' & r4' & n1 & n2 & n3 & n4 &
        Hs' & R1' & R2' & R3' & R4' & D1 & D2 & D3 & D4 & S1 & S2 & S3 & S4).
  simplify_eq.
  apply derived_int_float in D1, D2, D4. simplify_eq.
  apply derived_int_float in D3. simplify_eq.
  split; [by split_and!|].
  split_and!; apply trunc_floor.
Qed.




Lemma default_instance_eq : __init__ ∅ ∅ = Ok default_self default_heap.
Proof. exact (Ok_self_heap (__init__ ∅ ∅) eq_refl). Qed.

Lemma default_unshared : unshared default_self.
Proof.
  exists 1%positive, 2%positive, 3%positive, 4%positive, 5%positive.
  split_and!; try (vm_compute; reflexivity).
  apply (bool_decide_unpack _). vm_compute. exact I.
Qed.

Lemma C1_derived_sizes_witness :
  font_size default_self default_heap "subtitle_font" = Some (VInt 22) ∧
  font_size default_self default_heap "axis_title_font" = Some (VInt 21) ∧
  font_size default_self default_heap "tick_font" = Some (VInt 18) ∧
  font_size default_self default_heap "legend_font" = Some (VInt 21).
Proof.
  refine (proj1 (C1_derived_sizes ∅ ∅ default_self default_heap 24
                   F64.lit_0_95 F64.lit_0_9 F64.lit_0_9 F64.lit_0_9 _ _ _ _ _ _ _)).
  - exact (Ok_self_heap (__init__ ∅ ∅) eq_refl).
  - exact default_unshared.
  - vm_compute. reflexivity.
  - vm_compute. reflexivity.
  - vm_compute. reflexivity.
  - vm_compute. reflexivity.
  - vm_compute. reflexivity.
Defined.

(** C2: construction with no options yields the sizes 24, 22, 21, 18 and 21
    for the title, subtitle, axis-title, tick and legend fonts, whatever the
    heap it runs on. *)
Theorem C2_default_sizes (h : heap) :
  ∃ self h',
    __init__ ∅ h = Ok self h' ∧
    font_size self h' "title_font" = Some (VInt 24) ∧
    font_size self h' "subtitle_font" = Some (VInt 22) ∧
    font_size self h' "axis_title_font" = Some (VInt 21) ∧
    font_size self h' "tick_font" = Some (VInt 18) ∧
    font_size self h' "legend_font" = Some (VInt 21).
Proof.
  destruct (init_plain ∅ h) as (self & h' & Hinit & S0 & S1 & S2 & S3 & S4 & _).
  { intros k _. apply lookup_empty. }
  exists self, h'. done.
Qed.

(** C3, as stated, fails when one dictionary is supplied both as
    [axis_title_font] and as [tick_font]: the axis-title size ends up 18,
    the value derived for the ticks, where truncating the product of its
    base size 24 and its ratio 0.9 gives 21; and the tick size 18 is not the
    truncation 16 of the final axis-title size 18 times 0.9 either. *)
Lemma C3_sharing_counterexample :
  sizes_after
    (__init__ {[ "axis_title_font" := VRef 1%positive; "tick_font" := VRef 1%positive ]}
       heap_plain_font)
    = Some [ Some (VInt 24); Some (VInt 22); Some (VInt 18); Some (VInt 18);
             Some (VInt 21) ]
  ∧ F64.trunc (F64.mul (F64.of_Z 24) F64.lit_0_9) = 21
  ∧ F64.trunc (F64.mul (F64.of_Z 18) F64.lit_0_9) = 16.
Proof. vm_compute. repeat split; reflexivity. Qed.

(** C3 (amended): when no dictionary is shared between the font options,
    each of the four derived sizes is an integer, the result of [int] on
    the product of the size of its base font and its ratio, which for a
    float product is its truncation toward zero; and [standardize] changes
    none of the font sizes of the instance. *)
Theorem C3_truncated_for_life `{Library} kwargs h self h' :
  __init__ kwargs h = Ok self h' →
  unshared self →
  (∀ t b r, (t, b, r) ∈ derivations →
     ∃ s ρ p n,
       font_size self h' b = Some s ∧ self !! r = Some ρ ∧
       Py.mul s ρ = Val p ∧ Py.int p = Val (VInt n) ∧
       (∀ f, p = VFloat f → n = F64.trunc f) ∧
       font_size self h' t = Some (VInt n)) ∧
  (∀ fig fig' h'', standardize self fig h' = Ok fig' h'' →
     ∀ k, font_size self h'' k = font_size self h' k).
Proof.
  intros Hinit Hun. split.
  - intros t b r Hin.
    destruct (sizes_unshared_table _ _ _ _ _ _ _ Hinit Hun Hin) as (s & ρ & n & Hs & Hr & Hd & Ht).
    apply derived_inv in Hd as (p & Hp & Hn).
    exists s, ρ, p, n. split_and!; try done.
    intros f ->. by apply int_float_trunc.
  - intros fig fig' h'' Hst k. by rewrite (standardize_heap _ _ _ _ _ Hst).
Qed.

Lemma C3_truncated_for_life_witness :
  ∃ s ρ p n,
    font_size default_self default_heap "axis_title_font" = Some s ∧
    default_self !! "tick_font_ratio" = Some ρ ∧
    Py.mul s ρ = Val p ∧ Py.int p = Val (VInt n) ∧
    (∀ f, p = VFloat f → n = F64.trunc f) ∧
    font_size default_self default_heap "tick_font" = Some (VInt n).
Proof.
  refine (proj1 (C3_truncated_for_life (H := Sample.library) ∅ ∅ default_self default_heap _ _)
            "tick_font" "axis_title_font" "tick_font_ratio" _).
  - exact (Ok_self_heap (__init__ ∅ ∅) eq_refl).
  - exists 1%positive, 2%positive, 3%positive, 4%positive, 5%positive.
    split_and!; try (vm_compute; reflexivity).
    apply (bool_decide_unpack _). vm_compute. exact I.
  - apply (bool_decide_unpack _). vm_compute. exact I.
Defined.


(** After construction every font attribute refers to a dictionary. *)
Lemma init_font_dict kwargs h self h' k :
  __init__ kwargs h = Ok self h' → k ∈ fonts → is_Some (font self h' k).
Proof.
  intros (lt & ls & la & lk & ll & h1 & h2 & h3 & _ & _ & _ & D1 & D2 & D3 & D4)%init_inv Hk.
  unfold font.
  pose proof D1 as (lb1 & db1 & ? & ? & ? & lt1 & dt1 & Eb1 & Hb1 & _ & _ & _ & Et1 & Ht1 & _).
  pose proof D2 as (? & ? & ? & ? & ? & lt2 & dt2 & _ & _ & _ & _ & _ & Et2 & Ht2 & _).
  pose proof D3 as (? & ? & ? & ? & ? & lt3 & dt3 & _ & _ & _ & _ & _ & Et3 & Ht3 & _).
  pose proof D4 as (? & ? & ? & ? & ? & lt4 & dt4 & _ & _ & _ & _ & _ & Et4 & Ht4 & _).
  destruct (derives_frame _ _ _ _ _ _ _ _ D1 Hb1) as (b1 & Hb1' & _).
  destruct (derives_frame _ _ _ _ _ _ _ _ D2 Hb1') as (b2 & Hb2' & _).
  destruct (derives_frame _ _ _ _ _ _ _ _ D3 Hb2') as (b3 & Hb3' & _).
  destruct (derives_frame _ _ _ _ _ _ _ _ D4 Hb3') as (b4 & Hb4' & _).
  destruct (derives_frame _ _ _ _ _ _ _ _ D1 Ht1) as (s1 & Hs1 & _).
  destruct (derives_frame _ _ _ _ _ _ _ _ D2 Hs1) as (s2 & Hs2 & _).
  destruct (derives_frame _ _ _ _ _ _ _ _ D3 Hs2) as (s3 & Hs3 & _).
  destruct (derives_frame _ _ _ _ _ _ _ _ D4 Hs3) as (s4 & Hs4 & _).
  destruct (derives_frame _ _ _ _ _ _ _ _ D2 Ht2) as (a2 & Ha2 & _).
  destruct (derives_frame _ _ _ _ _ _ _ _ D3 Ha2) as (a3 & Ha3 & _).
  destruct (derives_frame _ _ _ _ _ _ _ _ D4 Ha3) as (a4 & Ha4 & _).
  destruct (derives_frame _ _ _ _ _ _ _ _ D3 Ht3) as (k3 & Hk3 & _).
  destruct (derives_frame _ _ _ _ _ _ _ _ D4 Hk3) as (k4 & Hk4 & _).
  destruct (derives_frame _ _ _ _ _ _ _ _ D4 Ht4) as (l4 & Hl4 & _).
  unfold fonts, derived_fonts in Hk.
  repeat (apply elem_of_cons in Hk as [->|Hk]); [| | | | |by apply elem_of_nil in Hk].
  - rewrite Eb1, Hb4'. by eexists.
  - rewrite Et1, Hs4. by eexists.
  - rewrite Et2, Ha4. by eexists.
  - rewrite Et3, Hk4. by eexists.
  - rewrite Et4, Hl4. by eexists.
Qed.

(** C4: applying [standardize] twice in succession does what applying it
    once does.  When [standardize] has returned, on any instance and any
    figure, a second application to the figure it left returns that same
    figure and leaves the same heap, the heap it started from; the library
    being one whose updates can be repeated, as one that merges what it is
    handed into what is there. *)
Theorem C4_standardize_idempotent `{Library} (self : obj) fig h fig1 h1 :
  idempotent_updates →
  standardize self fig h = Ok fig1 h1 →
  h1 = h ∧ standardize self fig1 h1 = Ok fig1 h1.
Proof.
  intros Hidem Hst. split.
  - exact (standardize_heap _ _ _ _ _ Hst).
  - exact (standardize_idem _ _ _ _ _ Hidem Hst).
Qed.

Lemma C4_standardize_idempotent_witness :
  ∃ fig1 : @figure Sample.library,
    standardize default_self sample_figure default_heap = Ok fig1 default_heap ∧
    standardize default_self fig1 default_heap = Ok fig1 default_heap ∧
    (fig_yaxes fig1 !! 0%nat) ≫= (.!! "title_font") = Some (Sample.Font italic_axis_title).
Proof.
  destruct (Ok_returns (standardize (H := Sample.library)
                          default_self sample_figure default_heap))
    as (fig1 & h1 & E); [vm_compute; reflexivity|].
  destruct (C4_standardize_idempotent (H := Sample.library) _ _ _ _ _ sample_idempotent E)
    as [-> E2].
  exists fig1. split; [exact E|]. split; [exact E2|].
  change ((figure_of (Ok fig1 default_heap) ≫= λ fig, fig_yaxes fig !! 0%nat)
            ≫= (.!! "title_font") = Some (Sample.Font italic_axis_title)).
  rewrite <- E. vm_compute. reflexivity.
Defined.

(** C5: when [standardize] returns on a figure whose layout has
    annotations, the figure it leaves has as many, and each is the
    annotation that was there with its font assigned the subtitle font of
    the instance: one and the same font for all of them, every other
    property of the annotation as it was. *)
Theorem C5_annotation_fonts `{Library} (self : obj) fig h fig' h' annotations :
  standardize self fig h = Ok fig' h' →
  layout_annotations (fig_layout fig) = Some annotations →
  ∃ annotations',
    layout_annotations (fig_layout fig') = Some annotations' ∧
    length annotations' = length annotations ∧
    (annotations = [] ∨
     ∃ subtitle_font s,
       self !! "subtitle_font" = Some subtitle_font ∧
       assigned an_annotation "font" h subtitle_font = Val s ∧
       Forall (λ a, a !! "font" = Some s) annotations' ∧
       ∀ i a, annotations !! i = Some a →
              annotations' !! i = Some (<["font" := s]> a)).
Proof.
  intros (axes & lay & fig1 & _ & _ & Hre & Han)%standardize_Ok Hanns.
  apply restyled_Val in Hre as (_ & _ & _ & Hkeep).
  rewrite <- Hkeep in Hanns.
  destruct (annotate_Ok _ _ _ _ _ Han)
    as (_ & _ & _ & [[E _]|[[E E']|(anns & f & s & E & Hne & Hf & Hs & E')]]).
  - congruence.
  - rewrite E in Hanns. injection Hanns as <-.
    exists []. split_and!; [done|done|by left].
  - rewrite E in Hanns. injection Hanns as ->.
    exists (set_font s <$> annotations). split_and!; [done|apply length_fmap|].
    right. exists f, s. split_and!; try done.
    + apply Forall_fmap, Forall_true. intros a. apply lookup_insert_eq.
    + intros i a Hi. by rewrite list_lookup_fmap, Hi.
Qed.

Lemma C5_annotation_fonts_witness :
  ∃ (fig' : @figure Sample.library) annotations',
    standardize default_self sample_figure default_heap = Ok fig' default_heap ∧
    layout_annotations (fig_layout fig') = Some annotations' ∧
    length annotations' = 2%nat ∧
    Forall (λ a, a !! "font" = Some (Sample.Font default_subtitle)) annotations'.
Proof.
  destruct (Ok_returns (standardize (H := Sample.library)
                          default_self sample_figure default_heap))
    as (fig' & h' & E); [vm_compute; reflexivity|].
  pose proof (standardize_heap _ _ _ _ _ E) as ->.
  destruct (C5_annotation_fonts (H := Sample.library) _ _ _ _ _ sample_annotations E)
    as (anns' & H1 & H2 & [Hnil|(f & s & Hf & Hs & Hall & _)]).
  - reflexivity.
  - discriminate Hnil.
  - exists fig', anns'. split_and!; [exact E|exact H1|exact H2|].
    vm_compute in Hf. injection Hf as <-.
    vm_compute in Hs. injection Hs as <-.
    exact Hall.
Defined.

(** C6: two option mappings that differ in [title_x] only construct, from
    the same heap, instances that leave the same heap behind and that
    [standardize] cannot tell apart: on every figure both have the same
    outcome.  And whatever [title_x] is, the title alignment of a figure is
    after [standardize] what it was before. *)
Theorem C6_title_x_ignored `{Library} (kwargs1 kwargs2 : gmap string value) h f1 h1 fig :
  (∀ k, k ≠ "title_x" → kwargs1 !! k = kwargs2 !! k) →
  __init__ kwargs1 h = Ok f1 h1 →
  ∃ f2,
    __init__ kwargs2 h = Ok f2 h1 ∧
    standardize f1 fig h1 = standardize f2 fig h1 ∧
    ∀ fig' h', standardize f1 fig h1 = Ok fig' h' →
      layout_props (fig_layout fig') !! "title_x"
        = layout_props (fig_layout fig) !! "title_x".
Proof.
  intros Hkw Hinit.
  revert Hinit. rewrite init_unfold.
  destruct (defaults_Ok h) as (lt & ls & la & lk & ll & _ & _ & Hd).
  rewrite (bind_run _ _ _ _ _ Hd). cbv zeta.
  set (es := entries (VRef lt) (VRef ls) (VRef la) (VRef lk) (VRef ll)).
  assert (∀ k, k ≠ "title_x" →
            set_attrs kwargs1 es ∅ !! k = set_attrs kwargs2 es ∅ !! k) as Hagree.
  { intros k Hk.
    rewrite !set_attrs_lookup by (unfold es; rewrite entries_keys; apply recognized_NoDup).
    by rewrite (Hkw k Hk). }
  intros Hinit.
  apply bind_Ok in Hinit as ([] & h1' & Hsizes & Hret). injection Hret as <- <-.
  exists (set_attrs kwargs2 es ∅). split_and!.
  - rewrite init_unfold, (bind_run _ _ _ _ _ Hd). cbv zeta. fold es.
    rewrite <- (derive_sizes_ext (set_attrs kwargs1 es ∅)).
    + by rewrite (bind_run _ _ _ _ _ Hsizes).
    + intros k Hk. apply Hagree. intros ->.
      apply list_elem_of_In in Hk. simpl in Hk.
      repeat (destruct Hk as [Hk|Hk]; [discriminate Hk|]). destruct Hk.
  - by apply standardize_ext.
  - intros fig' h' (axes & lay & fig1 & _ & Hlay & Hre & Han)%standardize_Ok.
    apply restyled_Val in Hre as (_ & _ & Hp & _).
    destruct (annotate_Ok _ _ _ _ _ Han) as (_ & _ & -> & _).
    apply update_Val in Hp as [_ Hrest].
    + apply Hrest. rewrite (layout_args_keys _ _ Hlay).
      intros Hin%list_elem_of_In. simpl in Hin.
      repeat (destruct Hin as [Hin|Hin]; [discriminate Hin|]). destruct Hin.
    + rewrite (layout_args_keys _ _ Hlay). apply layout_keys_NoDup.
Qed.

Lemma C6_title_x_ignored_witness :
  ∃ f2,
    __init__ {[ "title_x" := VFloat F64.lit_0_9 ]} ∅ = Ok f2 default_heap ∧
    f2 !! "title_x" = Some (VFloat F64.lit_0_9) ∧
    standardize (H := Sample.library) default_self sample_figure default_heap
      = standardize f2 sample_figure default_heap.
Proof.
  destruct (C6_title_x_ignored (H := Sample.library)
              ∅ {[ "title_x" := VFloat F64.lit_0_9 ]} ∅
              default_self default_heap sample_figure) as (f2 & H1 & H2 & _).
  - intros k Hk. rewrite lookup_empty. symmetry. by apply lookup_singleton_ne.
  - exact (Ok_self_heap (__init__ ∅ ∅) eq_refl).
  - exists f2. split_and!; [exact H1| |exact H2].
    eapply init_font_attr; [exact H1| |apply lookup_singleton_eq].
    apply (bool_decide_unpack _). vm_compute. exact I.
Defined.

(** C7, as stated, fails: a [title_font] without a [size] entry makes the
    first size assignment raise [KeyError]. *)
Lemma C7_construction_raises_counterexample :
  raised (__init__ {[ "title_font" := VRef 1%positive ]} heap_plain_font) = Some KeyError.
Proof. vm_compute. reflexivity. Qed.

(** C7 (amended): for every options mapping, when construction returns,
    the instance has exactly the sixteen recognized attributes, each with
    the supplied value when present and with its default when absent; the
    default of a font is a new dictionary, with the entries of the default,
    size 24, family Arial, color black for the title font, and family Arial,
    color black and the derived size for the others.  A key outside the
    recognized set changes nothing: the outcome is the same with and
    without it.  Construction need not return, as the size assignments do
    no checking; from options that share no dictionary, with numbers for
    the sizes and ratios, it returns exactly when every font option is
    absent or a dictionary, the title font has a size and the four values
    [int(size * ratio)] are defined. *)
Theorem C7_options_resolved (kwargs : gmap string value) (h : heap) :
  (∀ self h', __init__ kwargs h = Ok self h' →
     dom self = list_to_set recognized ∧
     (∃ lt ls la lk ll,
        Forall (λ l, h !! l = None) [lt; ls; la; lk; ll] ∧
        ∀ k v, (k, v) ∈ entries (VRef lt) (VRef ls) (VRef la) (VRef lk) (VRef ll) →
               self !! k = Some (default v (kwargs !! k))) ∧
     (options_in kwargs h →
        (kwargs !! "title_font" = None →
           font self h' "title_font" = Some default_title_font) ∧
        (∀ k, k ∈ derived_fonts → kwargs !! k = None →
           ∃ n : Z, font self h' k = Some (<["size" := VInt n]> default_font)))) ∧
  (∀ k v, k ∉ recognized → __init__ (<[k := v]> kwargs) h = __init__ kwargs h) ∧
  (options_in kwargs h → fonts_apart kwargs → sizes_are_numbers kwargs h →
     ((∃ self h', __init__ kwargs h = Ok self h') ↔ derivable kwargs h)).
Proof.
  split_and!.
  - intros self h' Hinit. split_and!.
    + by eapply init_dom.
    + pose proof Hinit
        as (lt & ls & la & lk & ll & h1 & h2 & h3 & _ & Hfresh & -> & _)%init_inv.
      exists lt, ls, la, lk, ll. split; [done|].
      intros k v Hin. by apply set_attrs_entries.
    + intros Hwf. split.
      * intros Hkw. by eapply init_default_title.
      * intros k Hk Hkw. by eapply init_default_derived.
  - intros k v Hk. apply init_agree. intros k' Hk'.
    apply lookup_insert_ne. by intros ->.
  - intros Hwf Hapart _. split.
    + intros (self & h' & Hinit). by eapply init_derivable.
    + intros (dt & s & n1 & n2 & n3 & n4 & Ot & Hfonts & Hs & V1 & V2 & V3 & V4).
      destruct (Hfonts "subtitle_font") as [ds Os]; [apply list_elem_of_In; simpl; tauto|].
      destruct (Hfonts "axis_title_font") as [da Oa]; [apply list_elem_of_In; simpl; tauto|].
      destruct (Hfonts "tick_font") as [dk Ok']; [apply list_elem_of_In; simpl; tauto|].
      destruct (Hfonts "legend_font") as [dl Ol]; [apply list_elem_of_In; simpl; tauto|].
      destruct (construction_apart kwargs h dt ds da dk dl s n1 n2 n3 n4
                  Hapart Ot Os Oa Ok' Ol Hs V1 V2 V3 V4) as (self & h' & Hinit & _).
      by exists self, h'.
Qed.

Lemma C7_options_resolved_witness :
  __init__ {[ "colour" := VStr "red" ]} ∅ = __init__ ∅ ∅ ∧
  font default_self default_heap "title_font" = Some default_title_font ∧
  ∃ self h', __init__ kwargs_two_fonts heap_two_fonts = Ok self h'.
Proof.
  split_and!.
  - destruct (C7_options_resolved ∅ ∅) as (_ & Hignored & _).
    apply (Hignored "colour" (VStr "red")).
    apply (bool_decide_unpack _). vm_compute. exact I.
  - destruct (C7_options_resolved ∅ ∅) as (Hres & _ & _).
    destruct (Hres default_self default_heap) as (_ & _ & Hdef).
    { exact (Ok_self_heap (__init__ ∅ ∅) eq_refl). }
    apply Hdef; [|apply lookup_empty].
    intros k l Hk. by rewrite lookup_empty in Hk.
  - destruct (C7_options_resolved kwargs_two_fonts heap_two_fonts) as (_ & _ & Hiff).
    apply Hiff.
    + intros k l Hk. unfold kwargs_two_fonts in Hk.
      apply lookup_insert_Some in Hk as [[<- [= <-]]|[_ Hk]]; [by eexists|].
      apply lookup_insert_Some in Hk as [[<- [= <-]]|[_ Hk]]; [by eexists|].
      apply lookup_singleton_Some in Hk as [_ [=]].
    + intros k1 k2 l Hk1 Hk2 Hne E1 E2.
      apply list_elem_of_In in Hk1, Hk2. simpl in Hk1, Hk2.
      destruct Hk1 as [<-|[<-|[<-|[<-|[<-|[]]]]]];
        destruct Hk2 as [<-|[<-|[<-|[<-|[<-|[]]]]]]; try done;
        vm_compute in E1; try discriminate E1;
        vm_compute in E2; try discriminate E2; congruence.
    + split.
      * intros k v Hk Hv. apply list_elem_of_In in Hk. simpl in Hk.
        destruct Hk as [<-|[<-|[<-|[<-|[]]]]]; vm_compute in Hv;
          try discriminate Hv. by injection Hv as <-.
      * intros l d s Hl Hd Hs. vm_compute in Hl. injection Hl as <-.
        pose proof (font_size_lookup {[ "title_font" := VRef 1%positive ]} heap_two_fonts
                      "title_font" 1%positive d s (lookup_singleton_eq _ _) Hd Hs) as E.
        assert (Some s = Some (VInt 40)) as [= ->]; [|exact I].
        rewrite <- E. apply (bool_decide_unpack _). vm_compute. exact I.
    + exists {[ "size" := VInt 40; "family" := VStr "Times" ]}, (VInt 40), 38, 36, 18, 36.
      split_and!; try (apply (bool_decide_unpack _); vm_compute; exact I);
        try (vm_compute; reflexivity).
      intros k Hk. apply list_elem_of_In in Hk. simpl in Hk.
      destruct Hk as [<-|[<-|[<-|[<-|[]]]]];
        apply (bool_decide_unpack _); vm_compute; exact I.
Defined.

(** C8, as stated, fails when the supplied dictionary is shared: passed as
    [subtitle_font] and as [tick_font], it ends with size 18, the value
    derived for the ticks, which is neither the size 99 it was supplied with
    nor the value 22 derived for the subtitle from the title size 24 and the
    ratio 0.95. *)
Lemma C8_sharing_counterexample :
  sizes_after
    (__init__ {[ "subtitle_font" := VRef 1%positive; "tick_font" := VRef 1%positive ]}
       heap_supplied_font)
    = Some [ Some (VInt 24); Some (VInt 18); Some (VInt 21); Some (VInt 18);
             Some (VInt 21) ]
  ∧ F64.trunc (F64.mul (F64.of_Z 24) F64.lit_0_95) = 22.
Proof. vm_compute. split; reflexivity. Qed.

(** C8 (amended): when the caller supplies one of the four derived fonts as
    a dictionary, the instance keeps that dictionary and its [size] entry
    is overwritten with an integer, every other entry, family and color
    among them, staying as supplied.  When no dictionary is shared between
    the font options this integer is the derived one: [int] of the product
    of the size of the base font and the ratio of that font, which for an
    integer size and a float ratio is the truncation of their binary64
    product.  And the size the dictionary was supplied with is never read:
    with any other value in its place construction returns the same
    instance and the same heap (unless the dictionary is the title font as
    well, whose size is the input of the derivation). *)
Theorem C8_supplied_size_overwritten kwargs h self h' k l d :
  k ∈ derived_fonts →
  kwargs !! k = Some (VRef l) →
  h !! l = Some d →
  __init__ kwargs h = Ok self h' →
  self !! k = Some (VRef l) ∧
  (∃ n d', h' !! l = Some d' ∧ d' = <["size" := VInt n]> d ∧
           d' !! "family" = d !! "family" ∧ d' !! "color" = d !! "color" ∧
           (unshared self →
            ∃ b r s ρ,
              (k, b, r) ∈ derivations ∧ font_size self h' b = Some s ∧
              self !! r = Some ρ ∧ derived s ρ = Val (VInt n) ∧
              ∀ z f, s = VInt z → ρ = VFloat f →
                     n = F64.trunc (F64.mul (F64.of_Z z) f))) ∧
  (kwargs !! "title_font" ≠ Some (VRef l) →
   ∀ v, __init__ kwargs (<[l := <["size" := v]> d]> h) = Ok self h').
Proof.
  intros Hk Hkw Hl Hinit.
  assert (self !! k = Some (VRef l)) as Hself.
  { eapply init_font_attr; [done| |done]. by apply derived_fonts_recognized. }
  split_and!.
  - exact Hself.
  - destruct (init_resized _ _ _ _ _ _ _ Hinit Hk Hkw Hl) as (d' & Hd' & n & ->).
    exists n, (<["size" := VInt n]> d).
    split_and!; try done; try (by rewrite lookup_insert_ne).
    intros Hun.
    assert (∃ b r, (k, b, r) ∈ derivations) as (b & r & Hin).
    { unfold derived_fonts in Hk.
      repeat (apply elem_of_cons in Hk as [->|Hk]); [| | | |by apply elem_of_nil in Hk];
        eexists _, _; apply list_elem_of_In; simpl; eauto 10. }
    destruct (sizes_unshared_table _ _ _ _ _ _ _ Hinit Hun Hin)
      as (s & ρ & n' & Hs & Hr & Hd & Ht).
    assert (font_size self h' k = Some (VInt n)) as Hfs.
    { unfold font_size, font. rewrite Hself, Hd'. simpl. apply lookup_insert_eq. }
    rewrite Hfs in Ht. injection Ht as <-.
    exists b, r, s, ρ. split_and!; try done.
    intros z f -> ->. apply derived_int_float in Hd. by injection Hd.
  - intros Htitle v. by eapply init_supplied_size.
Qed.

Lemma C8_supplied_size_overwritten_witness :
  let kwargs : gmap string value := {[ "subtitle_font" := VRef 1%positive ]} in
  let o := __init__ kwargs heap_supplied_font in
  o = Ok (self_of o) (heap_of o) ∧
  heap_of o !! 1%positive = Some (<["size" := VInt 22]> supplied_font) ∧
  22 = F64.trunc (F64.mul (F64.of_Z 24) F64.lit_0_95) ∧
  __init__ kwargs
    (<[1%positive := <["size" := VStr "huge"]> supplied_font]> heap_supplied_font) = o.
Proof.
  intros kwargs o.
  assert (o = Ok (self_of o) (heap_of o)) as Hinit
    by (apply Ok_self_heap; vm_compute; reflexivity).
  destruct (C8_supplied_size_overwritten kwargs heap_supplied_font (self_of o) (heap_of o)
              "subtitle_font" 1%positive supplied_font)
    as (Hself & (n & d' & Hd' & -> & _ & _ & Hpin) & Hany).
  - apply (bool_decide_unpack _). vm_compute. exact I.
  - reflexivity.
  - reflexivity.
  - exact Hinit.
  - assert (n = 22) as ->.
    { assert (font_size (self_of o) (heap_of o) "subtitle_font" = Some (VInt 22)) as E
        by (apply (bool_decide_unpack _); vm_compute; exact I).
      unfold font_size, font in E. rewrite Hself, Hd' in E. simpl in E.
      rewrite lookup_insert_eq in E. by injection E. }
    split_and!.
    + exact Hinit.
    + exact Hd'.
    + vm_compute. reflexivity.
    + transitivity (Ok (self_of o) (heap_of o)); [|symmetry; exact Hinit].
      apply Hany. discriminate.
Defined.


(** C9: a supplied font dictionary replaces the default one as a whole.
    The instance refers to the supplied dictionary, which after construction
    has the keys it was supplied with and [size], with every entry but
    [size] as supplied: a family or a color that the caller left out is
    still missing.  For the title font the keys are those supplied. *)
Theorem C9_fonts_not_merged kwargs h self h' k l d :
  k ∈ fonts →
  kwargs !! k = Some (VRef l) →
  h !! l = Some d →
  __init__ kwargs h = Ok self h' →
  self !! k = Some (VRef l) ∧
  ∃ d', h' !! l = Some d' ∧
        dom d' = dom d ∪ {["size"]} ∧
        (∀ key, key ≠ "size" → d' !! key = d !! key) ∧
        (d !! "family" = None → d' !! "family" = None) ∧
        (d !! "color" = None → d' !! "color" = None) ∧
        (k = "title_font" → dom d' = dom d).
Proof.
  intros Hk Hkw Hl Hinit.
  assert (self !! k = Some (VRef l)) as Hself.
  { eapply init_font_attr; [done| |done]. by apply fonts_recognized. }
  split; [done|].
  destruct (init_frame _ _ _ _ _ _ Hinit Hl) as (d' & Hd' & Hkept).
  exists d'. split; [done|].
  assert (∀ key, key ≠ "size" → d' !! key = d !! key) as Hother.
  { intros key Hne. by apply resized_other_keys. }
  assert (k = "title_font" → is_Some (d !! "size")) as Hsize.
  { intros ->.
    apply init_inv in Hinit
      as (lt & ls & la & lk & ll & h1 & h2 & h3 & _ & Hfresh & _ & D1 & _).
    destruct D1 as (lb & db & s & ? & ? & ? & ? & Eb & Hb & Hs & _).
    rewrite Hself in Eb. injection Eb as <-.
    rewrite (with_defaults_lookup _ _ _ _ _ _ _ _ Hfresh Hl) in Hb.
    injection Hb as <-. by eexists. }
  assert (dom d' = dom d ∪ {["size"]}) as Hdom.
  { unfold fonts in Hk. apply elem_of_cons in Hk as [->|Hk].
    - destruct Hkept as [->|R]; [|by apply resized_dom].
      symmetry. by apply dom_with_size, Hsize.
    - destruct (init_resized _ _ _ _ _ _ _ Hinit Hk Hkw Hl) as (d'' & Hd'' & R).
      simplify_eq. by apply resized_dom. }
  split_and!; try done.
  - intros Hf. by rewrite Hother.
  - intros Hc. by rewrite Hother.
  - intros Ht. rewrite Hdom. by apply dom_with_size, Hsize.
Qed.

Lemma C9_fonts_not_merged_witness :
  let kwargs : gmap string value := {[ "title_font" := VRef 1%positive ]} in
  let o := __init__ kwargs heap_title_30 in
  ∃ d',
    o = Ok (self_of o) (heap_of o) ∧
    self_of o !! "title_font" = Some (VRef 1%positive) ∧
    heap_of o !! 1%positive = Some d' ∧
    d' !! "family" = None ∧ d' !! "color" = None ∧
    dom d' = dom ({[ "size" := VInt 30 ]} : dict).
Proof.
  intros kwargs o.
  assert (o = Ok (self_of o) (heap_of o)) as Hinit
    by (apply Ok_self_heap; vm_compute; reflexivity).
  destruct (C9_fonts_not_merged kwargs heap_title_30 (self_of o) (heap_of o)
              "title_font" 1%positive {[ "size" := VInt 30 ]})
    as (Hself & d' & Hd' & _ & _ & Hfam & Hcol & Hdom).
  - apply (bool_decide_unpack _). vm_compute. exact I.
  - reflexivity.
  - reflexivity.
  - exact Hinit.
  - exists d'. split_and!.
    + exact Hinit.
    + exact Hself.
    + exact Hd'.
    + apply Hfam. reflexivity.
    + apply Hcol. reflexivity.
    + apply Hdom. reflexivity.
Defined.



(** * Further properties of the constructor *)

Lemma bind_Raise {A B} (m : M A) (k : A → M B) h e h1 :
  m h = Raise e h1 → (m ≫= k) h = Raise e h1.
Proof. unfold mbind, M_bind. by intros ->. Qed.

(** A size assignment either runs to its end or raises with the heap as it
    found it. *)
Lemma derive_size_cases self target base ratio h :
  (∃ h', derive_size self target base ratio h = Ok () h' ∧
         derives self target base ratio h h') ∨
  (∃ e, derive_size self target base ratio h = Raise e h).
Proof.
  destruct (derive_size self target base ratio h) as [[] h'|e h'] eqn:E.
  - left. exists h'. split; [done|]. by apply derive_size_Ok.
  - right. exists e. f_equal. revert E.
    unfold derive_size, getattr, Py.getitem, Py.setitem, lift, mbind, M_bind, raise, mret, M_ret.
    repeat case_match; intros; simplify_eq; done.
Qed.

Lemma evolved_refl h : evolved h h.
Proof. intros l d Hl. exists d. split; [done|by left]. Qed.

Lemma evolved_trans h1 h2 h3 : evolved h1 h2 → evolved h2 h3 → evolved h1 h3.
Proof.
  intros H12 H23 l d Hl.
  destruct (H12 l d Hl) as (d2 & Hl2 & K2).
  destruct (H23 l d2 Hl2) as (d3 & Hl3 & K3).
  exists d3. split; [done|]. by eapply kept_or_resized_trans.
Qed.

Lemma derives_evolved self target base ratio h h' :
  derives self target base ratio h h' → evolved h h'.
Proof. intros D l d Hl. by eapply derives_frame. Qed.

Lemma with_defaults_evolved lt ls la lk ll h :
  Forall (λ l, h !! l = None) [lt; ls; la; lk; ll] →
  evolved h (with_defaults lt ls la lk ll h).
Proof.
  intros Hf l d Hl. exists d. split; [|by left]. by apply with_defaults_lookup.
Qed.

(** The four size assignments, run to their end or to the first that
    raises: the heap they leave has evolved from the one they found. *)
Lemma derive_sizes_evolved self h :
  ∃ h', evolved h h' ∧
        (derive_sizes self h = Ok () h' ∨ ∃ e, derive_sizes self h = Raise e h').
Proof.
  unfold derive_sizes.
  destruct (derive_size_cases self "subtitle_font" "title_font" "subtitle_ratio" h)
    as [(h1 & E1 & D1)|(e & E1)].
  2: { exists h. split; [apply evolved_refl|]. right. exists e. by apply bind_Raise. }
  rewrite (bind_run _ _ _ _ _ E1).
  destruct (derive_size_cases self "axis_title_font" "title_font" "axis_title_ratio" h1)
    as [(h2 & E2 & D2)|(e & E2)].
  2: { exists h1. split; [by eapply derives_evolved|]. right. exists e. by apply bind_Raise. }
  rewrite (bind_run _ _ _ _ _ E2).
  destruct (derive_size_cases self "tick_font" "axis_title_font" "tick_font_ratio" h2)
    as [(h3 & E3 & D3)|(e & E3)].
  2: { exists h2. split; [|right; exists e; by apply bind_Raise].
       apply (evolved_trans _ h1); by eapply derives_evolved. }
  rewrite (bind_run _ _ _ _ _ E3).
  destruct (derive_size_cases self "legend_font" "title_font" "legend_font_ratio" h3)
    as [(h4 & E4 & D4)|(e & E4)].
  - exists h4. split; [|by left].
    apply (evolved_trans _ h1); [by eapply derives_evolved|].
    apply (evolved_trans _ h2); [by eapply derives_evolved|].
    apply (evolved_trans _ h3); by eapply derives_evolved.
  - exists h3. split; [|right; by exists e].
    apply (evolved_trans _ h1); [by eapply derives_evolved|].
    apply (evolved_trans _ h2); by eapply derives_evolved.
Qed.

(** X1: whether construction returns or raises, every dictionary the caller
    had is still there afterwards, as it was or with an integer written to
    its [size] entry; no other entry is added, removed or changed. *)
Theorem X1_caller_dictionaries_survive kwargs h l d :
  h !! l = Some d →
  ∃ d', heap_of (__init__ kwargs h) !! l = Some d' ∧
        (d' = d ∨ ∃ n : Z, d' = <["size" := VInt n]> d).
Proof.
  intros Hl. rewrite init_unfold.
  destruct (defaults_Ok h) as (lt & ls & la & lk & ll & _ & Hfresh & Hd).
  rewrite (bind_run _ _ _ _ _ Hd). cbv zeta.
  set (self := set_attrs kwargs _ ∅).
  destruct (derive_sizes_evolved self (with_defaults lt ls la lk ll h)) as (h' & Hev & Hrun).
  assert (evolved h h') as Hev'.
  { eapply evolved_trans; [by apply with_defaults_evolved|done]. }
  destruct (Hev' l d Hl) as (d' & Hl' & K).
  exists d'. split; [|exact K].
  destruct Hrun as [E|[e E]].
  - by rewrite (bind_run _ _ _ _ _ E).
  - by rewrite (bind_Raise _ _ _ _ _ E).
Qed.

Lemma X1_caller_dictionaries_survive_witness :
  raised (__init__ kwargs_bad_legend heap_supplied_font) = Some TypeError ∧
  ∃ d', heap_of (__init__ kwargs_bad_legend heap_supplied_font) !! 1%positive = Some d' ∧
        (d' = supplied_font ∨ ∃ n : Z, d' = <["size" := VInt n]> supplied_font).
Proof.
  split; [vm_compute; reflexivity|].
  apply (X1_caller_dictionaries_survive kwargs_bad_legend heap_supplied_font 1%positive).
  reflexivity.
Defined.

Lemma init_other kwargs h self h' l d :
  __init__ kwargs h = Ok self h' →
  h !! l = Some d →
  (∀ k, k ∈ derived_fonts → self !! k ≠ Some (VRef l)) →
  h' !! l = Some d.
Proof.
  intros (lt & ls & la & lk & ll & h1 & h2 & h3 & _ & Hfresh & _ & D1 & D2 & D3 & D4)%init_inv
    Hl Hne.
  rewrite (derives_other _ _ _ _ _ _ _ D4), (derives_other _ _ _ _ _ _ _ D3),
    (derives_other _ _ _ _ _ _ _ D2), (derives_other _ _ _ _ _ _ _ D1);
    [by apply with_defaults_lookup|..];
    apply Hne; apply list_elem_of_In; simpl; tauto.
Qed.

(** X2: a construction that returns has written to the dictionaries of its
    four derived fonts only: a dictionary of the caller that none of these
    attributes refers to is exactly as it was, the title font included. *)
Theorem X2_writes_derived_fonts_only kwargs h self h' l d :
  __init__ kwargs h = Ok self h' →
  h !! l = Some d →
  (∀ k, k ∈ derived_fonts → self !! k ≠ Some (VRef l)) →
  h' !! l = Some d.
Proof.
  intros Hinit Hl Hne.
  apply init_inv in Hinit
    as (lt & ls & la & lk & ll & h1 & h2 & h3 & _ & Hfresh & _ & D1 & D2 & D3 & D4).
  assert (∀ k, In k derived_fonts → self !! k ≠ Some (VRef l)) as Hne'.
  { intros k Hk. by apply Hne, list_elem_of_In. }
  rewrite (derives_other _ _ _ _ _ _ _ D4) by (apply Hne'; simpl; tauto).
  rewrite (derives_other _ _ _ _ _ _ _ D3) by (apply Hne'; simpl; tauto).
  rewrite (derives_other _ _ _ _ _ _ _ D2) by (apply Hne'; simpl; tauto).
  rewrite (derives_other _ _ _ _ _ _ _ D1) by (apply Hne'; simpl; tauto).
  by apply with_defaults_lookup.
Qed.

Lemma X2_writes_derived_fonts_only_witness :
  let o := __init__ {[ "title_font" := VRef 1%positive ]} heap_title_30 in
  heap_of o !! 1%positive = Some {[ "size" := VInt 30 ]}.
Proof.
  intros o.
  apply (X2_writes_derived_fonts_only {[ "title_font" := VRef 1%positive ]} heap_title_30
           (self_of o) (heap_of o) 1%positive).
  - apply Ok_self_heap. vm_compute. reflexivity.
  - reflexivity.
  - intros k Hk. apply list_elem_of_In in Hk. simpl in Hk.
    destruct Hk as [<-|[<-|[<-|[<-|[]]]]]; vm_compute; discriminate.
Defined.

(** X3: a font option that is not supplied gets a dictionary of its own:
    one that did not exist before the call, that exists after it, and that
    no other font attribute of the instance refers to (the supplied
    references being references to dictionaries of the caller). *)
Theorem X3_default_fonts_are_new kwargs h self h' k :
  (∀ k' l', kwargs !! k' = Some (VRef l') → is_Some (h !! l')) →
  k ∈ fonts → kwargs !! k = None →
  __init__ kwargs h = Ok self h' →
  ∃ l, self !! k = Some (VRef l) ∧ h !! l = None ∧ is_Some (h' !! l) ∧
       ∀ k', k' ∈ fonts → k' ≠ k → self !! k' ≠ Some (VRef l).
Proof.
  intros Hwf Hk Hkw Hinit.
  destruct (init_default_font _ _ _ _ _ Hinit Hk Hkw) as (l & Hself & Hl).
  exists l. split_and!; try done.
  - destruct (init_font_dict _ _ _ _ _ Hinit Hk) as [d Hd].
    unfold font in Hd. rewrite Hself in Hd. by eexists.
  - intros k' Hk' Hne.
    exact (init_default_font_own _ _ _ _ k k' l Hinit Hk Hk' Hne Hkw (Hwf k') Hself).
Qed.

Lemma X3_default_fonts_are_new_witness :
  let kwargs : gmap string value := {[ "subtitle_font" := VRef 1%positive ]} in
  let o := __init__ kwargs heap_supplied_font in
  ∃ l, self_of o !! "legend_font" = Some (VRef l) ∧ heap_supplied_font !! l = None ∧
       is_Some (heap_of o !! l) ∧ self_of o !! "subtitle_font" ≠ Some (VRef l).
Proof.
  intros kwargs o.
  destruct (X3_default_fonts_are_new kwargs heap_supplied_font (self_of o) (heap_of o)
              "legend_font") as (l & H1 & H2 & H3 & H4).
  - intros k' l' Hk'. unfold kwargs in Hk'.
    destruct (decide (k' = "subtitle_font")) as [->|Hne].
    + rewrite lookup_singleton_eq in Hk'. injection Hk' as <-. by eexists.
    + by rewrite lookup_singleton_ne in Hk'.
  - apply (bool_decide_unpack _). vm_compute. exact I.
  - reflexivity.
  - apply Ok_self_heap. vm_compute. reflexivity.
  - exists l. split_and!; try assumption.
    apply H4; [|discriminate]. apply (bool_decide_unpack _). vm_compute. exact I.
Defined.

(** X4: instances do not interfere.  Constructing a second instance, from
    options that do not hand it a font dictionary of the first as a derived
    font, leaves every font dictionary of the first as it was. *)
Theorem X4_instances_independent kwargs1 kwargs2 h f1 h1 f2 h2 :
  __init__ kwargs1 h = Ok f1 h1 →
  __init__ kwargs2 h1 = Ok f2 h2 →
  (∀ k k1 l, k ∈ derived_fonts → k1 ∈ fonts →
             kwargs2 !! k = Some (VRef l) → f1 !! k1 ≠ Some (VRef l)) →
  ∀ k1, k1 ∈ fonts → font f1 h2 k1 = font f1 h1 k1.
Proof.
  intros Hinit1 Hinit2 Hapart k1 Hk1.
  destruct (init_font_dict _ _ _ _ _ Hinit1 Hk1) as [d Hd].
  unfold font in *. destruct (f1 !! k1) as [[| | | | |l]|] eqn:E1; try done.
  rewrite Hd. eapply init_other; [exact Hinit2|exact Hd|].
  intros k Hk Hf2.
  assert (k ∈ fonts) as Hk' by (unfold fonts; by apply elem_of_cons; right).
  destruct (kwargs2 !! k) as [v|] eqn:Ekw.
  - assert (f2 !! k = Some v) as Hv.
    { eapply init_font_attr; [exact Hinit2| |done]. by apply derived_fonts_recognized. }
    rewrite Hv in Hf2. injection Hf2 as ->.
    by eapply (Hapart k k1 l).
  - destruct (init_default_font _ _ _ _ _ Hinit2 Hk' Ekw) as (l' & Hl' & Hnone).
    rewrite Hl' in Hf2. injection Hf2 as ->. congruence.
Qed.

Lemma X4_instances_independent_witness :
  let o1 := __init__ ∅ ∅ in
  let o2 := __init__ {[ "title_font" := VRef 2%positive ]} (heap_of o1) in
  font (self_of o1) (heap_of o2) "subtitle_font" = font (self_of o1) (heap_of o1) "subtitle_font".
Proof.
  intros o1 o2.
  apply (X4_instances_independent ∅ {[ "title_font" := VRef 2%positive ]} ∅
           (self_of o1) (heap_of o1) (self_of o2) (heap_of o2)).
  - apply Ok_self_heap. vm_compute. reflexivity.
  - apply Ok_self_heap. vm_compute. reflexivity.
  - intros k k1 l Hk _ Hkw. exfalso. clear -Hk Hkw.
    apply list_elem_of_In in Hk. simpl in Hk.
    destruct Hk as [<-|[<-|[<-|[<-|[]]]]]; vm_compute in Hkw; discriminate.
  - apply (bool_decide_unpack _). vm_compute. exact I.
Defined.

(** X5: a font option that is supplied with anything but a dictionary
    ([None], a number, a string) makes construction raise. *)
Theorem X5_font_must_be_dictionary kwargs h k v :
  k ∈ fonts → kwargs !! k = Some v → (∀ l, v ≠ VRef l) →
  ∃ e h', __init__ kwargs h = Raise e h'.
Proof.
  intros Hk Hkw Hv.
  destruct (__init__ kwargs h) as [self h'|e h'] eqn:Hinit; [|eauto].
  exfalso.
  assert (self !! k = Some v) as Hself.
  { eapply init_font_attr; [done| |done]. by apply fonts_recognized. }
  destruct (init_font_dict _ _ _ _ _ Hinit Hk) as [d Hd].
  unfold font in Hd. rewrite Hself in Hd.
  destruct v; try done. by eapply Hv.
Qed.

Lemma X5_font_must_be_dictionary_witness :
  ∃ e h', __init__ {[ "tick_font" := VStr "Arial" ]} ∅ = Raise e h'.
Proof.
  apply (X5_font_must_be_dictionary _ _ "tick_font" (VStr "Arial")).
  - apply (bool_decide_unpack _). vm_compute. exact I.
  - reflexivity.
  - discriminate.
Defined.

Lemma mul_infinity x b :
  ∃ b', F64.mul x (S754_infinity b) = S754_infinity b' ∨ F64.mul x (S754_infinity b) = S754_nan.
Proof.
  destruct x as [s|s| |s m e]; unfold F64.mul; simpl.
  - exists false. by right.
  - exists (xorb s b). by left.
  - exists false. by right.
  - exists (xorb s b). by left.
Qed.

Lemma mul_nan x : F64.mul x S754_nan = S754_nan.
Proof. by destruct x. Qed.

Lemma int_non_finite b : Py.int (VFloat (S754_infinity b)) = Err OverflowError.
Proof. done. Qed.

(** No size can be derived from a bad ratio, whatever the base size. *)
Lemma derived_bad_ratio s r v : bad_ratio r → derived s r ≠ Val v.
Proof.
  unfold derived, mbind, result_bind.
  destruct r as [| | |[b|b| |b m e]| |]; simpl; try done; intros _.
  - by destruct s.
  - destruct s as [| |z|x| |]; simpl; try done.
    + unfold Py.float_of_int. destruct (F64.of_Z _) as [| | |] eqn:E; simpl; try done.
      all: match goal with |- context [F64.mul ?x ?y] =>
             destruct (mul_infinity x b) as [b' [-> | ->]] end; done.
    + unfold Py.float_of_int. destruct (F64.of_Z z) as [| | |] eqn:E; simpl; try done.
      all: match goal with |- context [F64.mul ?x ?y] =>
             destruct (mul_infinity x b) as [b' [-> | ->]] end; done.
    + destruct (mul_infinity x b) as [b' [-> | ->]]; done.
  - destruct s as [| |z|x| |]; simpl; try done.
    + unfold Py.float_of_int. destruct (F64.of_Z _) as [| | |] eqn:E; simpl; try done.
      all: by rewrite mul_nan.
    + unfold Py.float_of_int. destruct (F64.of_Z z) as [| | |] eqn:E; simpl; try done.
      all: by rewrite mul_nan.
    + by rewrite mul_nan.
Qed.

Lemma ratios_recognized k : k ∈ ratios → k ∈ recognized.
Proof.
  intros H%list_elem_of_In. apply list_elem_of_In.
  simpl in *. tauto.
Qed.

(** X6: a ratio that is [None], an infinite float or a NaN makes
    construction raise, whatever the fonts and the title size are. *)
Theorem X6_bad_ratio_raises kwargs h k r :
  k ∈ ratios → kwargs !! k = Some r → bad_ratio r →
  ∃ e h', __init__ kwargs h = Raise e h'.
Proof.
  intros Hk Hkw Hbad.
  destruct (__init__ kwargs h) as [self h'|e h'] eqn:Hinit; [|eauto].
  exfalso.
  assert (self !! k = Some r) as Hself.
  { eapply init_font_attr; [done| |done]. by apply ratios_recognized. }
  apply init_Ok in Hinit as (defs & h0 & h1 & h2 & h3 & _ & _ & D1 & D2 & D3 & D4).
  destruct D1 as (? & ? & s1 & r1 & n1 & ? & ? & _ & _ & _ & R1 & V1 & _).
  destruct D2 as (? & ? & s2 & r2 & n2 & ? & ? & _ & _ & _ & R2 & V2 & _).
  destruct D3 as (? & ? & s3 & r3 & n3 & ? & ? & _ & _ & _ & R3 & V3 & _).
  destruct D4 as (? & ? & s4 & r4 & n4 & ? & ? & _ & _ & _ & R4 & V4 & _).
  apply list_elem_of_In in Hk. simpl in Hk.
  destruct Hk as [<-|[<-|[<-|[<-|[]]]]].
  - rewrite Hself in R1. injection R1 as <-. by eapply derived_bad_ratio.
  - rewrite Hself in R2. injection R2 as <-. by eapply derived_bad_ratio.
  - rewrite Hself in R3. injection R3 as <-. by eapply derived_bad_ratio.
  - rewrite Hself in R4. injection R4 as <-. by eapply derived_bad_ratio.
Qed.

Lemma X6_bad_ratio_raises_witness :
  ∃ e h', __init__ {[ "legend_font_ratio" := VFloat S754_nan ]} ∅ = Raise e h'.
Proof.
  apply (X6_bad_ratio_raises _ _ "legend_font_ratio" (VFloat S754_nan)).
  - apply (bool_decide_unpack _). vm_compute. exact I.
  - reflexivity.
  - exact I.
Defined.

(** X7: the title font is looked at before anything is written.  Supplied
    as something that is no dictionary it makes construction raise
    [TypeError], as a dictionary without [size] it makes it raise
    [KeyError], and in both cases every dictionary of the caller is exactly
    as it was. *)
Theorem X7_title_font_checked_first kwargs h v e :
  kwargs !! "title_font" = Some v →
  title_error h v = Some e →
  ∃ h', __init__ kwargs h = Raise e h' ∧ ∀ l d, h !! l = Some d → h' !! l = Some d.
Proof.
  intros Hkw Herr. rewrite init_unfold.
  destruct (defaults_Ok h) as (lt & ls & la & lk & ll & _ & Hfresh & Hd).
  rewrite (bind_run _ _ _ _ _ Hd). cbv zeta.
  destruct (attrs_fonts kwargs (VRef lt) (VRef ls) (VRef la) (VRef lk) (VRef ll))
    as (A1 & _).
  remember (set_attrs kwargs (entries (VRef lt) (VRef ls) (VRef la) (VRef lk) (VRef ll)) ∅)
    as self eqn:Es.
  rewrite Hkw in A1. simpl in A1.
  exists (with_defaults lt ls la lk ll h). split.
  2: { intros l d Hl. by apply with_defaults_lookup. }
  apply bind_Raise. unfold derive_sizes. apply bind_Raise.
  unfold derive_size. rewrite (bind_run _ _ _ _ _ (getattr_run _ _ _ _ A1)).
  apply bind_Raise. unfold Py.getitem, title_error in *.
  destruct v as [| | | | |l]; try (by injection Herr as <-).
  destruct (h !! l) as [d|] eqn:Hl; [|done].
  rewrite (with_defaults_lookup _ _ _ _ _ _ _ _ Hfresh Hl).
  destruct (d !! "size"); [done|]. by injection Herr as <-.
Qed.

Lemma X7_title_font_checked_first_witness :
  ∃ h', __init__ {[ "title_font" := VRef 1%positive ]} heap_plain_font = Raise KeyError h' ∧
        ∀ l d, heap_plain_font !! l = Some d → h' !! l = Some d.
Proof.
  apply (X7_title_font_checked_first _ _ (VRef 1%positive)).
  - reflexivity.
  - reflexivity.
Defined.

(** X8: after a construction that returns, each of the four derived fonts
    has an integer [size], whatever the types of the title size and of the
    ratio (a float title size, an integer ratio) and whether or not
    dictionaries are shared. *)
Theorem X8_derived_sizes_are_integers kwargs h self h' k :
  __init__ kwargs h = Ok self h' → k ∈ derived_fonts →
  ∃ n : Z, font_size self h' k = Some (VInt n).
Proof.
  intros Hinit Hk.
  apply init_Ok in Hinit as (defs & h0 & h1 & h2 & h3 & _ & _ & D1 & D2 & D3 & D4).
  assert (∀ l d d', h' !! l = Some d' → resized d d' →
            self !! k = Some (VRef l) → ∃ n : Z, font_size self h' k = Some (VInt n)) as Hfin.
  { intros l d d' Hl [n ->] Hself. exists n.
    unfold font_size, font. rewrite Hself, Hl. simpl. apply lookup_insert_eq. }
  pose proof D1 as (? & ? & ? & ? & ? & l1 & d1 & _ & _ & _ & _ & _ & T1 & L1 & _).
  pose proof D2 as (? & ? & ? & ? & ? & l2 & d2 & _ & _ & _ & _ & _ & T2 & L2 & _).
  pose proof D3 as (? & ? & ? & ? & ? & l3 & d3 & _ & _ & _ & _ & _ & T3 & L3 & _).
  pose proof D4 as (? & ? & ? & ? & ? & l4 & d4 & _ & _ & _ & _ & _ & T4 & L4 & _).
  apply list_elem_of_In in Hk. simpl in Hk.
  destruct Hk as [<-|[<-|[<-|[<-|[]]]]].
  - destruct (derives_target _ _ _ _ _ _ _ _ D1 T1 L1) as (a1 & E1 & R1).
    destruct (derives_frame _ _ _ _ _ _ _ _ D2 E1) as (a2 & E2 & K2).
    destruct (derives_frame _ _ _ _ _ _ _ _ D3 E2) as (a3 & E3 & K3).
    destruct (derives_frame _ _ _ _ _ _ _ _ D4 E3) as (a4 & E4 & K4).
    apply (Hfin l1 d1 a4 E4); [|done].
    eauto using resized_then_kept.
  - destruct (derives_target _ _ _ _ _ _ _ _ D2 T2 L2) as (a2 & E2 & R2).
    destruct (derives_frame _ _ _ _ _ _ _ _ D3 E2) as (a3 & E3 & K3).
    destruct (derives_frame _ _ _ _ _ _ _ _ D4 E3) as (a4 & E4 & K4).
    apply (Hfin l2 d2 a4 E4); [|done].
    eauto using resized_then_kept.
  - destruct (derives_target _ _ _ _ _ _ _ _ D3 T3 L3) as (a3 & E3 & R3).
    destruct (derives_frame _ _ _ _ _ _ _ _ D4 E3) as (a4 & E4 & K4).
    apply (Hfin l3 d3 a4 E4); [|done].
    eauto using resized_then_kept.
  - destruct (derives_target _ _ _ _ _ _ _ _ D4 T4 L4) as (a4 & E4 & R4).
    by apply (Hfin l4 d4 a4 E4).
Qed.

Lemma X8_derived_sizes_are_integers_witness :
  let kwargs : gmap string value :=
    {[ "title_font" := VRef 1%positive; "subtitle_ratio" := VInt 2 ]} in
  let o := __init__ kwargs heap_title_float in
  sizes_after o = Some [ Some (VFloat (F64.div (F64.of_Z 49) (F64.of_Z 2)));
                         Some (VInt 49); Some (VInt 22); Some (VInt 19); Some (VInt 22) ] ∧
  ∃ n : Z, font_size (self_of o) (heap_of o) "tick_font" = Some (VInt n).
Proof.
  intros kwargs o. split; [vm_compute; reflexivity|].
  apply (X8_derived_sizes_are_integers kwargs heap_title_float).
  - apply Ok_self_heap. vm_compute. reflexivity.
  - apply (bool_decide_unpack _). vm_compute. exact I.
Defined.

(** * Further properties of [standardize] *)

Section Styling.

Context `{Library}.

(** The parts of the figure [standardize] returns, from the parts of the
    figure it was given. *)
Lemma standardize_parts self fig h fig' h' :
  standardize self fig h = Ok fig' h' →
  ∃ axes lay,
    axis_args self = Some axes ∧ layout_args self = Some lay ∧
    Forall2 (λ p p', Fig.update y_axis axes h p = Val p') (fig_yaxes fig) (fig_yaxes fig') ∧
    Forall2 (λ p p', Fig.update x_axis axes h p = Val p') (fig_xaxes fig) (fig_xaxes fig') ∧
    Fig.update the_layout lay h (layout_props (fig_layout fig))
      = Val (layout_props (fig_layout fig')) ∧
    (layout_annotations (fig_layout fig) = None →
     layout_annotations (fig_layout fig') = None).
Proof.
  intros (axes & lay & fig1 & Hax & Hlay & Hre & Han)%standardize_Ok.
  apply restyled_Val in Hre as (Hy & Hx & Hp & Hanns).
  destruct (annotate_Ok _ _ _ _ _ Han) as (-> & -> & -> & Hcases).
  exists axes, lay. split_and!; try done.
  - by apply update_each_Val.
  - by apply update_each_Val.
  - rewrite <- Hanns. intros Hnone.
    destruct Hcases as [[_ E]|[[E _]|(anns & f & s & E & _)]]; congruence.
Qed.

Lemma update_styled o args h (p p' : props) :
  NoDup args.*1 → Fig.update o args h p = Val p' → styled o h args p p'.
Proof. intros Hnd Hup. by destruct (update_Val _ _ _ _ _ Hnd Hup) as [Hset _]. Qed.

End Styling.

(** X9: [standardize] depends on eleven attributes only.  Setting any other
    attribute of the instance, a ratio or [title_x] say, changes nothing of
    what [standardize] does: the sizes it applies are those derived at
    construction. *)
Theorem X9_standardize_ignores_other_attributes `{Library} (self : obj) k v fig h :
  k ∉ style_attrs →
  standardize (<[k := v]> self) fig h = standardize self fig h.
Proof.
  intros Hk. apply standardize_reads. intros k' Hk'.
  apply lookup_insert_ne. by intros ->.
Qed.

Lemma X9_standardize_ignores_other_attributes_witness :
  standardize (H := Sample.library) (<["subtitle_ratio" := VFloat F64.lit_0_5]> default_self)
    sample_figure default_heap
  = standardize default_self sample_figure default_heap.
Proof.
  apply X9_standardize_ignores_other_attributes.
  apply (bool_decide_unpack _). vm_compute. exact I.
Defined.

(** X10: when [standardize] returns, every vertical and every horizontal
    axis of the figure has been styled with the same five arguments: its
    [title_font] is what the library makes of the axis-title font of the
    instance and of the title font the axis had, its [tickfont] likewise of
    the tick font, and [showgrid], [gridcolor] and [gridwidth] of the
    values of the instance. *)
Theorem X10_axes_styled_alike `{Library} self fig h fig' h' :
  standardize self fig h = Ok fig' h' →
  ∃ args,
    axis_args self = Some args ∧
    Forall2 (styled y_axis h args) (fig_yaxes fig) (fig_yaxes fig') ∧
    Forall2 (styled x_axis h args) (fig_xaxes fig) (fig_xaxes fig').
Proof.
  intros (axes & lay & Hax & _ & Hy & Hx & _)%standardize_parts.
  exists axes. split; [done|].
  assert (NoDup axes.*1) as Hnd.
  { rewrite (axis_args_keys _ _ Hax). apply axis_keys_NoDup. }
  split.
  - eapply Forall2_impl; [exact Hy|]. intros p p' Hp. by apply update_styled.
  - eapply Forall2_impl; [exact Hx|]. intros p p' Hp. by apply update_styled.
Qed.

Lemma X10_axes_styled_alike_witness :
  ∃ (fig' : @figure Sample.library) args,
    standardize default_self sample_figure default_heap = Ok fig' default_heap ∧
    axis_args default_self = Some args ∧
    Forall2 (styled y_axis default_heap args) (fig_yaxes sample_figure) (fig_yaxes fig') ∧
    Forall2 (styled x_axis default_heap args) (fig_xaxes sample_figure) (fig_xaxes fig') ∧
    (fig_yaxes fig' !! 0%nat) ≫= (.!! "showgrid") = Some (Sample.Leaf (VBool true)) ∧
    (fig_xaxes fig' !! 0%nat) ≫= (.!! "showgrid") = Some (Sample.Leaf (VBool true)).
Proof.
  destruct (Ok_returns (standardize (H := Sample.library)
                          default_self sample_figure default_heap))
    as (fig' & h' & E); [vm_compute; reflexivity|].
  pose proof (standardize_heap _ _ _ _ _ E) as ->.
  destruct (X10_axes_styled_alike (H := Sample.library) _ _ _ _ _ E)
    as (args & Hargs & Hy & Hx).
  exists fig', args. split_and!; [exact E|exact Hargs|exact Hy|exact Hx| |].
  - change ((figure_of (Ok fig' default_heap) ≫= λ fig, fig_yaxes fig !! 0%nat)
              ≫= (.!! "showgrid") = Some (Sample.Leaf (VBool true))).
    rewrite <- E. vm_compute. reflexivity.
  - change ((figure_of (Ok fig' default_heap) ≫= λ fig, fig_xaxes fig !! 0%nat)
              ≫= (.!! "showgrid") = Some (Sample.Leaf (VBool true))).
    rewrite <- E. vm_compute. reflexivity.
Defined.

(** X11: when [standardize] returns, the layout has been styled with five
    arguments: its [title_font] and [legend_font] are what the library
    makes of the title font and the legend font of the instance, and so
    [template], [height] and [width] of the values of the instance; the
    title alignment of the layout is as it was, whatever [title_x] the
    instance has. *)
Theorem X11_layout_styled `{Library} self fig h fig' h' :
  standardize self fig h = Ok fig' h' →
  ∃ args,
    layout_args self = Some args ∧
    styled the_layout h args (layout_props (fig_layout fig)) (layout_props (fig_layout fig')) ∧
    layout_props (fig_layout fig') !! "title_x" = layout_props (fig_layout fig) !! "title_x".
Proof.
  intros (axes & lay & _ & Hlay & _ & _ & Hp & _)%standardize_parts.
  exists lay. split; [done|].
  assert (NoDup lay.*1) as Hnd.
  { rewrite (layout_args_keys _ _ Hlay). apply layout_keys_NoDup. }
  destruct (update_Val _ _ _ _ _ Hnd Hp) as [Hset Hrest]. split; [exact Hset|].
  apply Hrest. rewrite (layout_args_keys _ _ Hlay).
  intros Hin%list_elem_of_In. simpl in Hin.
  repeat (destruct Hin as [Hin|Hin]; [discriminate Hin|]). destruct Hin.
Qed.

Lemma X11_layout_styled_witness :
  ∃ fig' : @figure Sample.library,
    standardize default_self sample_figure default_heap = Ok fig' default_heap ∧
    layout_props (fig_layout fig') !! "title_x" = Some (Sample.Leaf (VFloat F64.lit_0_9)) ∧
    layout_props (fig_layout fig') !! "template" = Some (Sample.Template "simple_white") ∧
    layout_props (fig_layout fig') !! "width" = Some (Sample.Leaf (VInt 3200)).
Proof.
  destruct (Ok_returns (standardize (H := Sample.library)
                          default_self sample_figure default_heap))
    as (fig' & h' & E); [vm_compute; reflexivity|].
  pose proof (standardize_heap _ _ _ _ _ E) as ->.
  destruct (X11_layout_styled (H := Sample.library) _ _ _ _ _ E) as (args & _ & _ & Hx).
  exists fig'. split_and!; [exact E| | |].
  - etransitivity; [exact Hx|]. reflexivity.
  - change (figure_of (Ok fig' default_heap)
              ≫= (λ fig, layout_props (fig_layout fig) !! "template")
            = Some (Sample.Template "simple_white")).
    rewrite <- E. vm_compute. reflexivity.
  - change (figure_of (Ok fig' default_heap)
              ≫= (λ fig, layout_props (fig_layout fig) !! "width")
            = Some (Sample.Leaf (VInt 3200))).
    rewrite <- E. vm_compute. reflexivity.
Defined.

(** X12: [standardize] keeps the shape of the figure and everything it
    does not set.  There are as many vertical and horizontal axes as before,
    each with its other properties unchanged; the other properties of the
    layout are unchanged; and a layout without an annotation list still has
    none. *)
Theorem X12_standardize_keeps_the_rest `{Library} self fig h fig' h' :
  standardize self fig h = Ok fig' h' →
  length (fig_yaxes fig') = length (fig_yaxes fig) ∧
  length (fig_xaxes fig') = length (fig_xaxes fig) ∧
  (∀ i ax key, fig_yaxes fig !! i = Some ax → key ∉ axis_keys →
     ∃ ax', fig_yaxes fig' !! i = Some ax' ∧ ax' !! key = ax !! key) ∧
  (∀ i ax key, fig_xaxes fig !! i = Some ax → key ∉ axis_keys →
     ∃ ax', fig_xaxes fig' !! i = Some ax' ∧ ax' !! key = ax !! key) ∧
  (∀ key, key ∉ layout_keys →
     layout_props (fig_layout fig') !! key = layout_props (fig_layout fig) !! key) ∧
  (layout_annotations (fig_layout fig) = None →
     layout_annotations (fig_layout fig') = None).
Proof.
  intros (axes & lay & Hax & Hlay & Hy & Hx & Hp & Hnone)%standardize_parts.
  assert (NoDup axes.*1) as Hnd.
  { rewrite (axis_args_keys _ _ Hax). apply axis_keys_NoDup. }
  assert (NoDup lay.*1) as Hnd'.
  { rewrite (layout_args_keys _ _ Hlay). apply layout_keys_NoDup. }
  split_and!.
  - symmetry. by eapply Forall2_length.
  - symmetry. by eapply Forall2_length.
  - intros i ax key Hi Hkey.
    destruct (Forall2_lookup_l _ _ _ _ _ Hy Hi) as (ax' & Hi' & Hup).
    exists ax'. split; [done|].
    destruct (update_Val _ _ _ _ _ Hnd Hup) as [_ Hrest].
    apply Hrest. by rewrite (axis_args_keys _ _ Hax).
  - intros i ax key Hi Hkey.
    destruct (Forall2_lookup_l _ _ _ _ _ Hx Hi) as (ax' & Hi' & Hup).
    exists ax'. split; [done|].
    destruct (update_Val _ _ _ _ _ Hnd Hup) as [_ Hrest].
    apply Hrest. by rewrite (axis_args_keys _ _ Hax).
  - intros key Hkey.
    destruct (update_Val _ _ _ _ _ Hnd' Hp) as [_ Hrest].
    apply Hrest. by rewrite (layout_args_keys _ _ Hlay).
  - exact Hnone.
Qed.

Lemma X12_standardize_keeps_the_rest_witness :
  ∃ fig' : @figure Sample.library,
    standardize default_self sample_figure default_heap = Ok fig' default_heap ∧
    length (fig_yaxes fig') = 1%nat ∧ length (fig_xaxes fig') = 1%nat.
Proof.
  destruct (Ok_returns (standardize (H := Sample.library)
                          default_self sample_figure default_heap))
    as (fig' & h' & E); [vm_compute; reflexivity|].
  pose proof (standardize_heap _ _ _ _ _ E) as ->.
  exists fig'. split; [exact E|].
  destruct (X12_standardize_keeps_the_rest (H := Sample.library) _ _ _ _ _ E)
    as (H1 & H2 & _).
  split; [exact H1|exact H2].
Defined.

(** X13: the subtitle font is looked at only when there is an annotation.
    On a figure whose layout has no annotation list, or an empty one,
    [standardize] does the same whatever the [subtitle_font] attribute is,
    and even without it. *)
Theorem X13_subtitle_font_read_per_annotation `{Library} (self self' : obj) fig h :
  (∀ k, k ≠ "subtitle_font" → self !! k = self' !! k) →
  layout_annotations (fig_layout fig) = None ∨
  layout_annotations (fig_layout fig) = Some [] →
  standardize self fig h = standardize self' fig h.
Proof.
  intros Hk Hanns.
  assert (axis_args self = axis_args self') as Hax.
  { unfold axis_args.
    by rewrite !(Hk "axis_title_font"), !(Hk "tick_font"), !(Hk "showgrid"),
      !(Hk "gridcolor"), !(Hk "gridwidth") by done. }
  assert (layout_args self = layout_args self') as Hlay.
  { unfold layout_args.
    by rewrite !(Hk "title_font"), !(Hk "legend_font"), !(Hk "template"),
      !(Hk "height"), !(Hk "width") by done. }
  rewrite !standardize_eq, Hax, Hlay.
  destruct (axis_args self') as [axes|]; [|done].
  destruct (Fig.update_each y_axis _ _ _) as [yaxes|]; [|done].
  destruct (Fig.update_each x_axis _ _ _) as [xaxes|]; [|done].
  destruct (layout_args self') as [lay|]; [|done].
  destruct (Fig.update the_layout _ _ _) as [p|]; [|done].
  rewrite !annotate_eq. simpl. by destruct Hanns as [-> | ->].
Qed.

Lemma X13_subtitle_font_read_per_annotation_witness :
  standardize (delete "subtitle_font" default_self) bare_figure default_heap
  = standardize default_self bare_figure default_heap.
Proof.
  apply X13_subtitle_font_read_per_annotation.
  - intros k Hk. by apply lookup_delete_ne.
  - right. reflexivity.
Defined.

(** X14: [standardize] never returns on an object that lacks one of the
    ten attributes passed to the axis and layout updates, nor, once there is
    an annotation, on one without [subtitle_font]; the heap is as it was.
    The five attributes of the axes are read before the library is called:
    when one of them is missing, the error is [AttributeError]. *)
Theorem X14_missing_attribute `{Library} (self : obj) fig h :
  ((∃ k, k ∈ axis_attrs ∧ self !! k = None) →
   standardize self fig h = Raise AttributeError h) ∧
  ((∃ k, k ∈ layout_attrs ∧ self !! k = None) →
   ∃ e, standardize self fig h = Raise e h) ∧
  (self !! "subtitle_font" = None →
   (∃ a rest, layout_annotations (fig_layout fig) = Some (a :: rest)) →
   ∃ e, standardize self fig h = Raise e h).
Proof.
  split_and!.
  - intros (k & Hk & Hnone). rewrite standardize_eq.
    assert (axis_args self = None) as ->; [|done].
    unfold axis_args. apply list_elem_of_In in Hk. simpl in Hk.
    repeat (destruct Hk as [<-|Hk];
            [repeat (rewrite Hnone || destruct (self !! _)); done|]).
    destruct Hk.
  - intros (k & Hk & Hnone). rewrite standardize_eq.
    assert (layout_args self = None) as ->.
    { unfold layout_args. apply list_elem_of_In in Hk. simpl in Hk.
      repeat (destruct Hk as [<-|Hk];
              [repeat (rewrite Hnone || destruct (self !! _)); done|]).
      destruct Hk. }
    destruct (axis_args self) as [axes|]; [|by eexists].
    destruct (Fig.update_each y_axis _ _ _) as [yaxes|]; [|by eexists].
    destruct (Fig.update_each x_axis _ _ _) as [xaxes|]; by eexists.
  - intros Hsub (a & rest & Hanns). rewrite standardize_eq.
    destruct (axis_args self) as [axes|]; [|by eexists].
    destruct (Fig.update_each y_axis _ _ _) as [yaxes|]; [|by eexists].
    destruct (Fig.update_each x_axis _ _ _) as [xaxes|]; [|by eexists].
    destruct (layout_args self) as [lay|]; [|by eexists].
    destruct (Fig.update the_layout _ _ _) as [p|]; [|by eexists].
    rewrite annotate_eq. simpl. rewrite Hanns, Hsub. by eexists.
Qed.

Lemma X14_missing_attribute_witness :
  standardize (H := Sample.library) (delete "gridcolor" default_self)
    sample_figure default_heap
  = Raise AttributeError default_heap.
Proof.
  apply (proj1 (X14_missing_attribute _ _ _)).
  exists "gridcolor". split.
  - apply (bool_decide_unpack _). vm_compute. exact I.
  - apply lookup_delete_eq.
Defined.

(** * Sizes from valid input *)

(** Rounding gives a result its sign: it is negative only if asked to be. *)
Lemma binary_round_aux_sign sx mx ex lx :
  F64.is_negative (binary_round_aux F64.prec F64.emax sx mx ex lx) = true → sx = true.
Proof.
  unfold binary_round_aux.
  destruct (shr_fexp F64.prec F64.emax mx ex lx) as [mrs' e'].
  destruct (shr_fexp F64.prec F64.emax _ e' loc_Exact) as [mrs'' e''].
  destruct (shr_m mrs'') as [|m|m]; simpl; try done.
  destruct (_ <=? _)%Z; simpl; done.
Qed.

Lemma of_Z_nonneg z : (0 ≤ z)%Z → F64.is_negative (F64.of_Z z) = false.
Proof.
  intros Hz. unfold F64.of_Z, binary_normalize.
  destruct z as [|m|m]; [done| |lia].
  unfold binary_round. destruct (shl_align _ _ _) as [mz ez].
  destruct (F64.is_negative _) eqn:E; [|done].
  by apply binary_round_aux_sign in E.
Qed.

Lemma mul_nonneg x y :
  F64.is_negative x = false → F64.is_negative y = false →
  F64.is_negative (F64.mul x y) = false.
Proof.
  intros Hx Hy. unfold F64.mul.
  destruct x as [sx|sx| |sx mx ex], y as [sy|sy| |sy my ey]; simpl in *; try done.
  subst. simpl.
  destruct (F64.is_negative _) eqn:E; [|done].
  by apply binary_round_aux_sign in E.
Qed.

Lemma trunc_nonneg x : F64.is_negative x = false → (0 ≤ F64.trunc x)%Z.
Proof.
  unfold F64.trunc. destruct x as [| | |s m e]; simpl; try lia.
  intros ->. simpl. apply Z.shiftl_nonneg. lia.
Qed.

(** X15: for the sizes the configuration is meant for, the derived size is
    the floor of the product, as the documentation of the ratios suggests.
    When no dictionary is shared, the title size is a non-negative integer
    and the four ratios are floats that are not negative, each derived size
    is a non-negative integer, the floor of the binary64 product of its
    base size and its ratio. *)
Theorem X15_floor_for_valid_sizes kwargs h self h' s r1 r2 r3 r4 :
  __init__ kwargs h = Ok self h' →
  unshared self →
  font_size self h' "title_font" = Some (VInt s) → (0 ≤ s)%Z →
  self !! "subtitle_ratio" = Some (VFloat r1) → F64.is_negative r1 = false →
  self !! "axis_title_ratio" = Some (VFloat r2) → F64.is_negative r2 = false →
  self !! "tick_font_ratio" = Some (VFloat r3) → F64.is_negative r3 = false →
  self !! "legend_font_ratio" = Some (VFloat r4) → F64.is_negative r4 = false →
  ∃ n1 n2 n3 n4 : Z,
    font_size self h' "subtitle_font" = Some (VInt n1) ∧
    font_size self h' "axis_title_font" = Some (VInt n2) ∧
    font_size self h' "tick_font" = Some (VInt n3) ∧
    font_size self h' "legend_font" = Some (VInt n4) ∧
    n1 = F64.floor (F64.mul (F64.of_Z s) r1) ∧ (0 ≤ n1)%Z ∧
    n2 = F64.floor (F64.mul (F64.of_Z s) r2) ∧ (0 ≤ n2)%Z ∧
    n3 = F64.floor (F64.mul (F64.of_Z n2) r3) ∧ (0 ≤ n3)%Z ∧
    n4 = F64.floor (F64.mul (F64.of_Z s) r4) ∧ (0 ≤ n4)%Z.
Proof.
  intros Hinit Hun Hs Hs0 R1 N1 R2 N2 R3 N3 R4 N4.
  destruct (sizes_unshared _ _ _ _ Hinit Hun)
    as (s' & r1' & r2' & r3' & r4' & n1 & n2 & n3 & n4 &
        Hs' & R1' & R2' & R3' & R4' & D1 & D2 & D3 & D4 & S1 & S2 & S3 & S4).
  rewrite Hs in Hs'. injection Hs' as <-.
  rewrite R1 in R1'. injection R1' as <-.
  rewrite R2 in R2'. injection R2' as <-.
  rewrite R3 in R3'. injection R3' as <-.
  rewrite R4 in R4'. injection R4' as <-.
  apply derived_int_float in D1, D2, D3, D4.
  injection D1 as ->. injection D2 as ->. injection D4 as ->.
  pose proof (of_Z_nonneg s Hs0) as Ps.
  pose proof (mul_nonneg _ _ Ps N1) as P1.
  pose proof (mul_nonneg _ _ Ps N2) as P2.
  pose proof (mul_nonneg _ _ Ps N4) as P4.
  pose proof (trunc_nonneg _ P2) as T2.
  pose proof (mul_nonneg _ _ (of_Z_nonneg _ T2) N3) as P3.
  injection D3 as ->.
  eexists _, _, _, _. split_and!; try done;
    try (by apply trunc_floor); by apply trunc_nonneg.
Qed.

Lemma X15_floor_for_valid_sizes_witness :
  ∃ n1 n2 n3 n4 : Z,
    font_size default_self default_heap "subtitle_font" = Some (VInt n1) ∧
    font_size default_self default_heap "axis_title_font" = Some (VInt n2) ∧
    font_size default_self default_heap "tick_font" = Some (VInt n3) ∧
    font_size default_self default_heap "legend_font" = Some (VInt n4) ∧
    n1 = F64.floor (F64.mul (F64.of_Z 24) F64.lit_0_95) ∧ (0 ≤ n1)%Z ∧
    n2 = F64.floor (F64.mul (F64.of_Z 24) F64.lit_0_9) ∧ (0 ≤ n2)%Z ∧
    n3 = F64.floor (F64.mul (F64.of_Z n2) F64.lit_0_9) ∧ (0 ≤ n3)%Z ∧
    n4 = F64.floor (F64.mul (F64.of_Z 24) F64.lit_0_9) ∧ (0 ≤ n4)%Z.
Proof.
  apply (X15_floor_for_valid_sizes ∅ ∅ default_self default_heap 24
           F64.lit_0_95 F64.lit_0_9 F64.lit_0_9 F64.lit_0_9).
  - exact (Ok_self_heap (__init__ ∅ ∅) eq_refl).
  - exists 1%positive, 2%positive, 3%positive, 4%positive, 5%positive.
    split_and!; try (vm_compute; reflexivity).
    apply (bool_decide_unpack _). vm_compute. exact I.
  - vm_compute. reflexivity.
  - lia.
  - vm_compute. reflexivity.
  - reflexivity.
  - vm_compute. reflexivity.
  - reflexivity.
  - vm_compute. reflexivity.
  - reflexivity.
  - vm_compute. reflexivity.
  - reflexivity.
Defined.

(** * Construction from unshared options *)

(** X16: what construction does with options that share no dictionary.
    When each font option is absent or a dictionary of the caller, no
    dictionary is supplied twice, the title font has a size, a number as
    the ratios are, and the four values [int(size * ratio)] can be computed
    from it (the tick size from the axis-title size), construction returns;
    the title font is as supplied, and each derived font is the supplied or
    default dictionary with its [size] set to its value. *)
Theorem X16_unshared_construction kwargs h dt ds da dk dl s n1 n2 n3 n4 :
  fonts_apart kwargs →
  sizes_are_numbers kwargs h →
  font_option kwargs h "title_font" default_title_font = Some dt →
  font_option kwargs h "subtitle_font" default_font = Some ds →
  font_option kwargs h "axis_title_font" default_font = Some da →
  font_option kwargs h "tick_font" default_font = Some dk →
  font_option kwargs h "legend_font" default_font = Some dl →
  dt !! "size" = Some s →
  derived s (ratio_option kwargs "subtitle_ratio" F64.lit_0_95) = Val (VInt n1) →
  derived s (ratio_option kwargs "axis_title_ratio" F64.lit_0_9) = Val (VInt n2) →
  derived (VInt n2) (ratio_option kwargs "tick_font_ratio" F64.lit_0_9) = Val (VInt n3) →
  derived s (ratio_option kwargs "legend_font_ratio" F64.lit_0_9) = Val (VInt n4) →
  ∃ self h',
    __init__ kwargs h = Ok self h' ∧
    font self h' "title_font" = Some dt ∧
    font self h' "subtitle_font" = Some (<["size" := VInt n1]> ds) ∧
    font self h' "axis_title_font" = Some (<["size" := VInt n2]> da) ∧
    font self h' "tick_font" = Some (<["size" := VInt n3]> dk) ∧
    font self h' "legend_font" = Some (<["size" := VInt n4]> dl).
Proof.
  intros Hapart _ Ot Os Oa Ok' Ol Hs V1 V2 V3 V4.
  exact (construction_apart kwargs h dt ds da dk dl s n1 n2 n3 n4
           Hapart Ot Os Oa Ok' Ol Hs V1 V2 V3 V4).
Qed.

Lemma X16_unshared_construction_witness :
  ∃ self h',
    __init__ kwargs_two_fonts heap_two_fonts = Ok self h' ∧
    font self h' "title_font" = Some {[ "size" := VInt 40; "family" := VStr "Times" ]} ∧
    font self h' "subtitle_font" = Some (<["size" := VInt 38]> default_font) ∧
    font self h' "axis_title_font" = Some (<["size" := VInt 36]> default_font) ∧
    font self h' "tick_font"
      = Some (<["size" := VInt 18]> {[ "size" := VInt 7; "color" := VStr "navy" ]}) ∧
    font self h' "legend_font" = Some (<["size" := VInt 36]> default_font).
Proof.
  apply (X16_unshared_construction kwargs_two_fonts heap_two_fonts _ _ _ _ _ (VInt 40)).
  - intros k1 k2 l Hk1 Hk2 Hne E1 E2.
    apply list_elem_of_In in Hk1, Hk2. simpl in Hk1, Hk2.
    destruct Hk1 as [<-|[<-|[<-|[<-|[<-|[]]]]]];
      destruct Hk2 as [<-|[<-|[<-|[<-|[<-|[]]]]]]; try done;
      vm_compute in E1; try discriminate E1;
      vm_compute in E2; try discriminate E2; congruence.
  - split.
    + intros k v Hk Hv. apply list_elem_of_In in Hk. simpl in Hk.
      destruct Hk as [<-|[<-|[<-|[<-|[]]]]]; vm_compute in Hv;
        try discriminate Hv. by injection Hv as <-.
    + intros l d s Hl Hd Hs. vm_compute in Hl. injection Hl as <-.
      pose proof (font_size_lookup {[ "title_font" := VRef 1%positive ]} heap_two_fonts
                    "title_font" 1%positive d s (lookup_singleton_eq _ _) Hd Hs) as E.
      assert (Some s = Some (VInt 40)) as [= ->]; [|exact I].
      rewrite <- E. apply (bool_decide_unpack _). vm_compute. exact I.
  - reflexivity.
  - reflexivity.
  - reflexivity.
  - reflexivity.
  - reflexivity.
  - reflexivity.
  - vm_compute. reflexivity.
  - vm_compute. reflexivity.
  - vm_compute. reflexivity.
  - vm_compute. reflexivity.
Defined.
